(** * chainer/optimizer.py: a shallow embedding and its specification

    The module under study is the optimizer runtime of chainer:
    [Hyperparameter], [UpdateRule], [Optimizer], [GradientMethod] and the
    hook function [GradientClipping], together with the helper
    [_sum_sqnorm].

    Conventions of the embedding:
    - Python integers are [Z]; array elements are real numbers (an
      idealisation of numpy floats: no overflow, no rounding, no NaN);
      names are [string]s.  Where a statement depends on what floats do
      beyond that, the code is run on binary64 numbers ([Float64]).
    - A Python [dict] is a [gmap string _]; an [OrderedDict] is an
      association list in insertion order.
    - Objects that are mutated through several references (the state
      dictionary of an update rule, hyperparameter objects) live in an
      explicit store and are named by their location.
    - A method is a function from the state before the call to the state
      after it, paired with its outcome: a returned value or a raised
      exception.  The state reached when an exception is raised is kept. *)

From Stdlib Require Import PrimFloat FloatOps SpecFloat.
From Stdlib Require Import ZArith Reals Lra Psatz Lia List Ascii String.
From stdpp Require Import gmap strings list fin_maps.

Local Open Scope Z_scope.

(** ** Python values, exceptions, outcomes *)

(** The builtin exceptions raised by the module. *)
Inductive exn : Type :=
| TypeError (msg : string)
| ValueError (msg : string)
| KeyError (msg : string)
| RuntimeError (msg : string)
| AttributeError (msg : string)
| NotImplementedError.

Inductive outcome (A : Type) : Type :=
| Ret (a : A)
| Raise (e : exn).
Arguments Ret {A} a.
Arguments Raise {A} e.

(** A computation over a state [S]. *)
Definition M (S A : Type) : Type := S -> S * outcome A.

Definition ret {S A} (a : A) : M S A := fun s => (s, Ret a).
Definition raise {S A} (e : exn) : M S A := fun s => (s, Raise e).
Definition bind {S A B} (m : M S A) (k : A -> M S B) : M S B :=
  fun s => match m s with
           | (s', Ret a) => k a s'
           | (s', Raise e) => (s', Raise e)
           end.
Definition get {S} : M S S := fun s => (s, Ret s).
Definition put {S} (s : S) : M S unit := fun _ => (s, Ret tt).
Definition modify {S} (f : S -> S) : M S unit := fun s => (f s, Ret tt).

Declare Scope py_scope.
Delimit Scope py_scope with py.
Notation "x <- m ;; k" := (bind m (fun x => k))
  (at level 100, m at next level, right associativity) : py_scope.
Notation "m ;;; k" := (bind m (fun _ => k))
  (at level 100, right associativity) : py_scope.

(** [for x in l: body x] *)
Fixpoint for_each {S A} (l : list A) (body : A -> M S unit) : M S unit :=
  match l with
  | [] => ret tt
  | x :: l' => bind (body x) (fun _ => for_each l' body)
  end.

(** numpy / cupy arrays.  [device] is the id of the device the array lives
    on, [-1] for the host (the id of [cuda.DummyDevice]). *)
Inductive dtype : Type := float16 | float32 | float64.

Record ndarray : Type := Ndarray {
  device : Z;
  shape : list nat;
  adtype : dtype;
  elems : list R
}.

(** Locations of objects held by reference. *)
Abbreviation loc := nat.

Inductive pyvalue : Type :=
| PyNone
| PyInt (z : Z)
| PyFloat (r : R)
| PyStr (s : string)
| PyArray (a : ndarray)
| PyRef (l : loc).

(** ** Hyperparameter *)

Module Hyperparameter.

(** A hyperparameter object is its instance dictionary [__dict__]; the
    parent link is the entry [_parent] of that dictionary. *)
Abbreviation heap := (gmap loc (gmap string pyvalue)).

Definition parent_key : string := "_parent".

(** [Hyperparameter(parent)] *)
Definition __init__ (parent : pyvalue) (h : heap) : loc * heap :=
  let l := fresh (dom h) in
  (l, <[l := {[ parent_key := parent ]}]> h).








End Hyperparameter.

(** ** Parameters, callables, serializers *)

(** A parameter variable ([chainer.Variable]) as the optimizer sees it:
    its name in the link hierarchy, its data array ([None] while the
    parameter is uninitialized) and its gradient array ([None] when
    absent). *)
Record Param : Type := {
  name : string;
  data : option ndarray;
  grad : option ndarray
}.

Definition set_grad (g : option ndarray) (p : Param) : Param :=
  {| name := name p; data := data p; grad := g |}.

(** [cuda.get_device(x).id] *)
Definition get_device (x : option ndarray) : Z :=
  match x with
  | Some a => device a
  | None => -1
  end.

(** [cuda.to_gpu(a)] inside [with device], and [cuda.to_cpu(a)] *)
Definition to_gpu (current : Z) (a : ndarray) : ndarray :=
  {| device := current; shape := shape a; adtype := adtype a; elems := elems a |}.
Definition to_cpu (a : ndarray) : ndarray :=
  {| device := -1; shape := shape a; adtype := adtype a; elems := elems a |}.

(** [xp.zeros_like(a)] on the device of [a] *)
Definition zeros_like (a : ndarray) : ndarray :=
  {| device := device a; shape := shape a; adtype := adtype a;
     elems := map (fun _ => 0%R) (elems a) |}.

(** What the attribute [__name__] of an object holds: a string, as for
    every function and class, or [None], which any other object may carry
    there. *)
Inductive name_value : Type :=
| NameStr (n : string)
| NameNone.

(** A Python object passed as a hook: whether it is callable, and its
    attributes [name] and [__name__] when it has them.  The attribute
    [name] holds a string, as the docstrings of [add_hook] have it
    ([name (str)]). *)
Record pyobject : Type := {
  obj_id : nat;
  callable : bool;
  attr_name : option string;
  attr___name__ : option name_value
}.

(** [getattr(o, attr, default)] for the two attributes above; the result
    is a string or [None]. *)
Definition getattr_name (o : pyobject) (default : option string) : option string :=
  match attr_name o with
  | Some n => Some n
  | None => default
  end.
Definition getattr___name__ (o : pyobject) (default : option string) : option string :=
  match attr___name__ o with
  | Some (NameStr n) => Some n
  | Some NameNone => None
  | None => default
  end.

(** An [OrderedDict] of hooks, in insertion order. *)
Abbreviation hooks_dict := (list (string * pyobject)).

Definition hooks_contains (name : string) (hooks : hooks_dict) : bool :=
  bool_decide (name ∈ hooks.*1).

(** [del hooks[name]] *)
Definition hooks_delete (name : string) (hooks : hooks_dict) : hooks_dict :=
  filter (fun kv => kv.1 <> name) hooks.

(** Modelled from the spec: the serializer of [chainer.serializer], which
    is not part of this module.  In write mode [serializer(key, value)]
    stores [value] under [key] and returns it; in read mode (a
    [Deserializer]) it ignores [value] and returns the value stored under
    [key], or the caller's [value] when there is none. *)
Inductive Serializer : Type :=
| Writer (store : gmap string pyvalue)
| Deserializer (store : gmap string pyvalue).

Definition is_Deserializer (s : Serializer) : bool :=
  match s with
  | Deserializer _ => true
  | Writer _ => false
  end.

Definition serializer_call (s : Serializer) (key : string) (value : pyvalue)
  : Serializer * pyvalue :=
  match s with
  | Writer st => (Writer (<[key := value]> st), value)
  | Deserializer st => (s, default value (st !! key))
  end.

(** What a deserializer over [store] returns for [key] when it is called
    with the current value ([with_value = true]) or with [None]. *)
Definition loaded (store : gmap string pyvalue) (with_value : bool)
    (key : string) (value : pyvalue) : pyvalue :=
  (serializer_call (Deserializer store) key
                   (if with_value then value else PyNone)).2.

(** The calls made to objects outside the module, in the order made. *)
Inductive event : Type :=
| CallLossfun
| CallCleargrads
| CallZerograds
| CallBackward
| CallOptimizerHook (hook_name : string)
| CallRuleHook (hook_name : string)
| CallInitState
| CallUpdateCoreCpu
| CallUpdateCoreGpu
| CallUpdateCore.

Definition dquote : string := String "034"%char EmptyString.

(** ** UpdateRule *)

Module UpdateRule.

(** An update rule object.  [_state] is [None] until the state dictionary
    is created, then the location of that dictionary; [cls] names the
    class of the object. *)
Record rule : Type := {
  _hooks : hooks_dict;
  _state : option loc;
  enabled : bool;
  t : Z;
  cls : string
}.

Definition set_hooks (hooks : hooks_dict) (r : rule) : rule :=
  {| _hooks := hooks; _state := _state r; enabled := enabled r; t := t r;
     cls := cls r |}.
Definition set_state (st : option loc) (r : rule) : rule :=
  {| _hooks := _hooks r; _state := st; enabled := enabled r; t := t r;
     cls := cls r |}.
Definition set_t (n : Z) (r : rule) : rule :=
  {| _hooks := _hooks r; _state := _state r; enabled := enabled r; t := n;
     cls := cls r |}.
Definition set_enabled (b : bool) (r : rule) : rule :=
  {| _hooks := _hooks r; _state := _state r; enabled := b; t := t r;
     cls := cls r |}.

(** [UpdateRule.__init__] *)
Definition __init__ (cls : string) : rule :=
  {| _hooks := []; _state := None; enabled := true; t := 0; cls := cls |}.

(** [state] property *)
Definition state (r : rule) : option loc := _state r.

(** What a call on an update rule can reach: the rule, the parameter it
    is given, and the store of state dictionaries. *)
Record world : Type := {
  self : rule;
  param : Param;
  heap : gmap loc (gmap string pyvalue)
}.

Definition set_self (r : rule) (w : world) : world :=
  {| self := r; param := param w; heap := heap w |}.
Definition set_heap (h : gmap loc (gmap string pyvalue)) (w : world) : world :=
  {| self := self w; param := param w; heap := h |}.

(** The state of a computation: the world and the calls made so far. *)
Record st : Type := {
  w : world;
  trace : list event
}.

Definition on_world (f : world -> world) (s : st) : st :=
  {| w := f (w s); trace := trace s |}.

(** Code supplied from outside this module: the methods that subclasses
    override and the hook functions.  Each acts on the world it is called
    in and returns or raises.  [numpy_empty] is the content of the buffer
    that [numpy.empty(1)] hands out.  The class described here keeps the
    [update_core] of [UpdateRule] and overrides its two variants; a class
    that overrides [update_core] itself is described by
    [UpdateRuleOverride.Subclass]. *)
Class External : Type := {
  init_state : world -> world * outcome unit;
  update_core_cpu : world -> world * outcome unit;
  update_core_gpu : world -> world * outcome unit;
  call_hook : pyobject -> world -> world * outcome unit;
  numpy_empty : R
}.

(** The methods as [UpdateRule] itself defines them. *)
Definition base_init_state : world -> world * outcome unit := ret tt.
Definition base_update_core_cpu : world -> world * outcome unit :=
  raise NotImplementedError.
Definition base_update_core_gpu : world -> world * outcome unit :=
  raise NotImplementedError.

(** An outside call, recorded in the trace. *)
Definition call (ev : event) (f : world -> world * outcome unit) : M st unit :=
  fun s =>
    let (w', r) := f (w s) in
    ({| w := w'; trace := trace s ++ [ev] |}, r).

Local Open Scope py_scope.

Definition hook_exists_msg (name : string) : string :=
  String.append "hook " (String.append dquote
    (String.append name (String.append dquote " already exists"))).

(** [getattr(hook, 'name', getattr(hook, '__name__', None))] *)
Definition default_name (hook : pyobject) : option string :=
  getattr_name hook (getattr___name__ hook None).

(** [add_hook(hook, name=None)] *)
Definition add_hook (hook : pyobject) (name : option string) : M rule unit :=
  if negb (callable hook) then
    raise (TypeError "hook function must be callable")
  else
    name <- match name with
            | None =>
                match default_name hook with
                | None =>
                    raise (ValueError
                             "the name of the hook function is not specified")
                | Some n => ret n
                end
            | Some n => ret n
            end ;;
    self <- get ;;
    if hooks_contains name (_hooks self) then
      raise (ValueError (hook_exists_msg name))
    else
      put (set_hooks (_hooks self ++ [(name, hook)]) self).

(** [remove_hook(name)] *)
Definition remove_hook (name : string) : M rule unit :=
  self <- get ;;
  if hooks_contains name (_hooks self) then
    put (set_hooks (hooks_delete name (_hooks self)) self)
  else raise (KeyError name).

Section Methods.
Context {ext : External}.

(** [update_core(param)] *)
Definition update_core : M st unit :=
  s <- get ;;
  let dev := get_device (data (param (w s))) in
  if decide (dev = -1) then call CallUpdateCoreCpu update_core_cpu
  else call CallUpdateCoreGpu update_core_gpu.

(** The body of the loop of [_prepare] for one value of the state. *)
Definition migrate (device_id : Z) (value : pyvalue) : pyvalue :=
  match value with
  | PyArray a =>
      if decide (get_device (Some a) <> device_id) then
        if decide (0 <= device_id) then PyArray (to_gpu device_id a)
        else PyArray (to_cpu a)
      else value
  | _ => value
  end.

(** [self._state = {}] with a new dictionary *)
Definition new_state : M st loc :=
  s <- get ;;
  let l := fresh (dom (heap (w s))) in
  put (on_world (fun w => set_self (set_state (Some l) (self w))
                             (set_heap (<[l := ∅]> (heap w)) w)) s) ;;;
  ret l.

(** [_prepare(param)] *)
Definition _prepare : M st unit :=
  s <- get ;;
  let device_id := get_device (data (param (w s))) in
  state <- match state (self (w s)) with
           | None =>
               l <- new_state ;;
               call CallInitState init_state ;;;
               ret l
           | Some l => ret l
           end ;;
  modify (on_world (fun w =>
    set_heap (alter (fmap (migrate device_id)) state (heap w)) w)).

(** [update(param)] *)
Definition update : M st unit :=
  s <- get ;;
  if negb (enabled (self (w s))) then ret tt
  else
    modify (on_world (fun w => set_self (set_t (t (self w) + 1) (self w)) w)) ;;;
    _prepare ;;;
    s <- get ;;
    for_each (_hooks (self (w s)))
             (fun kv => call (CallRuleHook kv.1) (call_hook kv.2)) ;;;
    update_core.

(** The loops of [serialize]: every key of the state dictionary is
    passed to the serializer, with the current value
    ([with_value = true]) or with [None], and bound to what the
    serializer returns. *)
Definition serialize_entries (with_value : bool) (serializer : Serializer)
    (d : gmap string pyvalue) : Serializer * gmap string pyvalue :=
  map_fold (fun key value acc =>
              let '(s', v') :=
                serializer_call acc.1 key (if with_value then value else PyNone) in
              (s', <[key := v']> acc.2))
           (serializer, d) d.

Definition serialize_state (with_value : bool) (serializer : Serializer)
    (l : loc) : M st Serializer :=
  s <- get ;;
  match heap (w s) !! l with
  | None => raise (AttributeError "_state")
  | Some d =>
      let '(serializer', d') := serialize_entries with_value serializer d in
      put (on_world (fun w => set_heap (<[l := d']> (heap w)) w) s) ;;;
      ret serializer'
  end.

(** [chainer.Variable(arr, grad=arr)] with
    [arr = numpy.empty(1, dtype=numpy.float32)] *)
Definition placeholder : Param :=
  let arr := {| device := -1; shape := [1%nat]; adtype := float32;
                elems := [numpy_empty] |} in
  {| name := EmptyString; data := Some arr; grad := Some arr |}.

(** [self_copy = copy.copy(self)] followed by
    [self_copy.init_state(param)].  The copy is shallow: it has the
    fields of [self] and shares with it the objects they refer to, the
    state dictionary and the hook mapping.  What [init_state] does to
    these two reaches [self] (a change of the hook mapping is a change in
    place, as [add_hook] and [remove_hook] make it); what it binds to the
    attributes [t], [enabled] and [_state] of the copy is dropped with the
    copy. *)
Definition init_state_on_copy (param : Param) : M st unit :=
  fun s =>
    let self_copy := self (w s) in
    let (w', r) := init_state {| self := self_copy; param := param;
                                 heap := heap (w s) |} in
    ({| w := set_self (set_hooks (_hooks (self w')) (self (w s)))
                      (set_heap (heap w') (w s));
        trace := trace s ++ [CallInitState] |}, r).

(** [serialize(serializer)] *)
Definition serialize (serializer : Serializer) : M st Serializer :=
  s <- get ;;
  match state (self (w s)) with
  | None =>
      if is_Deserializer serializer then
        l <- new_state ;;
        init_state_on_copy placeholder ;;;
        serialize_state false serializer l
      else ret serializer
  | Some l => serialize_state true serializer l
  end.

End Methods.

End UpdateRule.

(** ** The target link *)

(** Modelled from the spec: the parameter tree ([chainer.link.Link]), which
    is not part of this module.  It is kept as the sequence of its
    parameters in traversal order, each with its update rule slot.  A
    parameter object is named by its position.  The module calls
    [params()] in one place and [params(False)], [namedparams(False)] in
    the others: the argument is the flag [include_uninit] of chainer's
    [Link] (default [True]), and with [False] the parameters whose data is
    still [None] are left out.  [cleargrads] unsets every gradient;
    [zerograds] fills the gradient arrays by zeros (docstring of
    [Optimizer.zero_grads]). *)
Module Link.

Record slot : Type := {
  param : Param;
  update_rule : option UpdateRule.rule
}.

Abbreviation link := (list slot).

Definition set_param (p : Param) (s : slot) : slot :=
  {| param := p; update_rule := update_rule s |}.

Definition initialized (s : slot) : bool :=
  match data (param s) with
  | Some _ => true
  | None => false
  end.

(** [namedparams(include_uninit)] *)
Definition namedparams (include_uninit : bool) (l : link) : list (string * nat) :=
  omap (fun '(i, s) =>
          if include_uninit || initialized s then Some (name (param s), i)
          else None)
       (imap pair l).

(** [params(include_uninit)] *)
Definition params (include_uninit : bool) (l : link) : list nat :=
  (namedparams include_uninit l).*2.

Definition cleargrads (l : link) : link :=
  map (fun s => set_param (set_grad None (param s)) s) l.

Definition zerograd (p : Param) : Param :=
  match data p with
  | None => p
  | Some d =>
      match grad p with
      | None => set_grad (Some (zeros_like d)) p
      | Some g => set_grad (Some (zeros_like g)) p
      end
  end.

Definition zerograds (l : link) : link :=
  map (fun s => set_param (zerograd (param s)) s) l.

End Link.

(** ** Optimizer *)

Module Optimizer.

(** An optimizer object.  The attributes are created by [setup] (and
    [use_cleargrads]); [None] is an attribute that does not exist yet. *)
Record optimizer : Type := {
  target : option Link.link;
  t : option Z;
  epoch : option Z;
  _hooks : option hooks_dict;
  _use_cleargrads : option bool
}.

(** A newly constructed optimizer. *)
Definition new : optimizer :=
  {| target := None; t := None; epoch := None; _hooks := None;
     _use_cleargrads := None |}.

Definition set_target (l : Link.link) (o : optimizer) : optimizer :=
  {| target := Some l; t := t o; epoch := epoch o; _hooks := _hooks o;
     _use_cleargrads := _use_cleargrads o |}.
Definition set_t (n : Z) (o : optimizer) : optimizer :=
  {| target := target o; t := Some n; epoch := epoch o; _hooks := _hooks o;
     _use_cleargrads := _use_cleargrads o |}.
Definition set_epoch (n : Z) (o : optimizer) : optimizer :=
  {| target := target o; t := t o; epoch := Some n; _hooks := _hooks o;
     _use_cleargrads := _use_cleargrads o |}.
Definition set_hooks (hooks : hooks_dict) (o : optimizer) : optimizer :=
  {| target := target o; t := t o; epoch := epoch o; _hooks := Some hooks;
     _use_cleargrads := _use_cleargrads o |}.

(** What is passed to [setup]: a link, or some other object. *)
Inductive setup_arg : Type :=
| IsLink (l : Link.link)
| NotLink (v : pyvalue).

(** What a call on an optimizer can reach: the optimizer with its target
    and the store of state dictionaries of the update rules. *)
Record world : Type := {
  opt : optimizer;
  heap : gmap loc (gmap string pyvalue)
}.

Definition set_opt (o : optimizer) (w : world) : world :=
  {| opt := o; heap := heap w |}.

Record st : Type := {
  w : world;
  trace : list event
}.

Definition on_opt (f : optimizer -> optimizer) (s : st) : st :=
  {| w := set_opt (f (opt (w s))) (w s); trace := trace s |}.

Definition call (ev : event) (f : world -> world * outcome unit) : M st unit :=
  fun s =>
    let (w', r) := f (w s) in
    ({| w := w'; trace := trace s ++ [ev] |}, r).

(** The optimizer as [setup] leaves it: a target, counters at 0, no hook. *)
Definition is_reset (s : st) : Prop :=
  t (opt (w s)) = Some 0 /\ epoch (opt (w s)) = Some 0 /\
  _hooks (opt (w s)) = Some [] /\ is_Some (target (opt (w s))).

(** Hook functions of the optimizer: [hook(opt)]. *)
Class External : Type := {
  call_hook : pyobject -> world -> world * outcome unit
}.

Local Open Scope py_scope.

(** [setup(link)] *)
Definition setup (link : setup_arg) : M optimizer unit :=
  match link with
  | NotLink _ => raise (TypeError "optimization target must be a link")
  | IsLink l =>
      modify (set_target l) ;;;
      modify (set_t 0) ;;;
      modify (set_epoch 0) ;;;
      modify (set_hooks [])
  end.

(** [new_epoch()] *)
Definition new_epoch : M optimizer unit :=
  self <- get ;;
  match epoch self with
  | None => raise (AttributeError "epoch")
  | Some n => put (set_epoch (n + 1) self)
  end.

Definition hook_exists_msg (name : string) : string :=
  String.append "hook " (String.append name " already exists").

(** [add_hook(hook, name=None)] *)
Definition add_hook (hook : pyobject) (name : option string) : M optimizer unit :=
  if negb (callable hook) then
    raise (TypeError "hook function is not callable")
  else
    self <- get ;;
    match _hooks self with
    | None => raise (RuntimeError "call `setup` method before `add_hook` method")
    | Some hooks =>
        name <- match name with
                | None =>
                    match attr_name hook with
                    | None => raise (AttributeError "name")
                    | Some n => ret n
                    end
                | Some n => ret n
                end ;;
        if hooks_contains name hooks then
          raise (KeyError (hook_exists_msg name))
        else
          put (set_hooks (hooks ++ [(name, hook)]) self)
    end.

(** [remove_hook(name)] *)
Definition remove_hook (name : string) : M optimizer unit :=
  self <- get ;;
  match _hooks self with
  | None => raise (AttributeError "_hooks")
  | Some hooks =>
      if hooks_contains name hooks then
        put (set_hooks (hooks_delete name hooks) self)
      else raise (KeyError name)
  end.

(** [call_hooks()] *)
Definition call_hooks {ext : External} : M st unit :=
  s <- get ;;
  match _hooks (opt (w s)) with
  | None => raise (AttributeError "_hooks")
  | Some hooks =>
      for_each hooks (fun kv => call (CallOptimizerHook kv.1) (call_hook kv.2))
  end.

End Optimizer.

(** ** GradientMethod *)

Module GradientMethod.
Import Optimizer.

(** The loss ([chainer.Variable]) returned by a loss function: its
    [backward()] acts on the world. *)
Record loss : Type := {
  backward : world -> world * outcome unit
}.

(** A loss function, called with the arguments given to [update]. *)
Definition lossfun_t : Type := list pyvalue -> world -> world * outcome loss.

(** Code supplied from outside: the hook functions of the optimizer, the
    methods and hooks of the update rules, and [setup_update_rule] of the
    subclass. *)
Class External : Type := {
  optimizer_external :: Optimizer.External;
  rule_external :: UpdateRule.External;
  setup_update_rule : Link.slot -> Link.slot * outcome unit
}.

Definition base_setup_update_rule : Link.slot -> Link.slot * outcome unit :=
  raise NotImplementedError.

Local Open Scope py_scope.

(** [self.target] *)
Definition get_target : M st Link.link :=
  s <- get ;;
  match target (opt (w s)) with
  | None => raise (AttributeError "target")
  | Some l => ret l
  end.

Definition put_target (l : Link.link) : M st unit :=
  modify (on_opt (set_target l)).

(** The parameter object at position [i] of the target. *)
Definition get_slot (i : nat) : M st Link.slot :=
  l <- get_target ;;
  match l !! i with
  | None => raise (AttributeError "param")
  | Some slot => ret slot
  end.

Definition put_slot (i : nat) (slot : Link.slot) : M st unit :=
  l <- get_target ;;
  put_target (<[i := slot]> l).

(** [use_cleargrads(use=True)] *)
Definition use_cleargrads (use : bool) : M optimizer unit :=
  modify (fun o => {| target := target o; t := t o; epoch := epoch o;
                      _hooks := _hooks o; _use_cleargrads := Some use |}).

Section Methods.
Context {ext : External}.

(** [setup(link)] *)
Definition setup (link : setup_arg) : M st unit :=
  (fun s => let (o, r) := Optimizer.setup link (opt (w s)) in
            (on_opt (fun _ => o) s, r)) ;;;
  l <- get_target ;;
  for_each (Link.params true l)
           (fun i => slot <- get_slot i ;;
                     fun s => let (slot', r) := setup_update_rule slot in
                              bind (put_slot i slot') (fun _ s' => (s', r)) s).

(** [loss = lossfun(...)] with the arguments given to [update] *)
Definition call_lossfun (lossfun : lossfun_t) (args : list pyvalue) : M st loss :=
  fun s =>
    let (w', r) := lossfun args (w s) in
    ({| w := w'; trace := trace s ++ [CallLossfun] |}, r).

(** [self.target.cleargrads()] and [self.target.zerograds()] *)
Definition target_cleargrads : M st unit :=
  l <- get_target ;;
  modify (fun s => {| w := w s; trace := trace s ++ [CallCleargrads] |}) ;;;
  put_target (Link.cleargrads l).
Definition target_zerograds : M st unit :=
  l <- get_target ;;
  modify (fun s => {| w := w s; trace := trace s ++ [CallZerograds] |}) ;;;
  put_target (Link.zerograds l).

(** The first block of [update], run when [lossfun] is given. *)
Definition compute_gradients (lossfun : lossfun_t) (args : list pyvalue)
  : M st unit :=
  s <- get ;;
  let use_cleargrads := default false (_use_cleargrads (opt (w s))) in
  loss <- call_lossfun lossfun args ;;
  (if use_cleargrads then target_cleargrads else target_zerograds) ;;;
  call CallBackward (backward loss).

(** The same block in the order in which the specification words it:
    clear the gradients, call the loss function, run [backward].  It is
    here to be compared with [compute_gradients]. *)
Definition spec_compute_gradients (lossfun : lossfun_t) (args : list pyvalue)
  : M st unit :=
  s <- get ;;
  let use_cleargrads := default false (_use_cleargrads (opt (w s))) in
  (if use_cleargrads then target_cleargrads else target_zerograds) ;;;
  loss <- call_lossfun lossfun args ;;
  call CallBackward (backward loss).

(** The body of the loop over [namedparams(False)]: a parameter
    without gradient gets [zeros_like(param.data)]. *)
Definition fill_absent_grad (named : string * nat) : M st unit :=
  slot <- get_slot named.2 ;;
  let p := Link.param slot in
  match grad p with
  | Some _ => ret tt
  | None =>
      match data p with
      | None => raise (TypeError "zeros_like")
      | Some d =>
          put_slot named.2
            (Link.set_param (set_grad (Some (zeros_like d)) p) slot)
      end
  end.

Definition fill_absent_grads : M st unit :=
  l <- get_target ;;
  for_each (Link.namedparams false l) fill_absent_grad.

(** What the loop does to one parameter of the target. *)
Definition filled (slot : Link.slot) : Link.slot :=
  match data (Link.param slot), grad (Link.param slot) with
  | Some d, None =>
      Link.set_param (set_grad (Some (zeros_like d)) (Link.param slot)) slot
  | _, _ => slot
  end.

(** [self.t += 1] *)
Definition increment_t : M st unit :=
  s <- get ;;
  match t (opt (w s)) with
  | None => raise (AttributeError "t")
  | Some n => put (on_opt (set_t (n + 1)) s)
  end.

(** [param.update()]: the update rule of the parameter, when it has one,
    updates the parameter. *)
Definition param_update (i : nat) : M st unit :=
  slot <- get_slot i ;;
  match Link.update_rule slot with
  | None => ret tt
  | Some rule =>
      fun s =>
        let (rs, r) :=
          UpdateRule.update
            {| UpdateRule.w :=
                 {| UpdateRule.self := rule;
                    UpdateRule.param := Link.param slot;
                    UpdateRule.heap := heap (w s) |};
               UpdateRule.trace := trace s |} in
        let slot' := {| Link.param := UpdateRule.param (UpdateRule.w rs);
                        Link.update_rule := Some (UpdateRule.self (UpdateRule.w rs)) |} in
        let s' := {| w := {| opt := opt (w s);
                             heap := UpdateRule.heap (UpdateRule.w rs) |};
                     trace := UpdateRule.trace rs |} in
        bind (put_slot i slot') (fun _ s'' => (s'', r)) s'
  end.

(** The part of [update] up to the call of the hooks. *)
Definition update_gradients (lossfun : option lossfun_t) (args : list pyvalue)
  : M st unit :=
  match lossfun with
  | Some f => compute_gradients f args
  | None => ret tt
  end ;;;
  fill_absent_grads.

(** The part of [update] from the call of the hooks on. *)
Definition update_parameters : M st unit :=
  call_hooks ;;;
  increment_t ;;;
  l <- get_target ;;
  for_each (Link.params true l) param_update.

(** [update(lossfun, args)] *)
Definition update (lossfun : option lossfun_t) (args : list pyvalue)
  : M st unit :=
  update_gradients lossfun args ;;;
  update_parameters.

End Methods.

End GradientMethod.

(** ** _sum_sqnorm and GradientClipping *)

Local Open Scope R_scope.

(** [x.dot(y)] of two flat arrays *)
Definition dot (x y : list R) : R := foldr Rplus 0 (zip_with Rmult x y).

(** [sq_sum[dev] += s] on a [defaultdict(float)] *)
Definition add_to (sq_sum : gmap Z R) (dev : Z) (s : R) : gmap Z R :=
  <[dev := default 0 (sq_sum !! dev) + s]> sq_sum.

(** [sum(values)] *)
Definition sum_values (sq_sum : gmap Z R) : R :=
  map_fold (fun _ v acc => acc + v) 0 sq_sum.

(** [_sum_sqnorm(arr)]: the squared norms are accumulated per device and
    the per-device sums are added up. *)
Definition _sum_sqnorm (arr : list ndarray) : R :=
  let sq_sum :=
    foldl (fun sq_sum x =>
             let dev := get_device (Some x) in
             let x := elems x in
             let s := dot x x in
             add_to sq_sum dev s)
          ∅ arr in
  sum_values sq_sum.

(** The value of a float expression on real operands: a real number, or
    what numpy's float division gives for a zero divisor. *)
Inductive xfloat : Type :=
| Finite (r : R)
| PosInf
| NegInf
| NaN.

(** [a / b] for a float [a] and a [numpy.float64] [b] *)
Definition true_div (a b : R) : xfloat :=
  if Req_dec_T b 0 then
    if Rlt_dec 0 a then PosInf
    else if Rlt_dec a 0 then NegInf
    else NaN
  else Finite (a / b).

(** [x < 1] *)
Definition lt_one (x : xfloat) : bool :=
  match x with
  | Finite r => if Rlt_dec r 1 then true else false
  | NegInf => true
  | PosInf | NaN => false
  end.

Module GradientClipping.
Import Optimizer.

(** [grad *= rate] for a finite [rate] *)
Definition imul (rate : R) (g : ndarray) : ndarray :=
  {| device := device g; shape := shape g; adtype := adtype g;
     elems := map (fun e => e * rate) (elems g) |}.

(** [[p.grad for p in opt.target.params(False)]] *)
Definition grads (l : Link.link) : list (option ndarray) :=
  (fun i => slot ← l !! i; grad (Link.param slot)) <$> Link.params false l.

(** The loop [for param in opt.target.params(False): param.grad *= rate] *)
Definition scale_grads (rate : R) (l : Link.link) : Link.link :=
  foldl (fun l i =>
           match l !! i with
           | Some slot =>
               <[i := Link.set_param
                        (set_grad (imul rate <$> grad (Link.param slot))
                                  (Link.param slot)) slot]> l
           | None => l
           end)
        l (Link.params false l).

(** What the loop does to one parameter of the target. *)
Definition scaled (rate : R) (slot : Link.slot) : Link.slot :=
  if Link.initialized slot then
    Link.set_param
      (set_grad (imul rate <$> grad (Link.param slot)) (Link.param slot)) slot
  else slot.

(** [GradientClipping(threshold)(opt)].  [None] stands for a result
    outside the idealisation of floats as real numbers: gradients
    multiplied by an infinite rate. *)
Definition __call__ (threshold : R) (w : world) : option (world * outcome unit) :=
  match target (opt w) with
  | None => Some (w, Raise (AttributeError "target"))
  | Some l =>
      match mapM (fun g => g) (grads l) with
      | None => Some (w, Raise (AttributeError "ravel"))
      | Some arr =>
          let norm := sqrt (_sum_sqnorm arr) in
          let rate := true_div threshold norm in
          if lt_one rate then
            match rate with
            | Finite r => Some (set_opt (set_target (scale_grads r l) (opt w)) w, Ret tt)
            | _ => None
            end
          else Some (w, Ret tt)
      end
  end.

(** The squared L2 norm of a collection of arrays: the sum of the squares
    of all their elements. *)
Definition sum_of_squares (arr : list ndarray) : R :=
  foldr Rplus 0 ((fun e => e * e) <$> concat (elems <$> arr)).

End GradientClipping.

Local Close Scope R_scope.

(** ** GradientClipping on binary64 numbers *)

(** [_sum_sqnorm] and [GradientClipping.__call__] once more, on arrays of
    dtype [float64] with the arithmetic of IEEE 754 binary64, which is
    the arithmetic numpy has on them.  The hook is given as a function of
    the list [[p.grad for p in opt.target.params(False)]]; it returns the
    gradients as the loop leaves them. *)
Module Float64.

(** A [float64] array, flattened, and the id of its device. *)
Record ndarray : Type := {
  device : Z;
  elems : list float
}.

(** [x.dot(y)]; the additions are made from left to right. *)
Definition dot (x y : list float) : float :=
  foldl PrimFloat.add 0%float (zip_with PrimFloat.mul x y).

(** [sq_sum[dev] += s] on a [defaultdict(float)] *)
Definition add_to (sq_sum : gmap Z float) (dev : Z) (s : float) : gmap Z float :=
  <[dev := PrimFloat.add (default 0%float (sq_sum !! dev)) s]> sq_sum.

(** [sum(values)] *)
Definition sum_values (sq_sum : gmap Z float) : float :=
  map_fold (fun _ v acc => PrimFloat.add acc v) 0%float sq_sum.

(** [_sum_sqnorm(arr)] *)
Definition _sum_sqnorm (arr : list ndarray) : float :=
  let sq_sum :=
    foldl (fun sq_sum x =>
             let dev := device x in
             let x := elems x in
             let s := dot x x in
             add_to sq_sum dev s)
          ∅ arr in
  sum_values sq_sum.

(** [grad *= rate] *)
Definition imul (rate : float) (g : ndarray) : ndarray :=
  {| device := device g;
     elems := map (fun e => PrimFloat.mul e rate) (elems g) |}.

(** [GradientClipping(threshold)(opt)] on the gradients [grads] *)
Definition __call__ (threshold : float) (grads : list ndarray) : list ndarray :=
  let norm := PrimFloat.sqrt (_sum_sqnorm grads) in
  let rate := PrimFloat.div threshold norm in
  if PrimFloat.ltb rate 1%float then map (imul rate) grads else grads.

(** The real number that a finite binary64 number stands for. *)
Definition to_R (x : float) : option R :=
  match Prim2SF x with
  | S754_zero _ => Some 0%R
  | S754_finite s m e =>
      Some (IZR (if s then Z.neg m else Z.pos m) * powerRZ 2 e)%R
  | S754_infinity _ | S754_nan => None
  end.

End Float64.


(** * Further operations of the module *)

(** ** Hyperparameter: attribute lookup *)







(** ** UpdateRule: a class that overrides [update_core] *)

Module UpdateRuleOverride.
Import UpdateRule.

Local Open Scope py_scope.

(** A class derived from [UpdateRule] may override [update_core] itself
    instead of its two variants; the docstrings of the class and of
    [update_core] say so.  [update] calls [self.update_core], so the
    override replaces the choice between the variants.
    [update_core_override] is the overriding method, [None] for a class
    that keeps the [update_core] of [UpdateRule]. *)
Class Subclass : Type := {
  external :: External;
  update_core_override : option (world -> world * outcome unit)
}.

Section Methods.
Context {sub : Subclass}.

(** [self.update_core(param)] *)
Definition update_core : M st unit :=
  match update_core_override with
  | Some f => call CallUpdateCore f
  | None => UpdateRule.update_core
  end.

(** [update(param)] *)
Definition update : M st unit :=
  s <- get ;;
  if negb (enabled (self (w s))) then ret tt
  else
    modify (on_world (fun w => set_self (set_t (t (self w) + 1) (self w)) w)) ;;;
    _prepare ;;;
    s <- get ;;
    for_each (_hooks (self (w s)))
             (fun kv => call (CallRuleHook kv.1) (call_hook kv.2)) ;;;
    update_core.

End Methods.

End UpdateRuleOverride.

(** ** Classes of calls *)


(** A parameter that [param.update()] leaves alone: it has no update rule,
    or its rule is disabled. *)
Definition frozen (slot : Link.slot) : bool :=
  match Link.update_rule slot with
  | None => true
  | Some rule => negb (UpdateRule.enabled rule)
  end.

(** ** The hook functions on gradients *)

(** [xp.sign] of a number *)
Definition sign (x : R) : R :=
  (if Rlt_dec 0 x then 1 else if Rlt_dec x 0 then -1 else 0)%R.

Module HookFunctions.
Import Optimizer.

Local Open Scope R_scope.

(** [g] and [a] live on the same device and have the same shape, so that
    an operation on the two works element by element. *)
Definition fits (g a : ndarray) : Prop :=
  device g = device a /\ shape g = shape a /\
  length (elems g) = length (elems a).

#[global] Instance fits_dec (g a : ndarray) : Decision (fits g a).
Proof. unfold fits. apply _. Defined.

(** The array [g] after [g += a], element by element *)
Definition plus (g a : ndarray) : ndarray :=
  {| device := device g; shape := shape g; adtype := adtype g;
     elems := zip_with Rplus (elems g) (elems a) |}.

(** [g += a] in place.  Operands of different shapes (which numpy
    broadcasts or rejects) or on different devices are outside the model:
    [None]. *)
Definition iadd (g a : ndarray) : option ndarray :=
  if decide (fits g a) then Some (plus g a) else None.

(** [rate * a] *)
Definition rmul (rate : R) (a : ndarray) : ndarray :=
  {| device := device a; shape := shape a; adtype := adtype a;
     elems := (fun e => rate * e) <$> elems a |}.

(** [xp.sign(a)] *)
Definition sign_of (a : ndarray) : ndarray :=
  {| device := device a; shape := shape a; adtype := adtype a;
     elems := sign <$> elems a |}.

(** [xp.clip(a, lower, upper, out=a)]: the smaller of [upper] and the
    larger of the element and [lower] *)
Definition clip (lower upper : R) (a : ndarray) : ndarray :=
  {| device := device a; shape := shape a; adtype := adtype a;
     elems := (fun e => Rmin (Rmax e lower) upper) <$> elems a |}.

(** A loop over parameters of the target, given by their positions, each
    with an item [a] of its own: the body updates the parameter in place
    ([Ret]), raises, which ends the loop and keeps what the earlier rounds
    did, or leaves the model ([None]). *)
Definition for_params {A : Type} (body : A -> Param -> option (outcome Param))
    (items : list (nat * A)) (l : Link.link) : option (Link.link * outcome unit) :=
  foldl (fun acc '(i, a) =>
           match acc with
           | Some (l, Ret _) =>
               match l !! i with
               | Some slot =>
                   match body a (Link.param slot) with
                   | Some (Ret p) => Some (<[i := Link.set_param p slot]> l, Ret tt)
                   | Some (Raise e) => Some (l, Raise e)
                   | None => None
                   end
               | None => acc
               end
           | _ => acc
           end)
        (Some (l, Ret tt)) items.

(** [for param in opt.target.params(False)] *)
Definition params_items (l : Link.link) : list (nat * unit) :=
  (fun i => (i, tt)) <$> Link.params false l.

(** A method that works on [opt.target] *)
Definition with_target (f : Link.link -> option (Link.link * outcome unit))
    (w : world) : option (world * outcome unit) :=
  match target (opt w) with
  | None => Some (w, Raise (AttributeError "target"))
  | Some l =>
      match f l with
      | Some (l', r) => Some (set_opt (set_target l' (opt w)) w, r)
      | None => None
      end
  end.

(** The kernel of [WeightDecay]: [g += decay * p] *)
Definition WeightDecay_kernel (p : ndarray) (decay : R) (g : ndarray)
  : option ndarray :=
  iadd g (rmul decay p).

(** The body of the loop of [WeightDecay.__call__].  [rate * None] and
    adding to [None] are type errors on the host; what the kernel does
    with [None] is not modelled. *)
Definition WeightDecay_body (rate : R) (_ : unit) (param : Param)
  : option (outcome Param) :=
  let p := data param in
  let g := grad param in
  let dev := get_device p in
  if decide (dev = (-1)%Z) then
    match p, g with
    | Some p, Some g =>
        match iadd g (rmul rate p) with
        | Some g' => Some (Ret (set_grad (Some g') param))
        | None => None
        end
    | _, _ => Some (Raise (TypeError "unsupported operand type"))
    end
  else
    match p, g with
    | Some p, Some g =>
        match WeightDecay_kernel p rate g with
        | Some g' => Some (Ret (set_grad (Some g') param))
        | None => None
        end
    | _, _ => None
    end.

(** [WeightDecay(rate)(opt)] *)
Definition WeightDecay (rate : R) : world -> option (world * outcome unit) :=
  with_target (fun l => for_params (WeightDecay_body rate) (params_items l) l).

(** The kernel of [Lasso]: [g += decay * s] *)
Definition Lasso_kernel (s : ndarray) (decay : R) (g : ndarray)
  : option ndarray :=
  iadd g (rmul decay s).

(** The body of the loop of [Lasso.__call__]; data or a gradient that is
    [None] is not modelled. *)
Definition Lasso_body (rate : R) (_ : unit) (param : Param)
  : option (outcome Param) :=
  match data param, grad param with
  | Some p, Some g =>
      let sign := sign_of p in
      let dev := get_device (Some p) in
      match (if decide (dev = (-1)%Z) then iadd g (rmul rate sign)
             else Lasso_kernel sign rate g) with
      | Some g' => Some (Ret (set_grad (Some g') param))
      | None => None
      end
  | _, _ => None
  end.

(** [Lasso(rate)(opt)] *)
Definition Lasso (rate : R) : world -> option (world * outcome unit) :=
  with_target (fun l => for_params (Lasso_body rate) (params_items l) l).

(** The body of the loop of [GradientHardClipping.__call__]; the array
    module [opt.target.xp] is taken to be the one of the gradients, and a
    gradient that is [None] is not modelled. *)
Definition GradientHardClipping_body (lower_bound upper_bound : R) (_ : unit)
    (param : Param) : option (outcome Param) :=
  match grad param with
  | Some g => Some (Ret (set_grad (Some (clip lower_bound upper_bound g)) param))
  | None => None
  end.

(** [GradientHardClipping(lower_bound, upper_bound)(opt)] *)
Definition GradientHardClipping (lower_bound upper_bound : R)
  : world -> option (world * outcome unit) :=
  with_target (fun l =>
    for_params (GradientHardClipping_body lower_bound upper_bound)
               (params_items l) l).

(** [cuda.copy(a, out_device=dev)] *)
Definition copy (a : ndarray) (out_device : Z) : ndarray :=
  {| device := out_device; shape := shape a; adtype := adtype a;
     elems := elems a |}.

(** The body of the loop of [Optimizer.accumulate_grads]: an array on the
    host is a [numpy.ndarray], any other a [cuda.ndarray].  A gradient
    that is [None] has no attribute [device], which the first branch on
    the device reads when the source is on a device; with a source on the
    host what happens depends on the presence of a device and is not
    modelled. *)
Definition accumulate_body (g_src : ndarray) (param : Param)
  : option (outcome Param) :=
  match grad param with
  | Some g_dst =>
      let sum :=
        if decide (device g_dst = (-1)%Z) then iadd g_dst (to_cpu g_src)
        else if decide (device g_src <> (-1)%Z /\ device g_dst <> device g_src)
             then iadd g_dst (copy g_src (device g_dst))
             else iadd g_dst (to_gpu (device g_dst) g_src) in
      match sum with
      | Some g' => Some (Ret (set_grad (Some g') param))
      | None => None
      end
  | None =>
      if decide (device g_src <> (-1)%Z)
      then Some (Raise (AttributeError "device"))
      else None
  end.

(** What [g += rate * x] does to the parameter of a slot that has data
    and a gradient, [x] being [h] of the data. *)
Definition shifted (h : ndarray -> ndarray) (rate : R) (slot : Link.slot)
  : Link.slot :=
  match data (Link.param slot), grad (Link.param slot) with
  | Some p, Some g =>
      Link.set_param (set_grad (Some (plus g (rmul rate (h p)))) (Link.param slot))
                     slot
  | _, _ => slot
  end.

(** What the hard clipping does to the parameter of a slot that has data. *)
Definition clipped (lower upper : R) (slot : Link.slot) : Link.slot :=
  if Link.initialized slot then
    Link.set_param (set_grad (clip lower upper <$> grad (Link.param slot))
                             (Link.param slot)) slot
  else slot.

(** Every parameter of the link that has data has a gradient on the same
    device and of the same shape. *)
Definition grads_fit (l : Link.link) : Prop :=
  Forall (fun slot =>
            match data (Link.param slot) with
            | None => True
            | Some p =>
                match grad (Link.param slot) with
                | Some g => fits g p
                | None => False
                end
            end) l.

End HookFunctions.

(** ** Optimizer: the helpers on gradients *)

Module OptimizerGrads.
Import Optimizer.

Local Open Scope R_scope.

(** [zero_grads()]: [self.target.zerograds()] *)
Definition zero_grads (w : world) : world * outcome unit :=
  match target (opt w) with
  | None => (w, Raise (AttributeError "target"))
  | Some l => (set_opt (set_target (Link.zerograds l) (opt w)) w, Ret tt)
  end.

(** [compute_grads_norm()]; a gradient that is [None] has no [ravel]. *)
Definition compute_grads_norm (w : world) : outcome R :=
  match target (opt w) with
  | None => Raise (AttributeError "target")
  | Some l =>
      match mapM (fun g => g) (GradientClipping.grads l) with
      | None => Raise (AttributeError "ravel")
      | Some arr => Ret (sqrt (_sum_sqnorm arr))
      end
  end.

(** [clip_grads(maxnorm)]: [GradientClipping(maxnorm)(self)] *)
Definition clip_grads (maxnorm : R) (w : world) : option (world * outcome unit) :=
  GradientClipping.__call__ maxnorm w.

(** [weight_decay(decay)]: [WeightDecay(decay)(self)] *)
Definition weight_decay (decay : R) (w : world) : option (world * outcome unit) :=
  HookFunctions.WeightDecay decay w.

(** [accumulate_grads(grads)]: the parameters are paired with the given
    arrays by [zip], which stops at the shorter of the two. *)
Definition accumulate_grads (grads : list ndarray)
  : world -> option (world * outcome unit) :=
  HookFunctions.with_target (fun l =>
    HookFunctions.for_params HookFunctions.accumulate_body
      (zip (Link.params false l) grads) l).

End OptimizerGrads.

(** * Example objects *)


(** A plain function [clip] (it has [__name__] only), a hook object with a
    [name] attribute, and an object that is no function at all. *)
Definition fn_clip : pyobject :=
  {| obj_id := 1; callable := true; attr_name := None;
     attr___name__ := Some (NameStr "clip") |}.
Definition hook_decay : pyobject :=
  {| obj_id := 2; callable := true; attr_name := Some "WeightDecay";
     attr___name__ := None |}.
Definition hook_decay' : pyobject :=
  {| obj_id := 3; callable := true; attr_name := Some "WeightDecay";
     attr___name__ := None |}.
Definition anonymous_callable : pyobject :=
  {| obj_id := 4; callable := true; attr_name := None; attr___name__ := None |}.

(** A callable object of a class that sets [__name__ = None]. *)
Definition unnamed_callable : pyobject :=
  {| obj_id := 5; callable := true; attr_name := None;
     attr___name__ := Some NameNone |}.

Definition rule_with_decay : UpdateRule.rule :=
  UpdateRule.set_hooks [("WeightDecay", hook_decay)] (UpdateRule.__init__ "SGD").

Definition optimizer_with_decay : Optimizer.optimizer :=
  Optimizer.set_hooks [("WeightDecay", hook_decay)]
    (Optimizer.set_epoch 0 (Optimizer.set_t 0 (Optimizer.set_target [] Optimizer.new))).


(** Update rules used in the examples.  [sgd_external] is a rule with one
    state entry [v], created by [init_state] in the state dictionary of the
    rule, whose core update subtracts the gradient from the data; the hook
    function [clip] zeroes the gradient.  [lazy_external] is a rule whose
    [init_state] creates nothing and whose core update creates the state
    entry [n] on first use. *)
Definition sub_arrays (a g : ndarray) : ndarray :=
  {| device := device a; shape := shape a; adtype := adtype a;
     elems := zip_with Rminus (elems a) (elems g) |}.

Definition state_insert (key : string) (v : pyvalue) (w : UpdateRule.world)
  : UpdateRule.world :=
  match UpdateRule._state (UpdateRule.self w) with
  | Some l => UpdateRule.set_heap (alter (insert key v) l (UpdateRule.heap w)) w
  | None => w
  end.

Definition sgd_init_state (w : UpdateRule.world) : UpdateRule.world * outcome unit :=
  match data (UpdateRule.param w) with
  | Some d => (state_insert "v" (PyArray (zeros_like d)) w, Ret tt)
  | None => (w, Raise (AttributeError "data"))
  end.

Definition sgd_update_core (w : UpdateRule.world) : UpdateRule.world * outcome unit :=
  let p := UpdateRule.param w in
  match data p, grad p with
  | Some d, Some g =>
      ({| UpdateRule.self := UpdateRule.self w;
          UpdateRule.param := {| name := name p; data := Some (sub_arrays d g);
                                 grad := grad p |};
          UpdateRule.heap := UpdateRule.heap w |}, Ret tt)
  | _, _ => (w, Raise (TypeError "unsupported operand"))
  end.

Definition clip_hook (w : UpdateRule.world) : UpdateRule.world * outcome unit :=
  let p := UpdateRule.param w in
  ({| UpdateRule.self := UpdateRule.self w;
      UpdateRule.param := set_grad (option_map zeros_like (grad p)) p;
      UpdateRule.heap := UpdateRule.heap w |}, Ret tt).

Definition example_call_hook (hook : pyobject) (w : UpdateRule.world)
  : UpdateRule.world * outcome unit :=
  if decide (obj_id hook = 1%nat) then clip_hook w else (w, Ret tt).

Definition sgd_external : UpdateRule.External :=
  {| UpdateRule.init_state := sgd_init_state;
     UpdateRule.update_core_cpu := sgd_update_core;
     UpdateRule.update_core_gpu := sgd_update_core;
     UpdateRule.call_hook := example_call_hook;
     UpdateRule.numpy_empty := 0%R |}.

Definition lazy_update_core (w : UpdateRule.world) : UpdateRule.world * outcome unit :=
  (state_insert "n" (PyInt 1) w, Ret tt).

Definition lazy_external : UpdateRule.External :=
  {| UpdateRule.init_state := UpdateRule.base_init_state;
     UpdateRule.update_core_cpu := lazy_update_core;
     UpdateRule.update_core_gpu := lazy_update_core;
     UpdateRule.call_hook := example_call_hook;
     UpdateRule.numpy_empty := 0%R |}.

(** A rule whose [init_state] registers the hook [clip] on the rule it is
    called on ([self.add_hook(clip)]) and creates no state entry. *)
Definition hooking_init_state (w : UpdateRule.world)
  : UpdateRule.world * outcome unit :=
  let (r, o) := UpdateRule.add_hook fn_clip None (UpdateRule.self w) in
  (UpdateRule.set_self r w, o).

Definition hooking_external : UpdateRule.External :=
  {| UpdateRule.init_state := hooking_init_state;
     UpdateRule.update_core_cpu := lazy_update_core;
     UpdateRule.update_core_gpu := lazy_update_core;
     UpdateRule.call_hook := example_call_hook;
     UpdateRule.numpy_empty := 0%R |}.

(** A parameter on the host with data [[5; 7]] and gradient [[1; 2]]. *)
Definition example_data : ndarray :=
  {| device := -1; shape := [2%nat]; adtype := float32; elems := [5%R; 7%R] |}.
Definition example_grad : ndarray :=
  {| device := -1; shape := [2%nat]; adtype := float32; elems := [1%R; 2%R] |}.
Definition example_param : Param :=
  {| name := "/W"; data := Some example_data; grad := Some example_grad |}.

(** A rule with the hook [clip], before its first update. *)
Definition example_rule : UpdateRule.rule :=
  UpdateRule.set_hooks [("clip", fn_clip)] (UpdateRule.__init__ "SGD").

Definition example_rule_state (r : UpdateRule.rule) : UpdateRule.st :=
  {| UpdateRule.w := {| UpdateRule.self := r; UpdateRule.param := example_param;
                        UpdateRule.heap := ∅ |};
     UpdateRule.trace := [] |}.

(** The rule of [sgd_external] and the rule of [lazy_external] after one
    update of [example_param]. *)
Definition sgd_updated : UpdateRule.st :=
  (@UpdateRule.update sgd_external (example_rule_state example_rule)).1.
Definition lazy_updated : UpdateRule.st :=
  (@UpdateRule.update lazy_external
     (example_rule_state (UpdateRule.__init__ "Lazy"))).1.

(** A gradient method whose update rules are those of [sgd_external] and
    whose optimizer hook [clip] zeroes every gradient of the target. *)
Definition zero_grads_hook (w : Optimizer.world) : Optimizer.world * outcome unit :=
  match Optimizer.target (Optimizer.opt w) with
  | Some l => (Optimizer.set_opt
                 (Optimizer.set_target (Link.zerograds l) (Optimizer.opt w)) w,
               Ret tt)
  | None => (w, Raise (AttributeError "target"))
  end.

Definition example_optimizer_hook (hook : pyobject) (w : Optimizer.world)
  : Optimizer.world * outcome unit :=
  if decide (obj_id hook = 1%nat) then zero_grads_hook w else (w, Ret tt).

Definition example_method : GradientMethod.External :=
  {| GradientMethod.optimizer_external :=
       {| Optimizer.call_hook := example_optimizer_hook |};
     GradientMethod.rule_external := sgd_external;
     GradientMethod.setup_update_rule :=
       fun slot => ({| Link.param := Link.param slot;
                       Link.update_rule := Some (UpdateRule.__init__ "SGD") |},
                    Ret tt) |}.

(** A target with the parameter [/W], whose gradient is absent, the
    parameter [/b], whose gradient is set, and the parameter [/u], which is
    not initialized yet. *)
Definition param_W : Param :=
  {| name := "/W"; data := Some example_data; grad := None |}.
Definition param_b : Param :=
  {| name := "/b"; data := Some example_data; grad := Some example_grad |}.
Definition param_u : Param :=
  {| name := "/u"; data := None; grad := None |}.

Definition slot_of (p : Param) : Link.slot :=
  {| Link.param := p; Link.update_rule := Some (UpdateRule.__init__ "SGD") |}.

Definition example_target : Link.link := [slot_of param_W; slot_of param_b].
Definition example_target_uninit : Link.link :=
  [slot_of param_W; slot_of param_b; slot_of param_u].

Definition optimizer_on (l : Link.link) : Optimizer.st :=
  {| Optimizer.w :=
       {| Optimizer.opt :=
            Optimizer.set_hooks [("clip", fn_clip)]
              (Optimizer.set_epoch 0
                 (Optimizer.set_t 0 (Optimizer.set_target l Optimizer.new)));
          Optimizer.heap := ∅ |};
     Optimizer.trace := [] |}.

(** A loss function that itself leaves the gradient [[9; 9]] on every
    parameter, and whose loss accumulates [[1; 2]] into every gradient on
    [backward]. *)
Definition nines : ndarray :=
  {| device := -1; shape := [2%nat]; adtype := float32; elems := [9%R; 9%R] |}.

Definition add_arrays (a g : ndarray) : ndarray :=
  {| device := device a; shape := shape a; adtype := adtype a;
     elems := zip_with Rplus (elems a) (elems g) |}.

Definition on_target (f : Link.link -> Link.link) (w : Optimizer.world)
  : Optimizer.world :=
  match Optimizer.target (Optimizer.opt w) with
  | Some l => Optimizer.set_opt (Optimizer.set_target (f l) (Optimizer.opt w)) w
  | None => w
  end.

Definition accumulate (g : ndarray) (s : Link.slot) : Link.slot :=
  Link.set_param
    (set_grad (match grad (Link.param s) with
               | None => Some g
               | Some old => Some (add_arrays old g)
               end) (Link.param s)) s.

Definition example_loss : GradientMethod.loss :=
  {| GradientMethod.backward :=
       fun w => (on_target (map (accumulate example_grad)) w, Ret tt) |}.

Definition example_lossfun : GradientMethod.lossfun_t :=
  fun _ w =>
    (on_target (map (fun s => Link.set_param (set_grad (Some nines) (Link.param s)) s)) w,
     Ret example_loss).

(** A target whose only parameter has the gradient [[3; 4]], of norm 5. *)
Definition grad_3_4 : ndarray :=
  {| device := -1; shape := [2%nat]; adtype := float32; elems := [3%R; 4%R] |}.
Definition clipping_world : Optimizer.world :=
  {| Optimizer.opt :=
       Optimizer.set_hooks []
         (Optimizer.set_epoch 0
            (Optimizer.set_t 0
               (Optimizer.set_target
                  [slot_of {| name := "/W"; data := Some example_data;
                              grad := Some grad_3_4 |}]
                  Optimizer.new)));
     Optimizer.heap := ∅ |}.


(** * Further example objects *)



(** The plain [UpdateRule] class, none of whose methods is overridden. *)
Definition base_external : UpdateRule.External :=
  {| UpdateRule.init_state := UpdateRule.base_init_state;
     UpdateRule.update_core_cpu := UpdateRule.base_update_core_cpu;
     UpdateRule.update_core_gpu := UpdateRule.base_update_core_gpu;
     UpdateRule.call_hook := example_call_hook;
     UpdateRule.numpy_empty := 0%R |}.

(** The plain [UpdateRule] class as it is, and a class derived from it
    that overrides [update_core] alone, by the core update of the rule of
    [sgd_external]. *)
Definition base_class : UpdateRuleOverride.Subclass :=
  {| UpdateRuleOverride.external := base_external;
     UpdateRuleOverride.update_core_override := None |}.
Definition core_class : UpdateRuleOverride.Subclass :=
  {| UpdateRuleOverride.external := base_external;
     UpdateRuleOverride.update_core_override := Some sgd_update_core |}.

(** The parameter of the examples moved to device 0, and a state whose
    entry [v] is still on the host. *)
Definition example_param_gpu : Param :=
  {| name := "/W"; data := Some (to_gpu 0 example_data);
     grad := Some (to_gpu 0 example_grad) |}.
Definition host_state : gmap string pyvalue :=
  {[ "v" := PyArray (zeros_like example_data); "n" := PyInt 3 ]}.
Definition rule_state_on_host : UpdateRule.st :=
  {| UpdateRule.w :=
       {| UpdateRule.self :=
            UpdateRule.set_state (Some 0%nat) (UpdateRule.__init__ "SGD");
          UpdateRule.param := example_param_gpu;
          UpdateRule.heap := {[ 0%nat := host_state ]} |};
     UpdateRule.trace := [] |}.

(** An optimizer before [setup]. *)
Definition optimizer_before_setup : Optimizer.st :=
  {| Optimizer.w := {| Optimizer.opt := Optimizer.new; Optimizer.heap := ∅ |};
     Optimizer.trace := [] |}.

(** The target of the examples with the rule of [/b] disabled, and an
    optimizer on it without hooks. *)
Definition frozen_b : Link.slot :=
  {| Link.param := param_b;
     Link.update_rule := Some (UpdateRule.set_enabled false (UpdateRule.__init__ "SGD")) |}.
Definition target_frozen_b : Link.link :=
  [slot_of {| name := "/W"; data := Some example_data; grad := Some example_grad |};
   frozen_b].
Definition optimizer_frozen_b : Optimizer.st :=
  {| Optimizer.w :=
       {| Optimizer.opt :=
            Optimizer.set_hooks []
              (Optimizer.set_epoch 0
                 (Optimizer.set_t 0 (Optimizer.set_target target_frozen_b Optimizer.new)));
          Optimizer.heap := ∅ |};
     Optimizer.trace := [] |}.

(** Two arrays to accumulate, the first of them on device 0. *)
Definition accumulated_sources : list ndarray :=
  [to_gpu 0 example_grad; example_grad].

(** * Properties *)

(** A property kept by every turn of a loop is kept by the loop, however
    it ends. *)
Lemma for_each_inv {S A} (P : S -> Prop) (l : list A) (body : A -> M S unit) :
  (forall x s, P s -> P (body x s).1) ->
  forall s, P s -> P (for_each l body s).1.
Proof.
  intros Hbody. induction l as [|x l IH]; intros s Hs; simpl; [done|].
  unfold bind. specialize (Hbody x s Hs).
  destruct (body x s) as [s' [[]|e]]; simpl in *; [by apply IH | done].
Qed.

(** ** Hyperparameter.get_dict *)

Section HyperparameterFacts.
Import Hyperparameter.






End HyperparameterFacts.





(** ** Hooks of update rules and optimizers *)

Lemma hooks_contains_true name (hooks : hooks_dict) :
  name ∈ hooks.*1 -> hooks_contains name hooks = true.
Proof. intros H. unfold hooks_contains. by apply bool_decide_eq_true. Qed.

Lemma hooks_contains_false name (hooks : hooks_dict) :
  name ∉ hooks.*1 -> hooks_contains name hooks = false.
Proof. intros H. unfold hooks_contains. by apply bool_decide_eq_false. Qed.

(** C7.  [add_hook] of an update rule and [add_hook] of an optimizer, given
    a callable hook whose registration name (the explicit [name], else the
    default name of the hook) is already a key of the hook mapping, raise
    the "already exists" error and leave the object as it was, whatever the
    hook object is. *)
Theorem add_hook_duplicate_name :
  (forall (hook : pyobject) (name : option string) (n : string)
          (self : UpdateRule.rule),
      callable hook = true ->
      name = Some n \/ (name = None /\ UpdateRule.default_name hook = Some n) ->
      n ∈ (UpdateRule._hooks self).*1 ->
      UpdateRule.add_hook hook name self =
        (self, Raise (ValueError (UpdateRule.hook_exists_msg n)))) /\
  (forall (hook : pyobject) (name : option string) (n : string)
          (self : Optimizer.optimizer) (hooks : hooks_dict),
      callable hook = true ->
      Optimizer._hooks self = Some hooks ->
      name = Some n \/ (name = None /\ attr_name hook = Some n) ->
      n ∈ hooks.*1 ->
      Optimizer.add_hook hook name self =
        (self, Raise (KeyError (Optimizer.hook_exists_msg n)))).
Proof.
  split.
  - intros hook name n self Hc Hname Hin.
    unfold UpdateRule.add_hook. rewrite Hc. simpl.
    destruct Hname as [-> | [-> Hd]]; [|rewrite Hd];
      unfold bind, ret, get; simpl;
      by rewrite (hooks_contains_true _ _ Hin).
  - intros hook name n self hooks Hc Hh Hname Hin.
    unfold Optimizer.add_hook. rewrite Hc. simpl.
    unfold bind, get. simpl. rewrite Hh.
    destruct Hname as [-> | [-> Hd]]; [|rewrite Hd];
      unfold ret; simpl;
      by rewrite (hooks_contains_true _ _ Hin).
Qed.

Lemma add_hook_duplicate_name_witness :
  UpdateRule.add_hook hook_decay' None rule_with_decay =
    (rule_with_decay, Raise (ValueError (UpdateRule.hook_exists_msg "WeightDecay"))) /\
  Optimizer.add_hook fn_clip (Some "WeightDecay") optimizer_with_decay =
    (optimizer_with_decay, Raise (KeyError (Optimizer.hook_exists_msg "WeightDecay"))).
Proof.
  split.
  - apply (proj1 add_hook_duplicate_name hook_decay' None "WeightDecay").
    + reflexivity.
    + right. split; reflexivity.
    + simpl. apply list_elem_of_here.
  - apply (proj2 add_hook_duplicate_name fn_clip (Some "WeightDecay") "WeightDecay"
             optimizer_with_decay [("WeightDecay", hook_decay)]).
    + reflexivity.
    + reflexivity.
    + left. reflexivity.
    + simpl. apply list_elem_of_here.
Defined.

(** C9 (amended).  [UpdateRule.add_hook] called without [name] on a
    callable hook that has no [name] attribute: when the hook has a
    [__name__] that is a string, that string is the registration key: if
    it is not registered yet, the call returns and the hook mapping of the
    rule is the former one with the hook appended under that key, nothing
    else of the rule being changed, and if it is registered the call
    raises for that key.  The call raises the missing-name error exactly
    when the hook has no [__name__] or its [__name__] is [None]. *)
Theorem UpdateRule_add_hook_name_fallback
    (hook : pyobject) (self : UpdateRule.rule) :
  callable hook = true ->
  attr_name hook = None ->
  (forall n, attr___name__ hook = Some (NameStr n) ->
     (n ∉ (UpdateRule._hooks self).*1 ->
      let after := (UpdateRule.add_hook hook None self).1 in
      (UpdateRule.add_hook hook None self).2 = Ret tt /\
      UpdateRule._hooks after = UpdateRule._hooks self ++ [(n, hook)] /\
      UpdateRule._state after = UpdateRule._state self /\
      UpdateRule.enabled after = UpdateRule.enabled self /\
      UpdateRule.t after = UpdateRule.t self /\
      UpdateRule.cls after = UpdateRule.cls self) /\
     (n ∈ (UpdateRule._hooks self).*1 ->
      UpdateRule.add_hook hook None self =
        (self, Raise (ValueError (UpdateRule.hook_exists_msg n))))) /\
  (UpdateRule.add_hook hook None self =
     (self, Raise (ValueError "the name of the hook function is not specified"))
   <-> attr___name__ hook = None \/ attr___name__ hook = Some NameNone).
Proof.
  intros Hc Hname.
  unfold UpdateRule.add_hook, UpdateRule.default_name, getattr_name,
    getattr___name__.
  rewrite Hc, Hname. simpl. split.
  - intros n Hn. rewrite Hn. unfold bind, ret, get, put, raise. simpl. split.
    + intros Hfresh. by rewrite (hooks_contains_false _ _ Hfresh).
    + intros Hin. by rewrite (hooks_contains_true _ _ Hin).
  - destruct (attr___name__ hook) as [[n|]|];
      unfold bind, ret, get, put, raise; simpl.
    + split; [|by intros [?|?]].
      destruct (hooks_contains n (UpdateRule._hooks self)); intros H; inversion H.
    + split; [by right|done].
    + split; [by left|done].
Qed.

Lemma UpdateRule_add_hook_name_fallback_witness :
  UpdateRule._hooks (UpdateRule.add_hook fn_clip None rule_with_decay).1 =
    [("WeightDecay", hook_decay); ("clip", fn_clip)] /\
  (UpdateRule.add_hook fn_clip None rule_with_decay).2 = Ret tt /\
  UpdateRule.add_hook anonymous_callable None rule_with_decay =
    (rule_with_decay,
     Raise (ValueError "the name of the hook function is not specified")).
Proof.
  destruct (UpdateRule_add_hook_name_fallback fn_clip rule_with_decay
              eq_refl eq_refl) as [Hkey _].
  destruct (proj1 (Hkey "clip" eq_refl)) as (Hret & Hhooks & _).
  { vm_compute. intros H. by repeat (apply elem_of_cons in H as [H|H]; [done|]);
      apply elem_of_nil in H. }
  split; [exact Hhooks|]. split; [exact Hret|].
  apply (proj2 (UpdateRule_add_hook_name_fallback anonymous_callable
                  rule_with_decay eq_refl eq_refl)).
  by left.
Defined.

(** C9, as stated, fails: a callable object whose [__name__] is [None] has
    the attribute [__name__] and no attribute [name], and [add_hook]
    raises the missing-name error for it all the same. *)
Lemma UpdateRule_add_hook_name_fallback_counterexample :
  callable unnamed_callable = true /\
  attr_name unnamed_callable = None /\
  attr___name__ unnamed_callable <> None /\
  UpdateRule.add_hook unnamed_callable None rule_with_decay =
    (rule_with_decay,
     Raise (ValueError "the name of the hook function is not specified")).
Proof. repeat split. done. Qed.

(** ** Optimizer.setup *)

Section SetupFacts.
Import Optimizer.
Context {ext : GradientMethod.External}.

Lemma put_slot_reset (i : nat) (slot : Link.slot) (s : st) :
  is_reset s -> is_reset (GradientMethod.put_slot i slot s).1.
Proof.
  intros (Ht & He & Hh & [l Hl]).
  unfold GradientMethod.put_slot, GradientMethod.put_target,
    GradientMethod.get_target, bind, get, modify, ret. simpl.
  rewrite Hl. simpl. by repeat split.
Qed.

(** [GradientMethod.setup] runs [Optimizer.setup] and then only rebinds
    parameters of the target. *)
Lemma GradientMethod_setup_reset (l : Link.link) (s : st) :
  is_reset (GradientMethod.setup (IsLink l) s).1.
Proof.
  unfold GradientMethod.setup. unfold bind at 1. simpl.
  unfold bind at 1. unfold GradientMethod.get_target at 1.
  unfold bind at 1. unfold get, ret. simpl.
  apply for_each_inv; [|by repeat split].
  intros i s' Hs'. unfold bind at 1.
  unfold GradientMethod.get_slot, bind at 1.
  unfold GradientMethod.get_target, bind, get, ret. simpl.
  destruct (target (opt (w s'))) as [l'|] eqn:Hl'; simpl; [|done].
  destruct (l' !! i) as [slot|]; simpl; [|done].
  destruct (GradientMethod.setup_update_rule slot) as [slot' r].
  pose proof (put_slot_reset i slot' s' Hs') as Hput.
  unfold bind. by destruct (GradientMethod.put_slot i slot' s') as [s'' [[]|e]].
Qed.

End SetupFacts.

(** C8.  [Optimizer.setup] on a link stores the link as target, sets [t]
    and [epoch] to 0 and the hook mapping to the empty one, whatever the
    optimizer held before (so also after an earlier [setup] with another
    target); on an object that is not a link it raises [TypeError] and the
    optimizer is left as it was.  [GradientMethod.setup], which runs
    [Optimizer.setup] and then sets up the update rule of every parameter,
    leaves the same counters and hook mapping, and fails in the same way on
    an object that is not a link. *)
Theorem Optimizer_setup_resets (self : Optimizer.optimizer) :
  (forall l : Link.link,
     Optimizer.setup (Optimizer.IsLink l) self =
       ({| Optimizer.target := Some l;
           Optimizer.t := Some 0;
           Optimizer.epoch := Some 0;
           Optimizer._hooks := Some [];
           Optimizer._use_cleargrads := Optimizer._use_cleargrads self |},
        Ret tt)) /\
  (forall l1 l2 : Link.link,
     Optimizer.setup (Optimizer.IsLink l2)
       (Optimizer.setup (Optimizer.IsLink l1) self).1 =
       ({| Optimizer.target := Some l2;
           Optimizer.t := Some 0;
           Optimizer.epoch := Some 0;
           Optimizer._hooks := Some [];
           Optimizer._use_cleargrads := Optimizer._use_cleargrads self |},
        Ret tt)) /\
  (forall v : pyvalue,
     Optimizer.setup (Optimizer.NotLink v) self =
       (self, Raise (TypeError "optimization target must be a link"))) /\
  (forall (ext : GradientMethod.External) (l : Link.link)
          (heap : gmap loc (gmap string pyvalue)) (trace : list event),
     let s := {| Optimizer.w := {| Optimizer.opt := self; Optimizer.heap := heap |};
                 Optimizer.trace := trace |} in
     let s' := (GradientMethod.setup (Optimizer.IsLink l) s).1 in
     Optimizer.t (Optimizer.opt (Optimizer.w s')) = Some 0 /\
     Optimizer.epoch (Optimizer.opt (Optimizer.w s')) = Some 0 /\
     Optimizer._hooks (Optimizer.opt (Optimizer.w s')) = Some [] /\
     is_Some (Optimizer.target (Optimizer.opt (Optimizer.w s')))) /\
  (forall (ext : GradientMethod.External) (v : pyvalue)
          (heap : gmap loc (gmap string pyvalue)) (trace : list event),
     let s := {| Optimizer.w := {| Optimizer.opt := self; Optimizer.heap := heap |};
                 Optimizer.trace := trace |} in
     GradientMethod.setup (Optimizer.NotLink v) s =
       (s, Raise (TypeError "optimization target must be a link"))).
Proof.
  split; [|split; [|split; [|split]]].
  - intros l. reflexivity.
  - intros l1 l2. reflexivity.
  - intros v. reflexivity.
  - intros ext l heap trace s s'. apply GradientMethod_setup_reset.
  - intros ext v heap trace s. reflexivity.
Qed.

(** ** UpdateRule.update *)

(** An enabled rule counts the update, creates its state, calls its hooks
    and then the core update. *)
Example UpdateRule_update_enabled :
  let s' := (@UpdateRule.update sgd_external (example_rule_state example_rule)).1 in
  UpdateRule.t (UpdateRule.self (UpdateRule.w s')) = 1 /\
  UpdateRule._state (UpdateRule.self (UpdateRule.w s')) = Some 0%nat /\
  UpdateRule.heap (UpdateRule.w s') !! 0%nat =
    Some {[ "v" := PyArray (zeros_like example_data) ]} /\
  UpdateRule.trace s' = [CallInitState; CallRuleHook "clip"; CallUpdateCoreCpu].
Proof. repeat split. Qed.

(** C3.  [UpdateRule.update] on a rule whose [enabled] is [False] returns
    at once: the rule (its state, [None] or not, its hooks, its [t]), the
    parameter, the state dictionaries and the trace of outside calls (no
    hook, no [init_state], no core update is called) are what they were. *)
Theorem UpdateRule_update_disabled
    (ext : UpdateRule.External) (s : UpdateRule.st) :
  UpdateRule.enabled (UpdateRule.self (UpdateRule.w s)) = false ->
  UpdateRule.update s = (s, Ret tt).
Proof.
  intros Hdis. unfold UpdateRule.update, bind, get. simpl. by rewrite Hdis.
Qed.

Lemma UpdateRule_update_disabled_witness :
  @UpdateRule.update sgd_external
    (example_rule_state (UpdateRule.set_enabled false example_rule)) =
  (example_rule_state (UpdateRule.set_enabled false example_rule), Ret tt).
Proof.
  apply (UpdateRule_update_disabled sgd_external). reflexivity.
Defined.

(** ** UpdateRule.serialize *)

Section SerializeFacts.
Import UpdateRule.

(** Writing: every entry of the dictionary is stored, the dictionary
    keeps its values. *)
Lemma serialize_entries_writer (store d : gmap string pyvalue) :
  serialize_entries true (Writer store) d = (Writer (d ∪ store), d).
Proof.
  unfold serialize_entries.
  assert (forall d0 m : gmap string pyvalue,
    map_fold (fun key value (acc : Serializer * gmap string pyvalue) =>
                let '(s', v') := serializer_call acc.1 key value in
                (s', <[key := v']> acc.2)) (Writer store, d0) m =
    (Writer (m ∪ store), m ∪ d0)) as Hfold.
  { intros d0.
    apply (map_fold_weak_ind
             (fun r m => r = (Writer (m ∪ store), m ∪ d0))).
    - by rewrite !(left_id_L ∅ (∪)).
    - intros i x m r Hi ->. simpl. by rewrite !insert_union_l. }
  by rewrite Hfold, (idemp_L (∪) d).
Qed.

(** Reading: every key of the dictionary is bound to what the
    deserializer returns; the deserializer is not changed. *)
Lemma serialize_entries_reader (b : bool) (store d : gmap string pyvalue) :
  serialize_entries b (Deserializer store) d =
    (Deserializer store, map_imap (fun k v => Some (loaded store b k v)) d).
Proof.
  unfold serialize_entries.
  assert (forall d0 m : gmap string pyvalue,
    map_fold (fun key value (acc : Serializer * gmap string pyvalue) =>
                let '(s', v') :=
                  serializer_call acc.1 key (if b then value else PyNone) in
                (s', <[key := v']> acc.2)) (Deserializer store, d0) m =
    (Deserializer store,
     map_imap (fun k v => Some (loaded store b k v)) m ∪ d0)) as Hfold.
  { intros d0.
    apply (map_fold_weak_ind
             (fun r m => r = (Deserializer store,
                              map_imap (fun k v => Some (loaded store b k v)) m ∪ d0))).
    - by rewrite map_imap_empty, (left_id_L ∅ (∪)).
    - intros i x m r Hi ->. simpl.
      rewrite (map_imap_insert_Some _ i x m (loaded store b i x)) by done.
      by rewrite insert_union_l. }
  rewrite Hfold. f_equal. apply map_eq. intros k.
  rewrite lookup_union, map_lookup_imap.
  by destruct (d !! k).
Qed.

Lemma serialize_state_eq (b : bool) (serializer : Serializer) (l : loc) (s : st) :
  serialize_state b serializer l s =
    match heap (w s) !! l with
    | None => (s, Raise (AttributeError "_state"))
    | Some d =>
        (on_world (fun w => set_heap
                    (<[l := (serialize_entries b serializer d).2]> (heap w)) w) s,
         Ret (serialize_entries b serializer d).1)
    end.
Proof.
  unfold serialize_state, bind, get. simpl.
  destruct (heap (w s) !! l) as [d|]; [|done].
  by destruct (serialize_entries b serializer d).
Qed.

(** [serialize] on a rule without state and a deserializer. *)
Lemma serialize_probe_eq {ext : External} (store : gmap string pyvalue) (s : st) :
  state (self (w s)) = None ->
  let l := fresh (dom (heap (w s))) in
  let s1 := on_world (fun w => set_self (set_state (Some l) (self w))
                                 (set_heap (<[l := ∅]> (heap w)) w)) s in
  serialize (Deserializer store) s =
    bind (init_state_on_copy placeholder)
         (fun _ => serialize_state false (Deserializer store) l) s1.
Proof.
  intros Hst l s1. unfold serialize at 1. unfold bind at 1. unfold get.
  rewrite Hst. simpl. reflexivity.
Qed.

End SerializeFacts.

(** C10 (amended).  [UpdateRule.serialize] changes neither [t] nor
    [enabled] nor the class of the rule, nor the parameter, for a writer
    and for a deserializer alike.  The hook mapping is as before too,
    except where a deserializer meets a rule without state: there
    [init_state] runs on a shallow copy of the rule, which shares the hook
    mapping, and the rule has afterwards the hooks that [init_state] left.
    What a writer has stored afterwards are the entries of the state
    dictionary on top of what it held before, so the counter [t] is not
    written; a deserializer is handed back as it was, and [t] is not read
    from it. *)
Theorem UpdateRule_serialize_frame
    (ext : UpdateRule.External) (serializer : Serializer) (s : UpdateRule.st) :
  let s' := (UpdateRule.serialize serializer s).1 in
  let r := (UpdateRule.serialize serializer s).2 in
  let l := fresh (dom (UpdateRule.heap (UpdateRule.w s))) in
  let probe :=
    UpdateRule.init_state
      {| UpdateRule.self :=
           UpdateRule.set_state (Some l) (UpdateRule.self (UpdateRule.w s));
         UpdateRule.param := UpdateRule.placeholder;
         UpdateRule.heap := <[l := ∅]> (UpdateRule.heap (UpdateRule.w s)) |} in
  UpdateRule.t (UpdateRule.self (UpdateRule.w s')) =
    UpdateRule.t (UpdateRule.self (UpdateRule.w s)) /\
  UpdateRule.enabled (UpdateRule.self (UpdateRule.w s')) =
    UpdateRule.enabled (UpdateRule.self (UpdateRule.w s)) /\
  UpdateRule.cls (UpdateRule.self (UpdateRule.w s')) =
    UpdateRule.cls (UpdateRule.self (UpdateRule.w s)) /\
  UpdateRule.param (UpdateRule.w s') = UpdateRule.param (UpdateRule.w s) /\
  UpdateRule._hooks (UpdateRule.self (UpdateRule.w s')) =
    match UpdateRule.state (UpdateRule.self (UpdateRule.w s)), serializer with
    | None, Deserializer _ => UpdateRule._hooks (UpdateRule.self probe.1)
    | _, _ => UpdateRule._hooks (UpdateRule.self (UpdateRule.w s))
    end /\
  match r with
  | Raise _ => True
  | Ret serializer' =>
      match serializer with
      | Deserializer _ => serializer' = serializer
      | Writer store =>
          serializer' =
            Writer (match UpdateRule.state (UpdateRule.self (UpdateRule.w s)) with
                    | Some l => default ∅ (UpdateRule.heap (UpdateRule.w s) !! l) ∪ store
                    | None => store
                    end)
      end
  end.
Proof.
  destruct (UpdateRule.state (UpdateRule.self (UpdateRule.w s))) as [l|] eqn:Hst.
  - assert (UpdateRule.serialize serializer s =
            UpdateRule.serialize_state true serializer l s) as ->.
    { unfold UpdateRule.serialize, bind, get. simpl. by rewrite Hst. }
    rewrite serialize_state_eq.
    destruct (UpdateRule.heap (UpdateRule.w s) !! l) as [d|] eqn:Hd; simpl;
      [|done].
    repeat split. destruct serializer as [store|store].
    + by rewrite serialize_entries_writer.
    + by rewrite serialize_entries_reader.
  - destruct serializer as [store|store].
    + unfold UpdateRule.serialize, bind, get. simpl. rewrite Hst. simpl. done.
    + rewrite (serialize_probe_eq store s Hst).
      unfold bind at 1 2. unfold UpdateRule.init_state_on_copy. simpl.
      destruct (UpdateRule.init_state _) as [w' [[]|e]]; simpl; [|done].
      rewrite serialize_state_eq. simpl.
      destruct (_ !! _) as [d|]; simpl; [|done].
      repeat split. by rewrite serialize_entries_reader.
Qed.

(** C10, as stated, fails: the rule of [hooking_external] registers the
    hook [clip] in its [init_state].  [serialize] of a new rule of that
    class with a deserializer runs [init_state] on a copy of the rule, and
    the rule itself, which had no hook, has the hook afterwards. *)
Lemma UpdateRule_serialize_frame_counterexample :
  let s := example_rule_state (UpdateRule.__init__ "Hooking") in
  let s' := (@UpdateRule.serialize hooking_external (Deserializer ∅) s).1 in
  (@UpdateRule.serialize hooking_external (Deserializer ∅) s).2 =
    Ret (Deserializer ∅) /\
  UpdateRule._hooks (UpdateRule.self (UpdateRule.w s)) = [] /\
  UpdateRule._hooks (UpdateRule.self (UpdateRule.w s')) = [("clip", fn_clip)] /\
  UpdateRule._hooks (UpdateRule.self (UpdateRule.w s')) <>
    UpdateRule._hooks (UpdateRule.self (UpdateRule.w s)).
Proof. repeat split. done. Qed.

(** The state dictionary a rule holds, if any. *)
Lemma serialize_writer_eq (ext : UpdateRule.External)
    (store d : gmap string pyvalue) (l : loc) (s : UpdateRule.st) :
  UpdateRule.state (UpdateRule.self (UpdateRule.w s)) = Some l ->
  UpdateRule.heap (UpdateRule.w s) !! l = Some d ->
  UpdateRule.serialize (Writer store) s = (s, Ret (Writer (d ∪ store))).
Proof.
  intros Hst Hd.
  unfold UpdateRule.serialize, bind, get. simpl. rewrite Hst.
  rewrite serialize_state_eq, Hd, serialize_entries_writer. simpl.
  f_equal. destruct s as [[r p h] tr]. unfold UpdateRule.on_world. simpl in *.
  by rewrite insert_id.
Qed.

(** C4 (amended).  Take a rule whose state dictionary [d] has exactly the
    keys that [init_state] of its class creates, in the state dictionary of
    the rule it is called on, for the one-element placeholder parameter.
    [serialize] with a writer leaves the rule as it is and stores [d];
    [serialize] of a newly constructed rule of the same class with a
    deserializer over what was written creates a state dictionary, lets
    [init_state] of a copy of the rule fill in the keys, and ends with a
    state dictionary equal to [d]. *)
Theorem UpdateRule_serialize_roundtrip
    (ext : UpdateRule.External) (s0 s1 : UpdateRule.st) (l0 : loc)
    (d store0 : gmap string pyvalue) :
  UpdateRule.state (UpdateRule.self (UpdateRule.w s0)) = Some l0 ->
  UpdateRule.heap (UpdateRule.w s0) !! l0 = Some d ->
  UpdateRule.self (UpdateRule.w s1) =
    UpdateRule.__init__ (UpdateRule.cls (UpdateRule.self (UpdateRule.w s0))) ->
  let l := fresh (dom (UpdateRule.heap (UpdateRule.w s1))) in
  let probe :=
    UpdateRule.init_state
      {| UpdateRule.self :=
           UpdateRule.set_state (Some l) (UpdateRule.self (UpdateRule.w s1));
         UpdateRule.param := UpdateRule.placeholder;
         UpdateRule.heap := <[l := ∅]> (UpdateRule.heap (UpdateRule.w s1)) |} in
  probe.2 = Ret tt ->
  dom <$> (UpdateRule.heap probe.1 !! l) = Some (dom d) ->
  let written := (UpdateRule.serialize (Writer store0) s0).2 in
  let restored := UpdateRule.serialize (Deserializer (d ∪ store0)) s1 in
  UpdateRule.serialize (Writer store0) s0 = (s0, written) /\
  written = Ret (Writer (d ∪ store0)) /\
  restored.2 = Ret (Deserializer (d ∪ store0)) /\
  UpdateRule.state (UpdateRule.self (UpdateRule.w restored.1)) = Some l /\
  UpdateRule.heap (UpdateRule.w restored.1) !! l = Some d /\
  UpdateRule.trace restored.1 = UpdateRule.trace s1 ++ [CallInitState].
Proof.
  intros Hst0 Hd0 Hfresh l probe Hret Hkeys written restored.
  assert (UpdateRule.serialize (Writer store0) s0 =
          (s0, Ret (Writer (d ∪ store0)))) as Hwritten
    by (by apply (serialize_writer_eq ext store0 d l0)).
  split; [subst written; by rewrite Hwritten|].
  split; [subst written; by rewrite Hwritten|].
  assert (UpdateRule.state (UpdateRule.self (UpdateRule.w s1)) = None) as Hst1.
  { by rewrite Hfresh. }
  destruct probe as [w' r] eqn:Hprobe. simpl in Hret, Hkeys. subst r.
  destruct (UpdateRule.heap w' !! l) as [keys|] eqn:Hw'; [|done].
  simpl in Hkeys. injection Hkeys as Hdom.
  assert (restored =
          ({| UpdateRule.w :=
                {| UpdateRule.self :=
                     UpdateRule.set_hooks (UpdateRule._hooks (UpdateRule.self w'))
                       (UpdateRule.set_state (Some l)
                          (UpdateRule.self (UpdateRule.w s1)));
                   UpdateRule.param := UpdateRule.param (UpdateRule.w s1);
                   UpdateRule.heap :=
                     <[l := map_imap
                              (fun k v => Some (loaded (d ∪ store0) false k v)) keys]>
                       (UpdateRule.heap w') |};
              UpdateRule.trace := UpdateRule.trace s1 ++ [CallInitState] |},
           Ret (Deserializer (d ∪ store0)))) as ->.
  { subst restored. rewrite (serialize_probe_eq _ s1 Hst1).
    unfold bind, UpdateRule.init_state_on_copy. simpl.
    fold l. subst probe. rewrite Hprobe.
    rewrite serialize_state_eq. simpl. rewrite Hw'.
    by rewrite serialize_entries_reader. }
  simpl. repeat split. rewrite lookup_insert_eq. f_equal.
  apply map_eq. intros k. rewrite map_lookup_imap.
  destruct (keys !! k) as [v|] eqn:Hk; simpl.
  - assert (k ∈ dom d) as Hin by (rewrite <- Hdom; by apply elem_of_dom).
    apply elem_of_dom in Hin as [x Hx]. unfold loaded. simpl.
    by rewrite (lookup_union_Some_l _ _ _ _ Hx), Hx.
  - symmetry. apply not_elem_of_dom. rewrite <- Hdom. by apply not_elem_of_dom.
Qed.

Lemma UpdateRule_serialize_roundtrip_witness :
  let d : gmap string pyvalue := {[ "v" := PyArray (zeros_like example_data) ]} in
  let restored :=
    @UpdateRule.serialize sgd_external (Deserializer (d ∪ ∅))
      (example_rule_state (UpdateRule.__init__ "SGD")) in
  UpdateRule.heap (UpdateRule.w sgd_updated) !! 0%nat = Some d /\
  UpdateRule.heap (UpdateRule.w restored.1) !! 0%nat = Some d.
Proof.
  intros d restored. split; [reflexivity|].
  apply (UpdateRule_serialize_roundtrip sgd_external sgd_updated
           (example_rule_state (UpdateRule.__init__ "SGD")) 0%nat d ∅);
    reflexivity.
Defined.

(** C4, as stated, fails: the rule of [lazy_external] creates its state
    entry [n] in the core update, not in [init_state].  After one update
    its state is [{n: 1}]; the writer stores it; a new rule of the same
    class that deserializes what was written ends with an empty state. *)
Lemma UpdateRule_serialize_roundtrip_counterexample :
  let original := UpdateRule.heap (UpdateRule.w lazy_updated) !! 0%nat in
  let written := (@UpdateRule.serialize lazy_external (Writer ∅) lazy_updated).2 in
  let restored :=
    (@UpdateRule.serialize lazy_external (Deserializer {[ "n" := PyInt 1 ]})
       (example_rule_state (UpdateRule.__init__ "Lazy"))).1 in
  UpdateRule.state (UpdateRule.self (UpdateRule.w lazy_updated)) = Some 0%nat /\
  original = Some {[ "n" := PyInt 1 ]} /\
  written = Ret (Writer {[ "n" := PyInt 1 ]}) /\
  UpdateRule.state (UpdateRule.self (UpdateRule.w restored)) = Some 0%nat /\
  UpdateRule.heap (UpdateRule.w restored) !! 0%nat = Some ∅ /\
  UpdateRule.heap (UpdateRule.w restored) !! 0%nat <> original.
Proof.
  repeat split; try reflexivity.
  vm_compute. discriminate.
Qed.

(** ** GradientMethod.update *)

(** One update of [example_target] without loss function. *)
Example GradientMethod_update_example :
  let s' := (@GradientMethod.update example_method None [] (optimizer_on example_target)).1 in
  Optimizer.t (Optimizer.opt (Optimizer.w s')) = Some 1 /\
  Optimizer.trace s' =
    [CallOptimizerHook "clip";
     CallInitState; CallUpdateCoreCpu; CallInitState; CallUpdateCoreCpu].
Proof. split; reflexivity. Qed.

(** C1 (amended).  [GradientMethod.update] with a loss function starts with
    the gradient block, and in that block the loss function is called
    first, on the world as [update] found it; then the gradients of the
    target, as the loss function left it, are cleared ([cleargrads] or
    [zerograds], by the flag read before the loss function was called);
    then [backward] of the loss runs on the cleared target.  The loss is a
    local of the block and not part of the state that results. *)
Theorem GradientMethod_update_order
    (ext : GradientMethod.External) (lossfun : GradientMethod.lossfun_t)
    (args : list pyvalue) (s : Optimizer.st)
    (w1 : Optimizer.world) (loss : GradientMethod.loss) (l : Link.link) :
  lossfun args (Optimizer.w s) = (w1, Ret loss) ->
  Optimizer.target (Optimizer.opt w1) = Some l ->
  let use_cleargrads :=
    default false (Optimizer._use_cleargrads (Optimizer.opt (Optimizer.w s))) in
  let clear_event := if use_cleargrads then CallCleargrads else CallZerograds in
  let cleared := if use_cleargrads then Link.cleargrads l else Link.zerograds l in
  let after_backward :=
    GradientMethod.backward loss
      (Optimizer.set_opt (Optimizer.set_target cleared (Optimizer.opt w1)) w1) in
  GradientMethod.compute_gradients lossfun args s =
    ({| Optimizer.w := after_backward.1;
        Optimizer.trace :=
          Optimizer.trace s ++ [CallLossfun; clear_event; CallBackward] |},
     after_backward.2) /\
  GradientMethod.update (Some lossfun) args s =
    match GradientMethod.compute_gradients lossfun args s with
    | (s', Ret _) =>
        bind GradientMethod.fill_absent_grads
             (fun _ => GradientMethod.update_parameters) s'
    | (s', Raise e) => (s', Raise e)
    end.
Proof.
  intros Hloss Htarget use_cleargrads clear_event cleared after_backward.
  split.
  - unfold GradientMethod.compute_gradients, GradientMethod.call_lossfun.
    unfold bind at 1 2. unfold get. simpl. rewrite Hloss.
    fold use_cleargrads. subst clear_event cleared after_backward.
    destruct use_cleargrads;
      unfold GradientMethod.target_cleargrads, GradientMethod.target_zerograds,
        GradientMethod.get_target, GradientMethod.put_target, Optimizer.call,
        bind, get, modify, ret; simpl; rewrite Htarget; simpl;
      unfold Optimizer.on_opt; simpl;
      destruct (GradientMethod.backward loss _) as [w2 r]; simpl;
      by rewrite <- !app_assoc.
  - unfold GradientMethod.update, GradientMethod.update_gradients.
    unfold bind at 1 2.
    by destruct (GradientMethod.compute_gradients lossfun args s) as [s' [[]|e]].
Qed.

Lemma GradientMethod_update_order_witness :
  Optimizer.trace
    (GradientMethod.compute_gradients example_lossfun []
       (optimizer_on example_target)).1 =
  [CallLossfun; CallZerograds; CallBackward].
Proof.
  set (s := optimizer_on example_target).
  set (w1 := (example_lossfun [] (Optimizer.w s)).1).
  set (l := default [] (Optimizer.target (Optimizer.opt w1))).
  rewrite (proj1 (GradientMethod_update_order example_method example_lossfun []
                    s w1 example_loss l eq_refl eq_refl)).
  reflexivity.
Defined.

(** C1, as stated, fails: the gradients are not cleared before the loss
    function is called.  In the run below the calls are made in the order
    loss function, [zerograds], [backward], and the gradient that the loss
    function left on the parameters is wiped before [backward] runs, where
    the order of the claim would keep it. *)
Lemma GradientMethod_update_order_counterexample :
  let s := optimizer_on example_target in
  let code := (GradientMethod.compute_gradients example_lossfun [] s).1 in
  let claimed :=
    (GradientMethod.spec_compute_gradients example_lossfun [] s).1 in
  Optimizer.trace code = [CallLossfun; CallZerograds; CallBackward] /\
  Optimizer.trace claimed = [CallZerograds; CallLossfun; CallBackward] /\
  take 3 (Optimizer.trace
            (@GradientMethod.update example_method (Some example_lossfun) [] s).1) =
    [CallLossfun; CallZerograds; CallBackward] /\
  (grad ∘ Link.param) <$> default [] (Optimizer.target (Optimizer.opt (Optimizer.w code))) =
    [Some (add_arrays (zeros_like nines) example_grad);
     Some (add_arrays (zeros_like nines) example_grad)] /\
  (grad ∘ Link.param) <$> default [] (Optimizer.target (Optimizer.opt (Optimizer.w claimed))) =
    [Some (add_arrays nines example_grad); Some (add_arrays nines example_grad)] /\
  Optimizer.w code <> Optimizer.w claimed.
Proof.
  repeat split; try reflexivity.
  intros H.
  apply (f_equal (fun w =>
           (fun s => elems <$> grad (Link.param s)) <$>
             default [] (Optimizer.target (Optimizer.opt w)))) in H.
  cbv -[Rplus IZR] in H. injection H as H1 H2. lra.
Qed.

Section GradientMethodFacts.
Import Optimizer GradientMethod.

Lemma elem_of_namedparams (b : bool) (l : Link.link) (n : string) (i : nat) :
  (n, i) ∈ Link.namedparams b l <->
  exists slot, l !! i = Some slot /\ (b || Link.initialized slot) = true /\
               n = name (Link.param slot).
Proof.
  unfold Link.namedparams. rewrite list_elem_of_omap. split.
  - intros [[j slot] [Hin Hf]].
    apply elem_of_lookup_imap in Hin as (j' & slot' & Heq & Hl).
    simplify_eq. exists slot'.
    destruct (b || Link.initialized slot'); simplify_eq. done.
  - intros (slot & Hl & Hb & ->). exists (i, slot). split.
    + apply elem_of_lookup_imap. eauto.
    + by rewrite Hb.
Qed.

Lemma filled_idemp slot : filled (filled slot) = filled slot.
Proof.
  unfold filled. destruct slot as [[n [d|] [g|]] r]; simpl; done.
Qed.

Lemma filled_initialized slot :
  Link.initialized (filled slot) = Link.initialized slot.
Proof.
  unfold filled, Link.initialized.
  destruct slot as [[n [d|] [g|]] r]; simpl; done.
Qed.

Lemma filled_uninitialized slot :
  Link.initialized slot = false -> filled slot = slot.
Proof.
  unfold filled, Link.initialized.
  destruct slot as [[n [d|] [g|]] r]; simpl; done.
Qed.

Lemma on_opt_set_target_id (s : st) (l : Link.link) :
  target (opt (w s)) = Some l -> on_opt (set_target l) s = s.
Proof.
  destruct s as [[[tg t0 ep hk uc] h] tr]. simpl. intros ->. reflexivity.
Qed.

Lemma on_opt_set_target_twice (s : st) (l1 l2 : Link.link) :
  on_opt (set_target l2) (on_opt (set_target l1) s) = on_opt (set_target l2) s.
Proof. reflexivity. Qed.

Lemma get_target_eq (s : st) (l : Link.link) :
  target (opt (w s)) = Some l -> get_target s = (s, Ret l).
Proof. intros Ht. unfold get_target, bind, get, ret. simpl. by rewrite Ht. Qed.

(** One turn of the loop of [fill_absent_grads]. *)
Lemma fill_absent_grad_eq (s : st) (l0 : Link.link) (n : string) (i : nat)
    (slot : Link.slot) :
  target (opt (w s)) = Some l0 ->
  l0 !! i = Some slot ->
  Link.initialized slot = true ->
  fill_absent_grad (n, i) s =
    (on_opt (set_target (<[i := filled slot]> l0)) s, Ret tt).
Proof.
  intros Ht Hi Hinit.
  unfold fill_absent_grad, bind, get_slot, get_target, put_slot, put_target,
    bind, get, ret, modify. simpl. rewrite Ht. simpl. rewrite Hi.
  unfold filled, Link.initialized in *.
  destruct (data (Link.param slot)) as [d|] eqn:Hd; [|done].
  destruct (grad (Link.param slot)) as [g|] eqn:Hg; simpl.
  - rewrite list_insert_id by done. by rewrite on_opt_set_target_id.
  - by rewrite (get_target_eq s l0 Ht).
Qed.

Lemma fill_loop (idx : list (string * nat)) :
  forall (s : st) (l0 : Link.link),
    target (opt (w s)) = Some l0 ->
    (forall n i, (n, i) ∈ idx ->
       exists slot, l0 !! i = Some slot /\ Link.initialized slot = true) ->
    exists l',
      for_each idx fill_absent_grad s = (on_opt (set_target l') s, Ret tt) /\
      forall j, l' !! j =
                if decide (j ∈ idx.*2) then filled <$> l0 !! j else l0 !! j.
Proof.
  induction idx as [|[n i] idx IH]; intros s l0 Ht Hidx.
  - exists l0. split; [simpl; by rewrite on_opt_set_target_id|].
    intros j. destruct (decide (j ∈ ([] : list (string * nat)).*2)) as [Hj|];
      [inversion Hj | done].
  - destruct (Hidx n i) as (slot & Hi & Hinit); [apply list_elem_of_here|].
    cbn [for_each]. unfold bind at 1.
    rewrite (fill_absent_grad_eq s l0 n i slot Ht Hi Hinit).
    set (l1 := <[i := filled slot]> l0).
    destruct (IH (on_opt (set_target l1) s) l1) as (l' & Hrun & Hl').
    { reflexivity. }
    { intros n' j Hin.
      destruct (Hidx n' j) as (slot' & Hj & Hinit');
        [by apply list_elem_of_further|].
      destruct (decide (i = j)) as [->|Hne].
      - exists (filled slot). split.
        + unfold l1. apply list_lookup_insert_eq. by eapply lookup_lt_Some.
        + by rewrite filled_initialized.
      - exists slot'. split; [|done].
        unfold l1. by rewrite list_lookup_insert_ne. }
    exists l'. split; [by rewrite Hrun|].
    intros j. rewrite Hl'. unfold l1.
    destruct (decide (i = j)) as [->|Hne].
    + rewrite list_lookup_insert_eq by (by eapply lookup_lt_Some).
      rewrite Hi.
      assert (j ∈ ((n, j) :: idx).*2) as Hin by (simpl; apply list_elem_of_here).
      destruct (decide (j ∈ ((n, j) :: idx).*2)); [|done].
      destruct (decide (j ∈ idx.*2)); simpl; by rewrite ?filled_idemp.
    + rewrite list_lookup_insert_ne by done.
      destruct (decide (j ∈ idx.*2)) as [Hj|Hj];
        destruct (decide (j ∈ ((n, i) :: idx).*2)) as [Hj'|Hj']; try done.
      * exfalso. apply Hj'. simpl. by apply list_elem_of_further.
      * exfalso. simpl in Hj'. apply elem_of_cons in Hj' as [?|?]; [by subst|done].
Qed.

(** The loop over [namedparams(False)] as a whole. *)
Lemma fill_absent_grads_eq (s : st) (l : Link.link) :
  target (opt (w s)) = Some l ->
  fill_absent_grads s = (on_opt (set_target (map filled l)) s, Ret tt).
Proof.
  intros Ht. unfold fill_absent_grads. unfold bind at 1.
  unfold get_target at 1. unfold bind at 1. unfold get. simpl. rewrite Ht.
  unfold ret at 1.
  destruct (fill_loop (Link.namedparams false l) s l Ht) as (l' & Hrun & Hl').
  { intros n i Hin. apply elem_of_namedparams in Hin as (slot & ? & ? & ?).
    eauto. }
  rewrite Hrun. do 2 f_equal. f_equal. apply list_eq. intros j.
  rewrite Hl', list_lookup_fmap.
  case_decide as Hj; [done|].
  destruct (l !! j) as [slot|] eqn:Hlj; [|done]. simpl. f_equal.
  symmetry. apply filled_uninitialized.
  destruct (Link.initialized slot) eqn:Hinit; [|done].
  exfalso. apply Hj. apply list_elem_of_fmap.
  exists (name (Link.param slot), j). split; [done|].
  apply elem_of_namedparams. eauto.
Qed.

End GradientMethodFacts.

Section GradientMethodCounter.
Import Optimizer GradientMethod.
Context {ext : GradientMethod.External}.

Lemma call_hooks_t (s : st) :
  (forall hook w, t (opt (call_hook hook w).1) = t (opt w)) ->
  t (opt (w (call_hooks s).1)) = t (opt (w s)).
Proof.
  intros Hhooks. unfold call_hooks, bind, get. simpl.
  destruct (_hooks (opt (w s))) as [hooks|]; [|done].
  apply (for_each_inv (fun s' => t (opt (w s')) = t (opt (w s)))); [|done].
  intros [name hook] s' Hs'. unfold call. simpl.
  specialize (Hhooks hook (w s')).
  destruct (call_hook hook (w s')) as [w' r]. simpl in *. congruence.
Qed.

Lemma put_slot_t (i : nat) (slot : Link.slot) (s : st) :
  t (opt (w (put_slot i slot s).1)) = t (opt (w s)).
Proof.
  unfold put_slot, put_target, get_target, bind, get, modify, ret. simpl.
  by destruct (target (opt (w s))).
Qed.

Lemma param_update_t (i : nat) (s : st) :
  t (opt (w (param_update i s).1)) = t (opt (w s)).
Proof.
  unfold param_update, bind at 1.
  unfold get_slot, bind at 1. unfold get_target, bind, get, ret. simpl.
  destruct (target (opt (w s))) as [l|] eqn:Ht; simpl; [|done].
  destruct (l !! i) as [slot|]; simpl; [|done].
  destruct (Link.update_rule slot) as [rule|]; simpl; [|done].
  destruct (UpdateRule.update _) as [rs r]. simpl.
  match goal with
  | |- context [put_slot ?j ?sl ?s0] => pose proof (put_slot_t j sl s0) as Hput
  end.
  destruct (put_slot _ _ _) as [s'' [[]|e]]; simpl in *; done.
Qed.

Lemma update_parameters_t (s : st) (n : Z) :
  (forall hook w, t (opt (call_hook hook w).1) = t (opt w)) ->
  t (opt (w s)) = Some n ->
  (call_hooks s).2 = Ret tt ->
  t (opt (w (update_parameters s).1)) = Some (n + 1).
Proof.
  intros Hhooks Hn Hret. unfold update_parameters. unfold bind at 1.
  pose proof (call_hooks_t s Hhooks) as Ht.
  destruct (call_hooks s) as [s1 r1]. simpl in *. subst r1.
  unfold bind at 1. unfold increment_t, bind at 1. unfold get. simpl.
  rewrite Ht, Hn. simpl. unfold put. unfold bind at 1.
  unfold get_target, bind, get. simpl.
  destruct (target (opt (w s1))) as [l|]; simpl; [|done].
  apply (for_each_inv (fun s' => t (opt (w s')) = Some (n + 1))); [|done].
  intros i s' Hs'. by rewrite param_update_t.
Qed.

End GradientMethodCounter.

Lemma zeros_like_spec (d : ndarray) :
  shape (zeros_like d) = shape d /\
  adtype (zeros_like d) = adtype d /\
  device (zeros_like d) = device d /\
  length (elems (zeros_like d)) = length (elems d) /\
  Forall (fun e => e = 0%R) (elems (zeros_like d)).
Proof.
  repeat split; simpl.
  - by rewrite length_map.
  - induction (elems d); simpl; constructor; done.
Qed.

(** C2 (amended).  Let the gradient block of [GradientMethod.update], when
    a loss function is given, return, and let [l] be the target then.  The
    hooks are called on the target [map filled l]: every parameter of [l]
    that [namedparams(False)] yields, that is every initialized parameter,
    and whose gradient is [None] has got [zeros_like] of its data, an array
    of zeros with the shape and the dtype of the data; the other parameters
    are as in [l]; so every initialized parameter has a gradient when the
    hooks are called, while a parameter without data keeps its absent
    gradient.  When the loss function, [backward] and the hooks leave the
    counter [t] alone and the hooks return, [t] is one more after
    [update] than before. *)
Theorem GradientMethod_update_fills_grads
    (ext : GradientMethod.External) (lossfun : option GradientMethod.lossfun_t)
    (args : list pyvalue) (s : Optimizer.st) (l : Link.link) :
  let after_loss :=
    match lossfun with
    | Some f => GradientMethod.compute_gradients f args s
    | None => (s, Ret tt)
    end in
  after_loss.2 = Ret tt ->
  Optimizer.target (Optimizer.opt (Optimizer.w after_loss.1)) = Some l ->
  let at_hooks :=
    Optimizer.on_opt (Optimizer.set_target (map GradientMethod.filled l))
                     after_loss.1 in
  GradientMethod.update_gradients lossfun args s = (at_hooks, Ret tt) /\
  GradientMethod.update lossfun args s = GradientMethod.update_parameters at_hooks /\
  (forall i slot d,
     l !! i = Some slot ->
     data (Link.param slot) = Some d ->
     grad (Link.param slot) = None ->
     map GradientMethod.filled l !! i =
       Some (Link.set_param (set_grad (Some (zeros_like d)) (Link.param slot)) slot) /\
     shape (zeros_like d) = shape d /\
     adtype (zeros_like d) = adtype d /\
     Forall (fun e => e = 0%R) (elems (zeros_like d))) /\
  (forall i slot,
     l !! i = Some slot ->
     data (Link.param slot) = None \/ is_Some (grad (Link.param slot)) ->
     map GradientMethod.filled l !! i = Some slot) /\
  (forall slot,
     slot ∈ map GradientMethod.filled l ->
     is_Some (data (Link.param slot)) ->
     is_Some (grad (Link.param slot))) /\
  (forall n,
     Optimizer.t (Optimizer.opt (Optimizer.w s)) = Some n ->
     Optimizer.t (Optimizer.opt (Optimizer.w after_loss.1)) = Some n ->
     (forall hook w,
        Optimizer.t (Optimizer.opt
          (@Optimizer.call_hook (@GradientMethod.optimizer_external ext) hook w).1) =
        Optimizer.t (Optimizer.opt w)) ->
     (@Optimizer.call_hooks (@GradientMethod.optimizer_external ext) at_hooks).2 =
       Ret tt ->
     Optimizer.t (Optimizer.opt (Optimizer.w (GradientMethod.update lossfun args s).1)) =
       Some (n + 1)).
Proof.
  intros after_loss Hret Htarget at_hooks.
  assert (GradientMethod.update_gradients lossfun args s = (at_hooks, Ret tt))
    as Hgrads.
  { unfold GradientMethod.update_gradients, bind.
    assert ((match lossfun with
             | Some f => GradientMethod.compute_gradients f args
             | None => ret tt
             end) s = after_loss) as -> by (by destruct lossfun).
    destruct after_loss as [s1 r1]. simpl in *. subst r1.
    by rewrite (fill_absent_grads_eq s1 l Htarget). }
  assert (GradientMethod.update lossfun args s =
          GradientMethod.update_parameters at_hooks) as Hupdate.
  { unfold GradientMethod.update, bind. by rewrite Hgrads. }
  split; [done|]. split; [done|]. split; [|split; [|split]].
  - intros i slot d Hi Hd Hg. split.
    + rewrite list_lookup_fmap, Hi. simpl. unfold GradientMethod.filled.
      by rewrite Hd, Hg.
    + pose proof (zeros_like_spec d). tauto.
  - intros i slot Hi Hcase. rewrite list_lookup_fmap, Hi. simpl. f_equal.
    unfold GradientMethod.filled.
    destruct Hcase as [-> | [g ->]]; [done|].
    by destruct (data (Link.param slot)).
  - intros slot Hin [d Hd].
    apply list_elem_of_fmap in Hin as (slot0 & -> & _).
    unfold GradientMethod.filled in *.
    destruct (data (Link.param slot0)) as [d0|] eqn:Hd0;
      destruct (grad (Link.param slot0)) as [g0|] eqn:Hg0; simpl in *;
      rewrite ?Hg0; eauto; congruence.
  - intros n Hn Hn' Hhooks Hcalled. rewrite Hupdate.
    by apply update_parameters_t.
Qed.

Lemma example_hooks_keep_t (hook : pyobject) (w : Optimizer.world) :
  Optimizer.t (Optimizer.opt
    (@Optimizer.call_hook (@GradientMethod.optimizer_external example_method) hook w).1) =
  Optimizer.t (Optimizer.opt w).
Proof.
  simpl. unfold example_optimizer_hook, zero_grads_hook.
  destruct (decide (obj_id hook = 1%nat)); [|done].
  by destruct (Optimizer.target (Optimizer.opt w)).
Defined.

Lemma GradientMethod_update_fills_grads_witness :
  let s := optimizer_on example_target in
  map GradientMethod.filled example_target !! 0%nat =
    Some (Link.set_param (set_grad (Some (zeros_like example_data)) param_W)
                         (slot_of param_W)) /\
  map GradientMethod.filled example_target !! 1%nat = Some (slot_of param_b) /\
  Optimizer.t (Optimizer.opt (Optimizer.w
    (@GradientMethod.update example_method None [] s).1)) = Some 1.
Proof.
  intros s.
  pose proof (GradientMethod_update_fills_grads example_method None [] s
                example_target eq_refl eq_refl) as (_ & _ & Hzero & Hkeep & _ & Ht).
  split; [|split].
  - exact (proj1 (Hzero 0%nat (slot_of param_W) example_data eq_refl eq_refl eq_refl)).
  - apply (Hkeep 1%nat (slot_of param_b) eq_refl). right. by eexists.
  - apply (Ht 0 eq_refl eq_refl example_hooks_keep_t eq_refl).
Defined.

(** C2, as stated, fails for a target with a parameter that is not
    initialized: [namedparams(False)] leaves it out, so its gradient is
    still absent when the hooks are called. *)
Lemma GradientMethod_update_fills_grads_counterexample :
  let run :=
    @GradientMethod.update_gradients None [] (optimizer_on example_target_uninit) in
  let target_at_hooks :=
    default [] (Optimizer.target (Optimizer.opt (Optimizer.w run.1))) in
  run.2 = Ret tt /\
  target_at_hooks !! 2%nat = Some (slot_of param_u) /\
  grad (Link.param (slot_of param_u)) = None /\
  ~ Forall (fun slot => is_Some (grad (Link.param slot))) target_at_hooks.
Proof.
  repeat split.
  intros H. apply (Forall_lookup_1 _ _ 2%nat (slot_of param_u)) in H; [|done].
  by destruct H.
Qed.

(** ** _sum_sqnorm and GradientClipping *)

Section SumSqnormFacts.
Local Open Scope R_scope.

Lemma sum_values_insert (m : gmap Z R) (k : Z) (v : R) :
  m !! k = None -> sum_values (<[k := v]> m) = sum_values m + v.
Proof.
  intros Hk. unfold sum_values.
  rewrite map_fold_insert_L; [done| |done].
  intros. lra.
Qed.

Lemma sum_values_add_to (m : gmap Z R) (k : Z) (s : R) :
  sum_values (add_to m k s) = sum_values m + s.
Proof.
  unfold add_to. destruct (m !! k) as [v|] eqn:Hk; simpl.
  - rewrite <- (insert_delete_eq m).
    rewrite <- (insert_delete_id m k v) at 2 by done.
    rewrite !sum_values_insert by apply lookup_delete_eq. lra.
  - rewrite sum_values_insert by done. lra.
Qed.

Lemma dot_self (x : list R) : dot x x = foldr Rplus 0 ((fun e => e * e) <$> x).
Proof.
  unfold dot. induction x as [|e x IH]; simpl; [done|]. by rewrite IH.
Qed.

Lemma foldr_Rplus_app (x y : list R) :
  foldr Rplus 0 (x ++ y) = foldr Rplus 0 x + foldr Rplus 0 y.
Proof. induction x as [|e x IH]; simpl; [lra|]. rewrite IH. lra. Qed.

Lemma sum_of_squares_cons (a : ndarray) (arr : list ndarray) :
  GradientClipping.sum_of_squares (a :: arr) =
    dot (elems a) (elems a) + GradientClipping.sum_of_squares arr.
Proof.
  unfold GradientClipping.sum_of_squares. simpl.
  by rewrite fmap_app, foldr_Rplus_app, dot_self.
Qed.

Lemma sum_of_squares_nonneg (arr : list ndarray) :
  0 <= GradientClipping.sum_of_squares arr.
Proof.
  unfold GradientClipping.sum_of_squares.
  induction (concat (elems <$> arr)) as [|e x IH]; simpl; [lra|].
  apply Rplus_le_le_0_compat; [|exact IH].
  pose proof (Rle_0_sqr e) as He. unfold Rsqr in He. lra.
Qed.

(** The per-device accumulation adds up to the sum of all squares. *)
Lemma sum_sqnorm_total (arr : list ndarray) :
  _sum_sqnorm arr = GradientClipping.sum_of_squares arr.
Proof.
  unfold _sum_sqnorm.
  assert (forall acc : gmap Z R,
    sum_values
      (foldl (fun sq_sum x => add_to sq_sum (get_device (Some x))
                                (dot (elems x) (elems x))) acc arr) =
    sum_values acc + GradientClipping.sum_of_squares arr) as Hacc.
  { induction arr as [|a arr IH]; intros acc; simpl.
    - unfold GradientClipping.sum_of_squares. simpl. lra.
    - rewrite IH, sum_values_add_to, sum_of_squares_cons. lra. }
  rewrite Hacc. unfold sum_values at 1. rewrite map_fold_empty. lra.
Qed.

Lemma true_div_pos (a b : R) : 0 < b -> true_div a b = Finite (a / b).
Proof.
  intros Hb. unfold true_div. destruct (Req_dec_T b 0); [lra|done].
Qed.

Lemma div_lt_one (a b : R) : 0 < b -> (a / b < 1 <-> a < b).
Proof.
  intros Hb.
  assert (a = a / b * b) as Ha by (field; lra).
  set (q := a / b) in *. clearbody q. subst a. split; intros H; nra.
Qed.

End SumSqnormFacts.

Section GradientClippingFacts.
Import Optimizer.

(** A loop that rewrites the slots at the listed positions, each once. *)
Lemma foldl_at_positions (f : Link.slot -> Link.slot) (idx : list nat) :
  NoDup idx ->
  forall (l0 : Link.link) (j : nat),
    foldl (fun l i => match l !! i with
                      | Some slot => <[i := f slot]> l
                      | None => l
                      end) l0 idx !! j =
    if decide (j ∈ idx) then f <$> l0 !! j else l0 !! j.
Proof.
  induction 1 as [|i idx Hi Hnd IH]; intros l0 j; simpl.
  - destruct (decide (j ∈ [])) as [Hj|]; [inversion Hj | done].
  - rewrite IH.
    destruct (decide (j = i)) as [->|Hne].
    + rewrite decide_False by done.
      rewrite (decide_True (P := i ∈ i :: idx)) by apply list_elem_of_here.
      destruct (l0 !! i) as [slot|] eqn:Hl; simpl.
      * apply list_lookup_insert_eq. by eapply lookup_lt_Some.
      * done.
    + assert (match l0 !! i with
              | Some slot => <[i := f slot]> l0
              | None => l0
              end !! j = l0 !! j) as ->.
      { destruct (l0 !! i); [|done]. by rewrite list_lookup_insert_ne. }
      destruct (decide (j ∈ idx)) as [Hj|Hj];
        destruct (decide (j ∈ i :: idx)) as [Hj'|Hj']; try done.
      * exfalso. apply Hj'. by apply list_elem_of_further.
      * exfalso. apply elem_of_cons in Hj' as [?|?]; done.
Qed.

Lemma namedparams_positions (b : bool) (l : Link.link) :
  forall h : nat -> nat,
    Inj (=) (=) h ->
    let named :=
      omap (fun '(i, s) =>
              if b || Link.initialized s then Some (name (Link.param s), i)
              else None)
           (imap (fun i s => (h i, s)) l) in
    NoDup named.*2 /\ forall j, j ∈ named.*2 -> exists i, j = h i.
Proof.
  induction l as [|s l IH]; intros h Hinj; simpl.
  - split; [constructor|]. intros j Hj. inversion Hj.
  - destruct (IH (h ∘ S)) as [Hnd Hrange].
    { intros x y Hxy. simpl in Hxy. apply Hinj in Hxy. lia. }
    assert (h 0%nat ∉
              (omap (fun '(i, s) =>
                       if b || Link.initialized s
                       then Some (name (Link.param s), i) else None)
                    (imap ((fun i s => (h i, s)) ∘ S) l)).*2) as Hfresh.
    { intros Hin. destruct (Hrange _ Hin) as [i Hi]. simpl in Hi.
      apply Hinj in Hi. lia. }
    destruct (b || Link.initialized s); simpl.
    + split; [by constructor|].
      intros j Hj. apply elem_of_cons in Hj as [->|Hj]; [by exists 0%nat|].
      destruct (Hrange j Hj) as [i ->]. by exists (S i).
    + split; [done|]. intros j Hj.
      destruct (Hrange j Hj) as [i ->]. by exists (S i).
Qed.

Lemma NoDup_params (b : bool) (l : Link.link) : NoDup (Link.params b l).
Proof.
  unfold Link.params, Link.namedparams.
  exact (proj1 (namedparams_positions b l (fun i => i) _)).
Qed.

Lemma elem_of_params (b : bool) (l : Link.link) (i : nat) :
  i ∈ Link.params b l <->
  exists slot, l !! i = Some slot /\ (b || Link.initialized slot) = true.
Proof.
  unfold Link.params. rewrite list_elem_of_fmap. split.
  - intros ([n j] & -> & Hin). apply elem_of_namedparams in Hin.
    destruct Hin as (slot & ? & ? & ?). eauto.
  - intros (slot & Hl & Hb). exists (name (Link.param slot), i).
    split; [done|]. apply elem_of_namedparams. eauto.
Qed.

Lemma scale_grads_map (rate : R) (l : Link.link) :
  GradientClipping.scale_grads rate l = map (GradientClipping.scaled rate) l.
Proof.
  unfold GradientClipping.scale_grads. apply list_eq. intros j.
  rewrite (foldl_at_positions
             (fun slot => Link.set_param
                (set_grad (GradientClipping.imul rate <$> grad (Link.param slot))
                          (Link.param slot)) slot))
    by apply NoDup_params.
  rewrite list_lookup_fmap. unfold GradientClipping.scaled.
  destruct (decide (j ∈ Link.params false l)) as [Hj|Hj].
  - apply elem_of_params in Hj as (slot & Hl & Hinit). simpl in Hinit.
    rewrite Hl. simpl. by rewrite Hinit.
  - destruct (l !! j) as [slot|] eqn:Hl; [|done]. simpl.
    destruct (Link.initialized slot) eqn:Hinit; [|done].
    exfalso. apply Hj. apply elem_of_params. eauto.
Qed.

(** Every parameter that the hooks visit has a gradient when the list of
    the gradients has no [None]. *)
Lemma grads_present (l : Link.link) (arr : list ndarray) :
  GradientClipping.grads l = Some <$> arr ->
  forall slot, slot ∈ l -> Link.initialized slot = true ->
    is_Some (grad (Link.param slot)).
Proof.
  intros Hgrads slot Hin Hinit.
  apply list_elem_of_lookup_1 in Hin as [i Hi].
  assert (i ∈ Link.params false l) as Hparams.
  { apply elem_of_params. exists slot. by rewrite Hinit. }
  apply list_elem_of_lookup_1 in Hparams as [k Hk].
  assert (GradientClipping.grads l !! k = Some (grad (Link.param slot))) as Hlook.
  { unfold GradientClipping.grads. rewrite list_lookup_fmap, Hk. simpl.
    by rewrite Hi. }
  rewrite Hgrads, list_lookup_fmap in Hlook.
  destruct (arr !! k) as [g|]; simpl in Hlook; [|done].
  injection Hlook as <-. by exists g.
Qed.

(** The gradients that the hook visits are those of the parameters with
    data, in the order of the target. *)
Lemma grads_visited_aux (pre l : Link.link) :
  (fun i => slot ← (pre ++ l) !! i; grad (Link.param slot)) <$>
    (omap (fun '(i, s) =>
             if false || Link.initialized s then Some (name (Link.param s), i)
             else None)
          (imap (fun i s => ((length pre + i)%nat, s)) l)).*2 =
  omap (fun slot => match data (Link.param slot) with
                    | Some _ => Some (grad (Link.param slot))
                    | None => None
                    end) l.
Proof.
  revert pre. induction l as [|s l IH]; intros pre; [done|].
  assert (imap ((fun i s0 => ((length pre + i)%nat, s0)) ∘ S) l =
          imap (fun i s0 => ((length (pre ++ [s]) + i)%nat, s0)) l) as Htail.
  { apply imap_ext. intros i x _. simpl. rewrite length_app. simpl.
    f_equal. lia. }
  specialize (IH (pre ++ [s])). rewrite <- app_assoc in IH. simpl in IH.
  rewrite <- Htail in IH.
  cbn [imap omap list_omap]. unfold Link.initialized at 1.
  destruct (data (Link.param s)) as [d|] eqn:Hd; simpl.
  - f_equal; [|exact IH].
    rewrite lookup_app_r by lia.
    replace (length pre + 0 - length pre)%nat with 0%nat by lia. done.
  - exact IH.
Qed.

Lemma grads_visited (l : Link.link) :
  GradientClipping.grads l =
    omap (fun slot => match data (Link.param slot) with
                      | Some _ => Some (grad (Link.param slot))
                      | None => None
                      end) l.
Proof.
  unfold GradientClipping.grads, Link.params, Link.namedparams.
  exact (grads_visited_aux [] l).
Qed.

End GradientClippingFacts.

(** C6 (amended).  Array elements are real numbers here: no overflow, no
    rounding.  Let [arr] be the gradients of the parameters of the target
    that have data, every one of which has a gradient, and [N] the square
    root of the sum of the squares of all their elements.  Called with a
    threshold [T < N], where [N > 0], [GradientClipping] returns, and
    afterwards the target has the same parameters with the same names,
    data and update rules; the gradient of every parameter with data has
    each element multiplied by [T / N], on the same device and with the
    same shape and type, and a parameter without data is as it was.
    Nothing else of the optimizer is changed.  Called with [N <= T] the
    hook changes nothing.  For [N = 0] and [T < 0], where [T / N] is no
    real number, the hook multiplies by an infinite rate and the result
    is outside the model. *)
Theorem GradientClipping_scales_by_threshold_over_norm
    (threshold : R) (w : Optimizer.world) (l : Link.link) (arr : list ndarray) :
  Optimizer.target (Optimizer.opt w) = Some l ->
  omap (fun slot => match data (Link.param slot) with
                    | Some _ => Some (grad (Link.param slot))
                    | None => None
                    end) l = Some <$> arr ->
  let N := sqrt (GradientClipping.sum_of_squares arr) in
  ((0 < N)%R -> (threshold < N)%R ->
   exists w' l',
     GradientClipping.__call__ threshold w = Some (w', Ret tt) /\
     Optimizer.heap w' = Optimizer.heap w /\
     Optimizer.t (Optimizer.opt w') = Optimizer.t (Optimizer.opt w) /\
     Optimizer.epoch (Optimizer.opt w') = Optimizer.epoch (Optimizer.opt w) /\
     Optimizer._hooks (Optimizer.opt w') = Optimizer._hooks (Optimizer.opt w) /\
     Optimizer._use_cleargrads (Optimizer.opt w') =
       Optimizer._use_cleargrads (Optimizer.opt w) /\
     Optimizer.target (Optimizer.opt w') = Some l' /\
     length l' = length l /\
     forall i slot, l !! i = Some slot ->
       exists slot',
         l' !! i = Some slot' /\
         Link.update_rule slot' = Link.update_rule slot /\
         name (Link.param slot') = name (Link.param slot) /\
         data (Link.param slot') = data (Link.param slot) /\
         match data (Link.param slot) with
         | None => grad (Link.param slot') = grad (Link.param slot)
         | Some _ =>
             exists g g',
               grad (Link.param slot) = Some g /\
               grad (Link.param slot') = Some g' /\
               elems g' = map (fun e => (e * (threshold / N))%R) (elems g) /\
               device g' = device g /\ shape g' = shape g /\
               adtype g' = adtype g
         end) /\
  ((N <= threshold)%R -> GradientClipping.__call__ threshold w = Some (w, Ret tt)) /\
  (N = 0%R -> (threshold < 0)%R -> GradientClipping.__call__ threshold w = None).
Proof.
  intros Htarget Hvisited N.
  assert (GradientClipping.grads l = Some <$> arr) as Hgrads
    by (by rewrite grads_visited).
  assert (forall T, GradientClipping.__call__ T w =
            if lt_one (true_div T N) then
              match true_div T N with
              | Finite r =>
                  Some (Optimizer.set_opt
                          (Optimizer.set_target (map (GradientClipping.scaled r) l)
                             (Optimizer.opt w)) w, Ret tt)
              | _ => None
              end
            else Some (w, Ret tt)) as Hcall.
  { intros T. unfold GradientClipping.__call__.
    rewrite Htarget, Hgrads, mapM_fmap_Some by done.
    rewrite sum_sqnorm_total. fold N.
    destruct (lt_one (true_div T N)); [|done].
    destruct (true_div T N); try done. by rewrite scale_grads_map. }
  assert (0 <= N)%R as HN by apply sqrt_pos.
  split; [|split].
  - intros Hpos Hlt.
    exists (Optimizer.set_opt
              (Optimizer.set_target
                 (map (GradientClipping.scaled (threshold / N)) l)
                 (Optimizer.opt w)) w),
           (map (GradientClipping.scaled (threshold / N)) l).
    split.
    { rewrite Hcall, true_div_pos by lra. simpl.
      destruct (Rlt_dec (threshold / N) 1) as [|Hge]; [done|].
      exfalso. apply Hge. apply div_lt_one; lra. }
    do 6 (split; [done|]). split; [by rewrite length_map|].
    intros i slot Hi.
    exists (GradientClipping.scaled (threshold / N) slot).
    split; [by rewrite list_lookup_fmap, Hi|].
    assert (slot ∈ l) as Hin by (by eapply list_elem_of_lookup_2).
    unfold GradientClipping.scaled, Link.initialized.
    destruct (data (Link.param slot)) as [d|] eqn:Hd; [|by rewrite Hd].
    destruct (grads_present l arr Hgrads slot Hin) as [g Hg].
    { unfold Link.initialized. by rewrite Hd. }
    simpl. rewrite Hd. repeat split; try done.
    exists g, (GradientClipping.imul (threshold / N) g).
    rewrite Hg. done.
  - intros Hle. rewrite Hcall. unfold true_div.
    destruct (Req_dec_T N 0) as [H0|Hne].
    + destruct (Rlt_dec 0 threshold); [done|].
      destruct (Rlt_dec threshold 0); [lra|done].
    + simpl. destruct (Rlt_dec (threshold / N) 1) as [Hlt|]; [|done].
      assert (0 < N)%R as Hpos by lra.
      apply (proj1 (div_lt_one threshold N Hpos)) in Hlt. lra.
  - intros H0 Hneg. rewrite Hcall. unfold true_div.
    destruct (Req_dec_T N 0) as [_|Hne]; [|done].
    destruct (Rlt_dec 0 threshold); [lra|].
    destruct (Rlt_dec threshold 0); [done|lra].
Qed.

Lemma norm_3_4 :
  sqrt (GradientClipping.sum_of_squares [grad_3_4]) = 5%R.
Proof.
  unfold GradientClipping.sum_of_squares. simpl.
  replace (3 * 3 + (4 * 4 + 0))%R with (5 * 5)%R by lra.
  apply sqrt_square. lra.
Defined.

Lemma GradientClipping_scales_by_threshold_over_norm_witness :
  exists w' l' slot' g',
    GradientClipping.__call__ 1 clipping_world = Some (w', Ret tt) /\
    Optimizer.target (Optimizer.opt w') = Some l' /\
    l' !! 0%nat = Some slot' /\
    grad (Link.param slot') = Some g' /\
    elems g' = [3 * (1 / 5); 4 * (1 / 5)]%R /\
    GradientClipping.__call__ 5 clipping_world = Some (clipping_world, Ret tt).
Proof.
  pose proof (GradientClipping_scales_by_threshold_over_norm 1 clipping_world
                _ [grad_3_4] eq_refl eq_refl) as [Hclip _].
  pose proof (GradientClipping_scales_by_threshold_over_norm 5 clipping_world
                _ [grad_3_4] eq_refl eq_refl) as (_ & Hkeep & _).
  rewrite norm_3_4 in Hclip, Hkeep.
  destruct Hclip as (w' & l' & Hcall & _ & _ & _ & _ & _ & Ht & _ & Hslots);
    [lra..|].
  destruct (Hslots 0%nat _ eq_refl)
    as (slot' & Hl' & _ & _ & _ & g & g' & Hg & Hg' & Helems & _).
  injection Hg as <-.
  exists w', l', slot', g'. repeat split; try done.
  apply Hkeep. lra.
Defined.

(** C6, as stated, fails on floats: take one [float64] gradient with the
    two elements [2^600] and the threshold 1.  The norm [N] of the claim
    is above 1, and the claim has each element end as [2^600 * (1 / N)],
    which is not zero.  In the code the squares overflow, the norm is
    infinite, the rate is [1 / inf = 0], and both elements end as zero. *)
Lemma GradientClipping_scales_by_threshold_over_norm_counterexample :
  let g := 0x1p600%float in
  let x := (IZR 4503599627370496 * powerRZ 2 548)%R in
  let N := sqrt (GradientClipping.sum_of_squares
                   [{| device := -1; shape := [2%nat]; adtype := float64;
                       elems := [x; x] |}]) in
  Float64.to_R g = Some x /\
  (1 < N)%R /\
  (x * (1 / N) <> 0)%R /\
  Float64._sum_sqnorm [{| Float64.device := -1; Float64.elems := [g; g] |}] =
    infinity /\
  Float64.__call__ 1%float
      [{| Float64.device := -1; Float64.elems := [g; g] |}] =
    [{| Float64.device := -1; Float64.elems := [0%float; 0%float] |}] /\
  Float64.to_R 0%float = Some 0%R.
Proof.
  intros g x N.
  assert (1 <= x)%R as Hx.
  { unfold x.
    assert (1 <= powerRZ 2 548)%R as Hp.
    { change 548%Z with (Z.of_nat 548). rewrite <- pow_powerRZ.
      apply pow_R1_Rle. lra. }
    assert (1 <= IZR 4503599627370496)%R as Hm by (apply IZR_le; lia).
    replace 1%R with (1 * 1)%R by lra.
    apply Rmult_le_compat; lra. }
  assert (1 < N)%R as HN.
  { unfold N, GradientClipping.sum_of_squares. simpl.
    rewrite <- sqrt_1 at 1. apply sqrt_lt_1_alt. nra. }
  split; [reflexivity|]. split; [exact HN|]. split.
  - intros H0. apply Rmult_integral in H0 as [H0|H0]; [lra|].
    unfold Rdiv in H0. rewrite Rmult_1_l in H0.
    apply Rinv_neq_0_compat in H0; [done|lra].
  - split; [reflexivity|]. split; reflexivity.
Qed.


(** * Further properties *)

(** ** Hooks: registration and removal *)

Lemma hooks_delete_app_fresh (n : string) (hook : pyobject) (hooks : hooks_dict) :
  n ∉ hooks.*1 -> hooks_delete n (hooks ++ [(n, hook)]) = hooks.
Proof.
  intros Hfresh. unfold hooks_delete. rewrite filter_app.
  rewrite (filter_cons_False _ _ []) by (simpl; tauto).
  rewrite filter_nil, app_nil_r.
  induction hooks as [|[k v] hooks IH]; [done|].
  simpl in Hfresh. apply not_elem_of_cons in Hfresh as [Hk Hrest].
  rewrite filter_cons_True by (simpl; congruence).
  by rewrite IH.
Qed.

Lemma hooks_contains_app_here (n : string) (hook : pyobject) (hooks : hooks_dict) :
  hooks_contains n (hooks ++ [(n, hook)]) = true.
Proof.
  apply hooks_contains_true. rewrite fmap_app. apply elem_of_app. right.
  simpl. apply list_elem_of_here.
Qed.

Lemma hooks_contains_spec (n : string) (hooks : hooks_dict) :
  hooks_contains n hooks = true <-> n ∈ hooks.*1.
Proof. unfold hooks_contains. apply bool_decide_eq_true. Qed.

Lemma NoDup_hooks_delete (n : string) (hooks : hooks_dict) :
  NoDup hooks.*1 -> NoDup (hooks_delete n hooks).*1.
Proof.
  unfold hooks_delete. induction hooks as [|[k v] hooks IH]; simpl; [done|].
  intros Hnd. apply NoDup_cons in Hnd as [Hk Hnd].
  destruct (decide (k <> n)) as [Hne|Heq].
  - rewrite filter_cons_True by done. simpl. apply NoDup_cons. split; [|by apply IH].
    intros Hin. apply Hk. apply list_elem_of_fmap in Hin as ([k' v'] & -> & Hin).
    apply list_elem_of_filter in Hin as [_ Hin].
    apply list_elem_of_fmap. by exists (k', v').
  - rewrite filter_cons_False by done. by apply IH.
Qed.

(** X1.  Removing a hook right after it was registered under a new name
    gives back the update rule, or the optimizer, as it was before the
    registration: the hook mapping has its former entries in their former
    order. *)
Theorem add_hook_then_remove_hook
    (hook : pyobject) (name : option string) (n : string) :
  callable hook = true ->
  (forall self : UpdateRule.rule,
     name = Some n \/ (name = None /\ UpdateRule.default_name hook = Some n) ->
     n ∉ (UpdateRule._hooks self).*1 ->
     bind (UpdateRule.add_hook hook name) (fun _ => UpdateRule.remove_hook n) self =
       (self, Ret tt)) /\
  (forall (self : Optimizer.optimizer) (hooks : hooks_dict),
     name = Some n \/ (name = None /\ attr_name hook = Some n) ->
     Optimizer._hooks self = Some hooks ->
     n ∉ hooks.*1 ->
     bind (Optimizer.add_hook hook name) (fun _ => Optimizer.remove_hook n) self =
       (self, Ret tt)).
Proof.
  intros Hc. split.
  - intros self Hname Hfresh.
    unfold UpdateRule.add_hook, UpdateRule.remove_hook. rewrite Hc. simpl.
    destruct Hname as [-> | [-> Hd]]; [|rewrite Hd];
      unfold bind, ret, get, put; simpl;
      rewrite (hooks_contains_false _ _ Hfresh); simpl;
      rewrite hooks_contains_app_here, hooks_delete_app_fresh by done;
      by destruct self.
  - intros self hooks Hname Hh Hfresh.
    unfold Optimizer.add_hook, Optimizer.remove_hook. rewrite Hc. simpl.
    unfold bind at 1 2. unfold get at 1. rewrite Hh.
    destruct Hname as [-> | [-> Hd]]; [|rewrite Hd];
      unfold bind, ret, get, put; simpl;
      rewrite (hooks_contains_false _ _ Hfresh); simpl;
      rewrite hooks_contains_app_here, hooks_delete_app_fresh by done;
      destruct self; simpl in *; by subst.
Qed.

Lemma add_hook_then_remove_hook_witness :
  bind (UpdateRule.add_hook fn_clip None) (fun _ => UpdateRule.remove_hook "clip")
       rule_with_decay = (rule_with_decay, Ret tt) /\
  bind (Optimizer.add_hook fn_clip (Some "clip")) (fun _ => Optimizer.remove_hook "clip")
       optimizer_with_decay = (optimizer_with_decay, Ret tt).
Proof.
  pose proof (add_hook_then_remove_hook fn_clip None "clip" eq_refl) as [Hrule _].
  pose proof (add_hook_then_remove_hook fn_clip (Some "clip") "clip" eq_refl)
    as [_ Hopt].
  split.
  - apply Hrule; [right; by split|].
    vm_compute. intros H. by repeat (apply elem_of_cons in H as [H|H]; [done|]);
      apply elem_of_nil in H.
  - apply (Hopt optimizer_with_decay [("WeightDecay", hook_decay)]);
      [by left | done |].
    vm_compute. intros H. by repeat (apply elem_of_cons in H as [H|H]; [done|]);
      apply elem_of_nil in H.
Defined.

Lemma NoDup_hooks_app (n : string) (hook : pyobject) (hooks : hooks_dict) :
  NoDup hooks.*1 -> n ∉ hooks.*1 -> NoDup (hooks ++ [(n, hook)]).*1.
Proof.
  intros Hnd Hfresh. rewrite fmap_app. apply NoDup_app. split; [done|].
  split; [|simpl; apply NoDup_singleton].
  intros k Hk Hk'. simpl in Hk'. apply list_elem_of_singleton in Hk'. by subst.
Qed.

(** X2.  The names of the registered hooks stay distinct: if no name occurs
    twice in the hook mapping of an update rule or of an optimizer, then
    none does after [add_hook] or [remove_hook], whatever the arguments and
    whether the call returns or raises. *)
Theorem hook_names_stay_distinct
    (hook : pyobject) (name : option string) (n : string) :
  (forall self : UpdateRule.rule,
     NoDup (UpdateRule._hooks self).*1 ->
     NoDup (UpdateRule._hooks (UpdateRule.add_hook hook name self).1).*1 /\
     NoDup (UpdateRule._hooks (UpdateRule.remove_hook n self).1).*1) /\
  (forall self : Optimizer.optimizer,
     NoDup (default [] (Optimizer._hooks self)).*1 ->
     NoDup (default [] (Optimizer._hooks (Optimizer.add_hook hook name self).1)).*1 /\
     NoDup (default [] (Optimizer._hooks (Optimizer.remove_hook n self).1)).*1).
Proof.
  split.
  - intros self Hnd. split.
    + unfold UpdateRule.add_hook.
      destruct (callable hook); simpl; [|done].
      assert (forall m : string,
        NoDup (UpdateRule._hooks
          ((self0 <- get ;;
            if hooks_contains m (UpdateRule._hooks self0)
            then raise (ValueError (UpdateRule.hook_exists_msg m))
            else put (UpdateRule.set_hooks
                        (UpdateRule._hooks self0 ++ [(m, hook)]) self0))%py self).1).*1)
        as Hreg.
      { intros m. unfold bind, get, put, raise. simpl.
        destruct (hooks_contains m (UpdateRule._hooks self)) eqn:Hm; simpl; [done|].
        apply NoDup_hooks_app; [done|].
        intros Hin. apply hooks_contains_spec in Hin. congruence. }
      destruct name as [m|]; [apply Hreg|].
      destruct (UpdateRule.default_name hook) as [m|]; [apply Hreg | done].
    + unfold UpdateRule.remove_hook, bind, get, put, raise. simpl.
      destruct (hooks_contains n (UpdateRule._hooks self)); simpl; [|done].
      by apply NoDup_hooks_delete.
  - intros self Hnd. split.
    + unfold Optimizer.add_hook.
      destruct (callable hook); simpl; [|done].
      unfold bind at 1. unfold get at 1.
      destruct (Optimizer._hooks self) as [hooks|] eqn:Hh; simpl; [|by rewrite Hh].
      assert (forall m : string,
        NoDup (default [] (Optimizer._hooks
          ((if hooks_contains m hooks
            then raise (KeyError (Optimizer.hook_exists_msg m))
            else put (Optimizer.set_hooks (hooks ++ [(m, hook)]) self)) self).1)).*1)
        as Hreg.
      { intros m. unfold put, raise.
        destruct (hooks_contains m hooks) eqn:Hm; simpl; [by rewrite Hh|].
        apply NoDup_hooks_app; [done|].
        intros Hin. apply hooks_contains_spec in Hin. congruence. }
      destruct name as [m|]; [apply Hreg|].
      destruct (attr_name hook) as [m|]; [apply Hreg|].
      simpl. by rewrite Hh.
    + unfold Optimizer.remove_hook, bind, get, put, raise. simpl.
      destruct (Optimizer._hooks self) as [hooks|] eqn:Hh; simpl; [|by rewrite Hh].
      destruct (hooks_contains n hooks); simpl; [|by rewrite Hh].
      by apply NoDup_hooks_delete.
Qed.

Lemma hook_names_stay_distinct_witness :
  NoDup (UpdateRule._hooks
           (UpdateRule.add_hook fn_clip None rule_with_decay).1).*1.
Proof.
  apply (proj1 (hook_names_stay_distinct fn_clip None "clip") rule_with_decay).
  simpl. apply NoDup_singleton.
Defined.

(** X3.  [add_hook] and [remove_hook], of an update rule and of an
    optimizer, either return or raise with the object left as it was; and
    [remove_hook] raises [KeyError] of the name exactly when the name is
    not registered. *)
Theorem hook_calls_fail_without_effect
    (hook : pyobject) (name : option string) (n : string) :
  (forall self : UpdateRule.rule,
     ((UpdateRule.add_hook hook name self).2 = Ret tt \/
      (UpdateRule.add_hook hook name self).1 = self) /\
     ((UpdateRule.remove_hook n self).2 = Ret tt \/
      (UpdateRule.remove_hook n self).1 = self) /\
     (UpdateRule.remove_hook n self = (self, Raise (KeyError n)) <->
      n ∉ (UpdateRule._hooks self).*1)) /\
  (forall self : Optimizer.optimizer,
     ((Optimizer.add_hook hook name self).2 = Ret tt \/
      (Optimizer.add_hook hook name self).1 = self) /\
     ((Optimizer.remove_hook n self).2 = Ret tt \/
      (Optimizer.remove_hook n self).1 = self) /\
     (forall hooks, Optimizer._hooks self = Some hooks ->
        (Optimizer.remove_hook n self = (self, Raise (KeyError n)) <->
         n ∉ hooks.*1))).
Proof.
  split.
  - intros self. split; [|split].
    + unfold UpdateRule.add_hook.
      destruct (callable hook); simpl; [|by right].
      destruct name as [m|]; [|destruct (UpdateRule.default_name hook) as [m|]];
        unfold bind, ret, get, put, raise; simpl;
        try (destruct (hooks_contains m (UpdateRule._hooks self)); simpl);
        auto.
    + unfold UpdateRule.remove_hook, bind, get, put, raise. simpl.
      destruct (hooks_contains n (UpdateRule._hooks self)); simpl; auto.
    + unfold UpdateRule.remove_hook, bind, get, put, raise. simpl.
      destruct (hooks_contains n (UpdateRule._hooks self)) eqn:Hn; simpl.
      * split; [intros H; inversion H|].
        intros Hfresh. apply hooks_contains_spec in Hn. done.
      * split; [|done]. intros _ Hin. apply hooks_contains_spec in Hin. congruence.
  - intros self. split; [|split].
    + unfold Optimizer.add_hook.
      destruct (callable hook); simpl; [|by right].
      unfold bind, ret, get, put, raise. simpl.
      destruct (Optimizer._hooks self) as [hooks|]; simpl; [|by right].
      destruct name as [m|]; [|destruct (attr_name hook) as [m|]]; simpl;
        try (destruct (hooks_contains m hooks); simpl);
        auto.
    + unfold Optimizer.remove_hook, bind, get, put, raise. simpl.
      destruct (Optimizer._hooks self) as [hooks|]; simpl; [|right; reflexivity].
      destruct (hooks_contains n hooks); simpl; auto.
    + intros hooks Hh.
      unfold Optimizer.remove_hook, bind, get, put, raise. simpl. rewrite Hh.
      destruct (hooks_contains n hooks) eqn:Hn; simpl.
      * split; [intros H; inversion H|].
        intros Hfresh. apply hooks_contains_spec in Hn. done.
      * split; [|done]. intros _ Hin. apply hooks_contains_spec in Hin. congruence.
Qed.

Lemma hook_calls_fail_without_effect_witness :
  Optimizer.remove_hook "clip" optimizer_with_decay =
    (optimizer_with_decay, Raise (KeyError "clip")).
Proof.
  apply (proj2 (proj2 (proj2 (hook_calls_fail_without_effect fn_clip None "clip")
                         optimizer_with_decay)) [("WeightDecay", hook_decay)] eq_refl).
  vm_compute. intros H. by repeat (apply elem_of_cons in H as [H|H]; [done|]);
    apply elem_of_nil in H.
Defined.

(** ** Hyperparameter: attribute lookup and [set_parent] *)

Section HyperparameterMoreFacts.
Import Hyperparameter.




End HyperparameterMoreFacts.








(** ** UpdateRule: state preparation, call order, deserialization *)

Section UpdateRuleMoreFacts.
Import UpdateRule.
Context {ext : External}.

Lemma migrate_device (device_id : Z) (v : pyvalue) (a : ndarray) :
  -1 <= device_id ->
  migrate device_id v = PyArray a ->
  device a = device_id /\
  exists a0, v = PyArray a0 /\ elems a = elems a0 /\ shape a = shape a0 /\
             adtype a = adtype a0.
Proof.
  intros Hdev. unfold migrate. destruct v as [| | | |a0|]; try done.
  simpl. destruct (decide (device a0 <> device_id)) as [Hne|Heq].
  - destruct (decide (0 <= device_id)); intros H; simplify_eq; simpl.
    + eauto 10.
    + split; [lia|]. eauto 10.
  - intros H. simplify_eq. split; [|by eauto 10].
    destruct (decide (device a = device_id)); [done|]. by exfalso; apply Heq.
Qed.

Lemma migrate_not_array (device_id : Z) (v : pyvalue) :
  (forall a, v <> PyArray a) -> migrate device_id v = v.
Proof. intros Hv. destruct v; try done. by destruct (Hv a). Qed.

Lemma prepare_eq_some (s : st) (l : loc) :
  state (self (w s)) = Some l ->
  _prepare s =
    (on_world (fun w0 => set_heap
       (alter (fmap (migrate (get_device (data (param (w s)))))) l (heap w0)) w0) s,
     Ret tt).
Proof.
  intros Hst. unfold _prepare, bind, get, ret, modify. simpl. by rewrite Hst.
Qed.

Lemma prepare_eq_none (s : st) :
  state (self (w s)) = None ->
  let l := fresh (dom (heap (w s))) in
  let run := init_state (set_self (set_state (Some l) (self (w s)))
                           (set_heap (<[l := ∅]> (heap (w s))) (w s))) in
  _prepare s =
    match run.2 with
    | Ret _ =>
        ({| w := set_heap
                   (alter (fmap (migrate (get_device (data (param (w s)))))) l
                          (heap run.1)) run.1;
            trace := trace s ++ [CallInitState] |}, Ret tt)
    | Raise e => ({| w := run.1; trace := trace s ++ [CallInitState] |}, Raise e)
    end.
Proof.
  intros Hst l run. unfold _prepare. unfold bind at 1. unfold get at 1.
  rewrite Hst. unfold bind at 1 2 3.
  unfold new_state, bind, get, put, ret, call. simpl. fold l. fold run.
  by destruct run as [w1 [[]|e]].
Qed.

Lemma prepare_heap (s : st) :
  let l := match state (self (w s)) with
           | Some l => l
           | None => fresh (dom (heap (w s)))
           end in
  (_prepare s).2 = Ret tt ->
  exists h0,
    heap (w (_prepare s).1) =
      alter (fmap (migrate (get_device (data (param (w s)))))) l h0.
Proof.
  destruct (state (self (w s))) as [l|] eqn:Hst; intros l'; subst l'.
  - rewrite (prepare_eq_some s l Hst). simpl. intros _. by eexists.
  - rewrite (prepare_eq_none s Hst).
    destruct (init_state _) as [w1 [[]|e]]; simpl; [|done].
    intros _. by eexists.
Qed.




End UpdateRuleMoreFacts.

(** X6.  [_prepare] migrates the dictionary that it found as the state of
    the rule, or that it created and bound to [_state] before it called
    [init_state].  After [_prepare] has returned, the state of the rule,
    when it is that dictionary, holds no array on another device than the
    one of the parameter's data.  It is that dictionary whenever the
    state existed before; when [_prepare] created it, the state of the
    rule afterwards is what [init_state] left in [_state], and a
    dictionary that [init_state] bound there in its place is not
    migrated.  When the state existed before, [_prepare] calls nothing
    and replaces each array that was on another device by a copy with the
    same shape, dtype and elements; the other values and the keys are
    kept. *)
Theorem UpdateRule_prepare_migrates_state
    (ext : UpdateRule.External) (s : UpdateRule.st) :
  let device_id := get_device (data (UpdateRule.param (UpdateRule.w s))) in
  let after := UpdateRule.w (UpdateRule._prepare s).1 in
  let l := match UpdateRule.state (UpdateRule.self (UpdateRule.w s)) with
           | Some l => l
           | None => fresh (dom (UpdateRule.heap (UpdateRule.w s)))
           end in
  -1 <= device_id ->
  (UpdateRule._prepare s).2 = Ret tt ->
  (forall d k a,
     UpdateRule.state (UpdateRule.self after) = Some l ->
     UpdateRule.heap after !! l = Some d ->
     d !! k = Some (PyArray a) ->
     device a = device_id) /\
  (UpdateRule.state (UpdateRule.self (UpdateRule.w s)) = None ->
   UpdateRule.state (UpdateRule.self after) =
     UpdateRule.state
       (UpdateRule.self
          (UpdateRule.init_state
             (UpdateRule.set_self
                (UpdateRule.set_state (Some l) (UpdateRule.self (UpdateRule.w s)))
                (UpdateRule.set_heap (<[l := ∅]> (UpdateRule.heap (UpdateRule.w s)))
                                     (UpdateRule.w s)))).1)) /\
  (forall d0,
     UpdateRule.state (UpdateRule.self (UpdateRule.w s)) = Some l ->
     UpdateRule.heap (UpdateRule.w s) !! l = Some d0 ->
     exists d,
       UpdateRule._prepare s =
         (UpdateRule.on_world
            (fun w => UpdateRule.set_heap (<[l := d]> (UpdateRule.heap w)) w) s,
          Ret tt) /\
       UpdateRule.state (UpdateRule.self after) = Some l /\
       UpdateRule.heap after !! l = Some d /\
       dom d = dom d0 /\
       forall k v, d0 !! k = Some v ->
         exists v', d !! k = Some v' /\
           match v with
           | PyArray a0 =>
               exists a, v' = PyArray a /\ elems a = elems a0 /\
                         shape a = shape a0 /\ adtype a = adtype a0
           | _ => v' = v
           end).
Proof.
  intros device_id after l Hdev Hret. split; [|split].
  - intros d k a _ Hd Hk. unfold after in Hd.
    destruct (prepare_heap s Hret) as [h0 Hheap]. fold l device_id in Hheap.
    rewrite Hheap, lookup_alter_eq in Hd.
    destruct (h0 !! l) as [d0|]; simpl in Hd; [|done]. simplify_eq.
    rewrite lookup_fmap in Hk.
    destruct (d0 !! k) as [v|]; simpl in Hk; [|done]. injection Hk as Hm.
    by destruct (migrate_device device_id v a Hdev Hm).
  - intros Hst. unfold after, l. rewrite Hst.
    rewrite (prepare_eq_none s Hst) in Hret |- *.
    by destruct (UpdateRule.init_state _) as [w1 [[]|e]].
  - intros d0 Hst Hd0. exists (UpdateRule.migrate device_id <$> d0).
    assert (UpdateRule._prepare s =
            (UpdateRule.on_world
               (fun w => UpdateRule.set_heap
                  (<[l := UpdateRule.migrate device_id <$> d0]> (UpdateRule.heap w))
                  w) s, Ret tt)) as Heq.
    { rewrite (prepare_eq_some s l Hst). fold device_id.
      f_equal. unfold UpdateRule.on_world, UpdateRule.set_heap. simpl.
      do 2 f_equal.
      apply map_eq. intros j. destruct (decide (j = l)) as [->|Hne].
      * by rewrite lookup_alter_eq, lookup_insert_eq, Hd0.
      * by rewrite lookup_alter_ne, lookup_insert_ne. }
    split; [exact Heq|]. unfold after. rewrite Heq. simpl.
    split; [done|]. split; [by rewrite lookup_insert_eq|]. split.
    + by rewrite dom_fmap_L.
    + intros k v Hk. exists (UpdateRule.migrate device_id v). split.
      * by rewrite lookup_fmap, Hk.
      * destruct v as [| | | |a0|]; try done.
        destruct (UpdateRule.migrate device_id (PyArray a0)) as [| | | |a|] eqn:Hm;
          try (unfold UpdateRule.migrate in Hm; repeat case_decide; done).
        destruct (migrate_device device_id _ a Hdev Hm) as (_ & a1 & ? & ? & ? & ?).
        simplify_eq. eauto.
Qed.

Lemma UpdateRule_prepare_migrates_state_witness :
  let after := UpdateRule.w (@UpdateRule._prepare sgd_external rule_state_on_host).1 in
  UpdateRule.state (UpdateRule.self after) = Some 0%nat /\
  UpdateRule.heap after !! 0%nat =
    Some {[ "v" := PyArray (to_gpu 0 (zeros_like example_data)); "n" := PyInt 3 ]} /\
  forall d k a,
    UpdateRule.heap after !! 0%nat = Some d ->
    d !! k = Some (PyArray a) -> device a = 0.
Proof.
  intros after. split; [reflexivity|]. split; [reflexivity|].
  intros d k a.
  apply (proj1 (UpdateRule_prepare_migrates_state sgd_external rule_state_on_host
                  ltac:(simpl; lia) eq_refl)).
  reflexivity.
Defined.

Section UpdateRuleOrderFacts.
Import UpdateRule.
Context {ext : External}.


(** [update] of an enabled rule, step by step. *)
Lemma update_enabled_eq (s : st) :
  enabled (self (w s)) = true ->
  update s =
    let prepared :=
      _prepare (on_world (fun w0 => set_self (set_t (t (self w0) + 1) (self w0)) w0) s) in
    match prepared.2 with
    | Raise e => (prepared.1, Raise e)
    | Ret _ =>
        let hooked :=
          for_each (_hooks (self (w prepared.1)))
                   (fun kv => call (CallRuleHook kv.1) (call_hook kv.2))
                   prepared.1 in
        match hooked.2 with
        | Raise e => (hooked.1, Raise e)
        | Ret _ => update_core hooked.1
        end
    end.
Proof.
  intros Hen. unfold update. unfold bind at 1. unfold get at 1.
  rewrite Hen. simpl. unfold bind at 1. unfold modify at 1.
  unfold bind at 1.
  destruct (_prepare _) as [s1 [[]|e]]; simpl; [|done].
  unfold bind at 1. unfold get at 1. unfold bind at 1.
  by destruct (for_each _ _ s1) as [s2 [[]|e]].
Qed.

End UpdateRuleOrderFacts.



(** [update] of an enabled rule of a class that may override
    [update_core], step by step. *)
Lemma override_update_enabled_eq (sub : UpdateRuleOverride.Subclass)
    (s : UpdateRule.st) :
  UpdateRule.enabled (UpdateRule.self (UpdateRule.w s)) = true ->
  UpdateRuleOverride.update s =
    let prepared :=
      @UpdateRule._prepare (@UpdateRuleOverride.external sub)
        (UpdateRule.on_world
           (fun w0 => UpdateRule.set_self
              (UpdateRule.set_t (UpdateRule.t (UpdateRule.self w0) + 1)
                                (UpdateRule.self w0)) w0) s) in
    match prepared.2 with
    | Raise e => (prepared.1, Raise e)
    | Ret _ =>
        let hooked :=
          for_each (UpdateRule._hooks (UpdateRule.self (UpdateRule.w prepared.1)))
                   (fun kv => UpdateRule.call (CallRuleHook kv.1)
                      (@UpdateRule.call_hook (@UpdateRuleOverride.external sub) kv.2))
                   prepared.1 in
        match hooked.2 with
        | Raise e => (hooked.1, Raise e)
        | Ret _ => UpdateRuleOverride.update_core hooked.1
        end
    end.
Proof.
  intros Hen. unfold UpdateRuleOverride.update. unfold bind at 1. unfold get at 1.
  rewrite Hen. simpl. unfold bind at 1. unfold modify at 1.
  unfold bind at 1.
  destruct (UpdateRule._prepare _) as [s1 [[]|e]]; simpl; [|done].
  unfold bind at 1. unfold get at 1. unfold bind at 1.
  by destruct (for_each _ _ s1) as [s2 [[]|e]].
Qed.

(** X8.  [update] calls [self.update_core], which a class may override.
    A rule of a class that overrides none of [update_core],
    [update_core_cpu] and [update_core_gpu] cannot complete an update:
    [update] of such a rule, when enabled, always raises.  When the rule
    has state and no hook, the exception is [NotImplementedError], and
    the update has been counted in [t] all the same.  A class that
    overrides [update_core] alone replaces the choice between the two
    variants: on a rule with state and no hook, [update] counts the
    update, migrates the state, calls the override and ends as the
    override ends. *)
Theorem UpdateRule_update_without_core
    (sub : UpdateRuleOverride.Subclass) (s : UpdateRule.st) :
  UpdateRule.enabled (UpdateRule.self (UpdateRule.w s)) = true ->
  (@UpdateRuleOverride.update_core_override sub = None ->
   @UpdateRule.update_core_cpu (@UpdateRuleOverride.external sub) =
     UpdateRule.base_update_core_cpu ->
   @UpdateRule.update_core_gpu (@UpdateRuleOverride.external sub) =
     UpdateRule.base_update_core_gpu ->
   (exists e, (UpdateRuleOverride.update s).2 = Raise e) /\
   (forall l,
      UpdateRule.state (UpdateRule.self (UpdateRule.w s)) = Some l ->
      UpdateRule._hooks (UpdateRule.self (UpdateRule.w s)) = [] ->
      (UpdateRuleOverride.update s).2 = Raise NotImplementedError /\
      UpdateRule.self (UpdateRule.w (UpdateRuleOverride.update s).1) =
        UpdateRule.set_t (UpdateRule.t (UpdateRule.self (UpdateRule.w s)) + 1)
                         (UpdateRule.self (UpdateRule.w s)))) /\
  (@UpdateRuleOverride.update_core_override sub = None ->
   UpdateRuleOverride.update s =
     @UpdateRule.update (@UpdateRuleOverride.external sub) s) /\
  (forall f l,
     @UpdateRuleOverride.update_core_override sub = Some f ->
     UpdateRule.state (UpdateRule.self (UpdateRule.w s)) = Some l ->
     UpdateRule._hooks (UpdateRule.self (UpdateRule.w s)) = [] ->
     let prepared :=
       UpdateRule.set_heap
         (alter (fmap (UpdateRule.migrate
                         (get_device (data (UpdateRule.param (UpdateRule.w s))))))
                l (UpdateRule.heap (UpdateRule.w s)))
         (UpdateRule.set_self
            (UpdateRule.set_t (UpdateRule.t (UpdateRule.self (UpdateRule.w s)) + 1)
                              (UpdateRule.self (UpdateRule.w s)))
            (UpdateRule.w s)) in
     UpdateRuleOverride.update s =
       ({| UpdateRule.w := (f prepared).1;
           UpdateRule.trace := UpdateRule.trace s ++ [CallUpdateCore] |},
        (f prepared).2)).
Proof.
  intros Hen. split; [|split].
  - intros Hnone Hcpu Hgpu.
    assert (forall s2,
              (UpdateRuleOverride.update_core s2).2 = Raise NotImplementedError /\
              UpdateRule.w (UpdateRuleOverride.update_core s2).1 = UpdateRule.w s2)
      as Hcore.
    { intros s2. unfold UpdateRuleOverride.update_core. rewrite Hnone.
      unfold UpdateRule.update_core, bind, get, UpdateRule.call. simpl.
      rewrite Hcpu, Hgpu.
      by destruct (decide (get_device (data (UpdateRule.param (UpdateRule.w s2)))
                           = -1)). }
    split.
    + rewrite (override_update_enabled_eq sub s Hen). cbv zeta.
      destruct (UpdateRule._prepare _) as [s1 [[]|e]]; simpl; [|by eexists].
      destruct (for_each _ _ s1) as [s2 [[]|e]]; simpl; [|by eexists].
      exists NotImplementedError. apply Hcore.
    + intros l Hst Hhooks.
      rewrite (override_update_enabled_eq sub s Hen). cbv zeta.
      rewrite (@prepare_eq_some (@UpdateRuleOverride.external sub) _ l) by exact Hst. simpl.
      rewrite Hhooks. simpl.
      destruct (Hcore (UpdateRule.on_world
        (fun w0 => UpdateRule.set_heap
           (alter (fmap (UpdateRule.migrate
                           (get_device (data (UpdateRule.param (UpdateRule.w s))))))
                  l (UpdateRule.heap w0)) w0)
        (UpdateRule.on_world
           (fun w0 => UpdateRule.set_self
              (UpdateRule.set_t (UpdateRule.t (UpdateRule.self w0) + 1)
                                (UpdateRule.self w0)) w0) s))) as [Hr Hw].
      split; [exact Hr|]. by rewrite Hw.
  - intros Hnone.
    rewrite (override_update_enabled_eq sub s Hen),
      (@update_enabled_eq (@UpdateRuleOverride.external sub) s Hen).
    unfold UpdateRuleOverride.update_core. by rewrite Hnone.
  - intros f l Hsome Hst Hhooks prepared.
    rewrite (override_update_enabled_eq sub s Hen). cbv zeta.
    rewrite (@prepare_eq_some (@UpdateRuleOverride.external sub) _ l) by exact Hst. simpl.
    rewrite Hhooks. simpl.
    unfold UpdateRuleOverride.update_core. rewrite Hsome.
    unfold UpdateRule.call. simpl. fold prepared.
    by destruct (f prepared).
Qed.

Lemma UpdateRule_update_without_core_witness :
  (@UpdateRuleOverride.update base_class rule_state_on_host).2 =
    Raise NotImplementedError /\
  UpdateRule.t (UpdateRule.self (UpdateRule.w
    (@UpdateRuleOverride.update base_class rule_state_on_host).1)) = 1 /\
  (@UpdateRuleOverride.update core_class rule_state_on_host).2 = Ret tt /\
  UpdateRule.trace (@UpdateRuleOverride.update core_class rule_state_on_host).1 =
    [CallUpdateCore].
Proof.
  destruct (UpdateRule_update_without_core base_class rule_state_on_host eq_refl)
    as (Hbase & _ & _).
  destruct (proj2 (Hbase eq_refl eq_refl eq_refl) 0%nat eq_refl eq_refl)
    as [Hr Hself].
  destruct (UpdateRule_update_without_core core_class rule_state_on_host eq_refl)
    as (_ & _ & Hcore).
  specialize (Hcore sgd_update_core 0%nat eq_refl eq_refl eq_refl).
  cbv zeta in Hcore.
  split; [exact Hr|]. split; [by rewrite Hself|].
  rewrite Hcore. split; reflexivity.
Defined.

(** X9.  [serialize] with a deserializer on a rule that already has state
    keeps the keys of the state dictionary: an entry whose key the
    deserializer holds gets the stored value, an entry whose key it does
    not hold keeps its value, and no entry is added for a key that only
    the deserializer holds.  The rule calls nothing from outside, and the
    deserializer is handed back as it was. *)
Theorem UpdateRule_serialize_loads_into_state
    (ext : UpdateRule.External) (s : UpdateRule.st) (l : loc)
    (d store : gmap string pyvalue) :
  UpdateRule.state (UpdateRule.self (UpdateRule.w s)) = Some l ->
  UpdateRule.heap (UpdateRule.w s) !! l = Some d ->
  exists d',
    UpdateRule.serialize (Deserializer store) s =
      (UpdateRule.on_world
         (fun w0 => UpdateRule.set_heap (<[l := d']> (UpdateRule.heap w0)) w0) s,
       Ret (Deserializer store)) /\
    dom d' = dom d /\
    (forall k v, d !! k = Some v -> d' !! k = Some (default v (store !! k))) /\
    (forall k, d !! k = None -> d' !! k = None).
Proof.
  intros Hst Hd.
  exists (map_imap (fun k v => Some (loaded store true k v)) d).
  split; [|split; [|split]].
  - unfold UpdateRule.serialize, bind, get. simpl. rewrite Hst.
    rewrite serialize_state_eq, Hd, serialize_entries_reader. done.
  - apply set_eq. intros k. rewrite !elem_of_dom, map_lookup_imap.
    destruct (d !! k); simpl; split; intros [? ?]; by eauto.
  - intros k v Hk. by rewrite map_lookup_imap, Hk.
  - intros k Hk. by rewrite map_lookup_imap, Hk.
Qed.

Lemma UpdateRule_serialize_loads_into_state_witness :
  exists d',
    UpdateRule.heap (UpdateRule.w
      (@UpdateRule.serialize sgd_external
         (Deserializer {[ "n" := PyInt 7; "other" := PyInt 1 ]})
         rule_state_on_host).1) !! 0%nat = Some d' /\
    d' !! "n" = Some (PyInt 7) /\
    d' !! "v" = Some (PyArray (zeros_like example_data)) /\
    d' !! "other" = None.
Proof.
  destruct (UpdateRule_serialize_loads_into_state sgd_external rule_state_on_host
              0%nat host_state {[ "n" := PyInt 7; "other" := PyInt 1 ]}
              eq_refl eq_refl) as (d' & Heq & _ & Hsome & Hnone).
  exists d'. rewrite Heq. simpl. rewrite lookup_insert_eq.
  split; [done|]. split; [|split].
  - by rewrite (Hsome "n" (PyInt 3)).
  - by rewrite (Hsome "v" (PyArray (zeros_like example_data))).
  - by apply Hnone.
Defined.

(** ** Optimizer: epochs and the hook pipeline *)

Section OptimizerMoreFacts.
Import Optimizer.
Context {ext : External}.



End OptimizerMoreFacts.


(** X11.  [new_epoch] counts epochs only: after [setup] and [k] calls of
    [new_epoch] the epoch is [k], while [t] is still 0, no hook is
    registered and the target is the one given to [setup].  Before
    [setup] there is no epoch to count, and [new_epoch] raises
    [AttributeError] with the optimizer unchanged. *)
Theorem Optimizer_new_epoch_counts
    (self : Optimizer.optimizer) (l : Link.link) (k : nat) :
  let after :=
    Nat.iter k (fun o => (Optimizer.new_epoch o).1)
             (Optimizer.setup (Optimizer.IsLink l) self).1 in
  Optimizer.epoch after = Some (Z.of_nat k) /\
  Optimizer.t after = Some 0 /\
  Optimizer._hooks after = Some [] /\
  Optimizer.target after = Some l /\
  (Optimizer.new_epoch after).2 = Ret tt /\
  (Optimizer.epoch self = None ->
   Optimizer.new_epoch self = (self, Raise (AttributeError "epoch"))).
Proof.
  intros after.
  assert (Optimizer.epoch after = Some (Z.of_nat k) /\
          Optimizer.t after = Some 0 /\
          Optimizer._hooks after = Some [] /\
          Optimizer.target after = Some l) as (He & Ht & Hh & Htg).
  { subst after. induction k as [|k IH]; [done|].
    rewrite Nat.iter_succ. destruct IH as (He & Ht & Hh & Htg).
    set (o := Nat.iter k _ _) in *. clearbody o.
    unfold Optimizer.new_epoch, bind, get, put. simpl.
    rewrite He. simpl. repeat split; try done. f_equal. lia. }
  repeat split; try done.
  - unfold Optimizer.new_epoch, bind, get, put. simpl. by rewrite He.
  - intros Hnone. unfold Optimizer.new_epoch, bind, get, raise. simpl.
    by rewrite Hnone.
Qed.

Lemma Optimizer_new_epoch_counts_witness :
  Optimizer.new_epoch Optimizer.new =
    (Optimizer.new, Raise (AttributeError "epoch")).
Proof.
  apply (Optimizer_new_epoch_counts Optimizer.new [] 0). reflexivity.
Defined.


(** ** GradientMethod: the parameter updates *)

Section GradientMethodMoreFacts.
Import Optimizer GradientMethod.
Context {ext : GradientMethod.External}.

Lemma rule_update_disabled (rs : UpdateRule.st) :
  UpdateRule.enabled (UpdateRule.self (UpdateRule.w rs)) = false ->
  UpdateRule.update rs = (rs, Ret tt).
Proof.
  intros Hdis. unfold UpdateRule.update, bind, get. simpl. by rewrite Hdis.
Qed.

Lemma put_slot_target (i : nat) (slot : Link.slot) (s : st) (l : Link.link) :
  target (opt (w s)) = Some l ->
  put_slot i slot s = (on_opt (set_target (<[i := slot]> l)) s, Ret tt).
Proof.
  intros Hl. unfold put_slot, put_target, get_target, bind, get, modify, ret.
  simpl. by rewrite Hl.
Qed.

Lemma get_slot_eq (i : nat) (s : st) (l : Link.link) :
  target (opt (w s)) = Some l ->
  get_slot i s = (s, match l !! i with
                     | Some slot => Ret slot
                     | None => Raise (AttributeError "param")
                     end).
Proof.
  intros Hl. unfold get_slot, bind. rewrite (get_target_eq s l Hl).
  by destruct (l !! i).
Qed.

(** [param.update()] of one parameter does not touch another parameter,
    and not a frozen one. *)
Lemma param_update_keeps_frozen (i j : nat) (slot : Link.slot) (s : st) :
  frozen slot = true ->
  (target (opt (w s)) ≫= (fun l => l !! i)) = Some slot ->
  (target (opt (w (param_update j s).1)) ≫= (fun l => l !! i)) = Some slot.
Proof.
  intros Hfrozen Hi.
  destruct (target (opt (w s))) as [l|] eqn:Hl; [|done]. simpl in Hi.
  unfold param_update. unfold bind at 1.
  rewrite (get_slot_eq j s l Hl).
  destruct (l !! j) as [slot_j|] eqn:Hj; simpl; [|by rewrite Hl].
  destruct (Link.update_rule slot_j) as [rule|] eqn:Hrule; simpl;
    [|by rewrite Hl].
  destruct (decide (j = i)) as [->|Hne].
  - assert (slot_j = slot) as -> by congruence.
    unfold frozen in Hfrozen. rewrite Hrule in Hfrozen.
    apply negb_true_iff in Hfrozen.
    rewrite rule_update_disabled by done. simpl.
    unfold bind. rewrite (put_slot_target _ _ _ l) by done. simpl.
    rewrite list_lookup_insert_eq by (by eapply lookup_lt_Some).
    f_equal. destruct slot as [p r]. simpl in *. by rewrite Hrule.
  - destruct (UpdateRule.update _) as [rs r]. simpl.
    unfold bind. rewrite (put_slot_target _ _ _ l) by done. simpl.
    destruct r; simpl; by rewrite list_lookup_insert_ne.
Qed.

End GradientMethodMoreFacts.

(** X12.  [GradientMethod.update] leaves a frozen parameter alone.  If the
    hooks have returned and a parameter of the target then has no update
    rule, or a rule whose [enabled] is [False], the parameter has the
    same data, gradient and rule when [update] is over, whatever the
    update rules of the other parameters do and whether they return or
    raise. *)
Theorem GradientMethod_update_keeps_frozen
    (ext : GradientMethod.External) (s s2 : Optimizer.st) (l : Link.link)
    (i : nat) (slot : Link.slot) :
  @Optimizer.call_hooks (@GradientMethod.optimizer_external ext) s = (s2, Ret tt) ->
  Optimizer.target (Optimizer.opt (Optimizer.w s2)) = Some l ->
  l !! i = Some slot ->
  frozen slot = true ->
  exists l',
    Optimizer.target
      (Optimizer.opt (Optimizer.w (GradientMethod.update_parameters s).1)) = Some l' /\
    l' !! i = Some slot.
Proof.
  intros Hhooks Hl Hi Hfrozen.
  assert ((Optimizer.target
             (Optimizer.opt (Optimizer.w (GradientMethod.update_parameters s).1))
           ≫= (fun l' => l' !! i)) = Some slot) as Hkeep.
  { unfold GradientMethod.update_parameters. unfold bind at 1. rewrite Hhooks.
    unfold bind at 1. unfold GradientMethod.increment_t, bind at 1.
    unfold get at 1. simpl.
    destruct (Optimizer.t (Optimizer.opt (Optimizer.w s2))) as [n|];
      simpl; [|by rewrite Hl].
    unfold put. unfold bind at 1.
    rewrite (get_target_eq _ l) by done.
    apply (for_each_inv (fun s' =>
             (Optimizer.target (Optimizer.opt (Optimizer.w s'))
              ≫= (fun l' => l' !! i)) = Some slot)).
    - intros j s' Hs'. by apply param_update_keeps_frozen.
    - simpl. by rewrite Hl. }
  destruct (Optimizer.target
              (Optimizer.opt (Optimizer.w (GradientMethod.update_parameters s).1)))
    as [l'|]; [|done].
  by exists l'.
Qed.

Lemma GradientMethod_update_keeps_frozen_witness :
  exists l',
    Optimizer.target (Optimizer.opt (Optimizer.w
      (@GradientMethod.update_parameters example_method optimizer_frozen_b).1)) =
      Some l' /\
    l' !! 1%nat = Some frozen_b.
Proof.
  apply (GradientMethod_update_keeps_frozen example_method optimizer_frozen_b
           optimizer_frozen_b target_frozen_b 1%nat frozen_b);
    reflexivity.
Defined.

Section GradientMethodTraceFacts.
Import Optimizer GradientMethod.
Context {ext : GradientMethod.External}.





End GradientMethodTraceFacts.



(** X14.  [GradientMethod.update] on an optimizer without target ([setup]
    has not run): without loss function it raises [AttributeError] and
    neither changes nor calls anything; with a loss function, the loss
    function is called all the same, and the error is raised when the
    gradients are to be cleared, before [backward] is reached. *)
Theorem GradientMethod_update_before_setup
    (ext : GradientMethod.External) (args : list pyvalue) (s : Optimizer.st) :
  (Optimizer.target (Optimizer.opt (Optimizer.w s)) = None ->
   GradientMethod.update None args s = (s, Raise (AttributeError "target"))) /\
  (forall (lossfun : GradientMethod.lossfun_t) w1 loss,
     lossfun args (Optimizer.w s) = (w1, Ret loss) ->
     Optimizer.target (Optimizer.opt w1) = None ->
     GradientMethod.update (Some lossfun) args s =
       ({| Optimizer.w := w1; Optimizer.trace := Optimizer.trace s ++ [CallLossfun] |},
        Raise (AttributeError "target"))).
Proof.
  split.
  - intros Hnone.
    unfold GradientMethod.update, GradientMethod.update_gradients,
      GradientMethod.fill_absent_grads, GradientMethod.get_target,
      bind, get, ret, raise. simpl. by rewrite Hnone.
  - intros lossfun w1 loss Hloss Hnone.
    unfold GradientMethod.update, GradientMethod.update_gradients,
      GradientMethod.compute_gradients, GradientMethod.call_lossfun.
    unfold bind, get. simpl. rewrite Hloss.
    destruct (default false _);
      unfold GradientMethod.target_cleargrads, GradientMethod.target_zerograds,
        GradientMethod.get_target, bind, get, raise; simpl; by rewrite Hnone.
Qed.

Lemma GradientMethod_update_before_setup_witness :
  @GradientMethod.update example_method None [] optimizer_before_setup =
    (optimizer_before_setup, Raise (AttributeError "target")).
Proof.
  apply (GradientMethod_update_before_setup example_method [] optimizer_before_setup).
  reflexivity.
Defined.

(** ** The norm of the gradients *)

Section NormFacts.
Local Open Scope R_scope.



Lemma dot_self_nonneg (x : list R) : 0 <= dot x x.
Proof.
  rewrite dot_self. induction x as [|e x IH]; simpl; [lra|].
  apply Rplus_le_le_0_compat; [|exact IH].
  pose proof (Rle_0_sqr e) as He. unfold Rsqr in He. lra.
Qed.

Lemma dot_self_zero (x : list R) :
  dot x x = 0 <-> Forall (fun e => e = 0) x.
Proof.
  induction x as [|e x IH].
  - split; [by constructor | done].
  - pose proof (dot_self_nonneg x) as Hx.
    assert (dot (e :: x) (e :: x) = e * e + dot x x) as -> by done.
    assert (0 <= e * e) as He.
    { pose proof (Rle_0_sqr e) as H. unfold Rsqr in H. lra. }
    split.
    + intros Hsum.
      assert (e * e = 0) as He0 by lra.
      assert (dot x x = 0) as Hx0 by lra.
      constructor; [|by apply IH].
      destruct (Rmult_integral _ _ He0); done.
    + intros Hall. apply Forall_cons in Hall as [-> Hall].
      apply IH in Hall. rewrite Hall. lra.
Qed.

Lemma sum_of_squares_zero (arr : list ndarray) :
  GradientClipping.sum_of_squares arr = 0 <->
  Forall (fun a => Forall (fun e => e = 0) (elems a)) arr.
Proof.
  induction arr as [|a arr IH].
  - split; [by constructor | done].
  - rewrite sum_of_squares_cons.
    pose proof (dot_self_nonneg (elems a)) as Ha.
    pose proof (sum_of_squares_nonneg arr) as Harr.
    split.
    + intros Hsum. constructor.
      * apply dot_self_zero. lra.
      * apply IH. lra.
    + intros Hall. apply Forall_cons in Hall as [Ha0 Hall].
      apply dot_self_zero in Ha0. apply IH in Hall. lra.
Qed.

End NormFacts.



Section ClipFacts.
Import Optimizer.
Local Open Scope R_scope.

Lemma namedparams_fmap_aux (b : bool) (f : Link.slot -> Link.slot) (l : Link.link) :
  (forall s, Link.initialized (f s) = Link.initialized s /\
             name (Link.param (f s)) = name (Link.param s)) ->
  forall h : nat -> nat,
    omap (fun '(i, s) =>
            if b || Link.initialized s then Some (name (Link.param s), i)
            else None)
         (imap (fun i s => (h i, s)) (f <$> l)) =
    omap (fun '(i, s) =>
            if b || Link.initialized s then Some (name (Link.param s), i)
            else None)
         (imap (fun i s => (h i, s)) l).
Proof.
  intros Hf. induction l as [|s l IH]; intros h; [done|].
  simpl. destruct (Hf s) as [-> ->].
  destruct (b || Link.initialized s); simpl; [f_equal|]; exact (IH (h ∘ S)).
Qed.

Lemma params_fmap (b : bool) (f : Link.slot -> Link.slot) (l : Link.link) :
  (forall s, Link.initialized (f s) = Link.initialized s /\
             name (Link.param (f s)) = name (Link.param s)) ->
  Link.params b (f <$> l) = Link.params b l.
Proof.
  intros Hf. unfold Link.params, Link.namedparams.
  f_equal. exact (namedparams_fmap_aux b f l Hf (fun i => i)).
Qed.

Lemma scaled_keeps (rate : R) (s : Link.slot) :
  Link.initialized (GradientClipping.scaled rate s) = Link.initialized s /\
  name (Link.param (GradientClipping.scaled rate s)) = name (Link.param s).
Proof.
  unfold GradientClipping.scaled, Link.initialized.
  destruct s as [[n [d|] g] r]; simpl; done.
Qed.

(** The gradients that the hook visits, after the scaling. *)
Lemma grads_scaled (rate : R) (l : Link.link) :
  GradientClipping.grads (map (GradientClipping.scaled rate) l) =
    (fun g : option ndarray => GradientClipping.imul rate <$> g) <$>
      GradientClipping.grads l.
Proof.
  unfold GradientClipping.grads.
  change (map (GradientClipping.scaled rate) l)
    with (GradientClipping.scaled rate <$> l).
  rewrite (params_fmap false _ l (scaled_keeps rate)).
  rewrite <- list_fmap_compose. apply Forall_fmap_ext_1, Forall_forall.
  intros i Hi.
  apply elem_of_params in Hi as (slot & Hl & Hinit). simpl in Hinit.
  rewrite list_lookup_fmap, Hl. simpl.
  unfold GradientClipping.scaled. rewrite Hinit, Hl. done.
Qed.

Lemma sum_of_squares_imul (rate : R) (arr : list ndarray) :
  GradientClipping.sum_of_squares (GradientClipping.imul rate <$> arr) =
    rate * rate * GradientClipping.sum_of_squares arr.
Proof.
  induction arr as [|a arr IH].
  - unfold GradientClipping.sum_of_squares. simpl. lra.
  - rewrite fmap_cons, !sum_of_squares_cons, IH.
    assert (dot (elems (GradientClipping.imul rate a))
                (elems (GradientClipping.imul rate a)) =
            rate * rate * dot (elems a) (elems a)) as ->; [|lra].
    simpl. induction (elems a) as [|e x IHx]; unfold dot in *; simpl; [lra|].
    rewrite IHx. lra.
Qed.

Lemma GradientClipping_call_eq (T : R) (w : world) (l : Link.link)
    (arr : list ndarray) :
  target (opt w) = Some l ->
  GradientClipping.grads l = Some <$> arr ->
  let N := sqrt (GradientClipping.sum_of_squares arr) in
  GradientClipping.__call__ T w =
    if lt_one (true_div T N) then
      match true_div T N with
      | Finite r =>
          Some (set_opt (set_target (map (GradientClipping.scaled r) l) (opt w)) w,
                Ret tt)
      | _ => None
      end
    else Some (w, Ret tt).
Proof.
  intros Htarget Hgrads N. unfold GradientClipping.__call__.
  rewrite Htarget, Hgrads, mapM_fmap_Some by done.
  rewrite sum_sqnorm_total. fold N.
  destruct (lt_one (true_div T N)); [|done].
  destruct (true_div T N); try done. by rewrite scale_grads_map.
Qed.

Lemma GradientClipping_noop (T : R) (w : world) (l : Link.link)
    (arr : list ndarray) :
  target (opt w) = Some l ->
  GradientClipping.grads l = Some <$> arr ->
  sqrt (GradientClipping.sum_of_squares arr) <= T ->
  GradientClipping.__call__ T w = Some (w, Ret tt).
Proof.
  intros Htarget Hgrads Hle.
  rewrite (GradientClipping_call_eq T w l arr Htarget Hgrads).
  set (N := sqrt _) in *.
  assert (0 <= N) as HN by apply sqrt_pos.
  unfold true_div. destruct (Req_dec_T N 0) as [H0|Hne].
  - destruct (Rlt_dec 0 T); [done|]. destruct (Rlt_dec T 0); [lra|done].
  - simpl. destruct (Rlt_dec (T / N) 1) as [Hlt|]; [|done].
    assert (0 < N) as Hpos by lra.
    apply (proj1 (div_lt_one T N Hpos)) in Hlt. lra.
Qed.

End ClipFacts.

(** X16.  [clip_grads] with a threshold [T >= 0] brings the norm of the
    gradients, as [compute_grads_norm] computes it, down to [T] when it
    was above and leaves it when it was not: the norm afterwards is the
    smaller of the norm before and [T].  Clipping a second time with the
    same threshold changes nothing. *)
Theorem Optimizer_clip_grads_bounds_norm
    (T : R) (w : Optimizer.world) (l : Link.link) (arr : list ndarray) :
  Optimizer.target (Optimizer.opt w) = Some l ->
  GradientClipping.grads l = Some <$> arr ->
  (0 <= T)%R ->
  exists w',
    OptimizerGrads.compute_grads_norm w =
      Ret (sqrt (GradientClipping.sum_of_squares arr)) /\
    OptimizerGrads.clip_grads T w = Some (w', Ret tt) /\
    OptimizerGrads.compute_grads_norm w' =
      Ret (Rmin (sqrt (GradientClipping.sum_of_squares arr)) T) /\
    OptimizerGrads.clip_grads T w' = Some (w', Ret tt).
Proof.
  intros Htarget Hgrads HT.
  set (N := sqrt (GradientClipping.sum_of_squares arr)).
  assert (0 <= N)%R as HN by apply sqrt_pos.
  assert (forall w0 l0 arr0,
            Optimizer.target (Optimizer.opt w0) = Some l0 ->
            GradientClipping.grads l0 = Some <$> arr0 ->
            OptimizerGrads.compute_grads_norm w0 =
              Ret (sqrt (GradientClipping.sum_of_squares arr0))) as Hnorm.
  { intros w0 l0 arr0 H1 H2. unfold OptimizerGrads.compute_grads_norm.
    by rewrite H1, H2, mapM_fmap_Some, sum_sqnorm_total. }
  unfold OptimizerGrads.clip_grads.
  destruct (Rlt_dec T N) as [Hlt|Hge].
  - assert (0 < N)%R as Hpos by lra.
    set (r := (T / N)%R).
    assert (0 <= r)%R as Hr.
    { unfold r. apply Rmult_le_pos; [done|]. left. by apply Rinv_0_lt_compat. }
    set (w' := Optimizer.set_opt
                 (Optimizer.set_target (map (GradientClipping.scaled r) l)
                                       (Optimizer.opt w)) w).
    assert (GradientClipping.grads (map (GradientClipping.scaled r) l) =
            Some <$> (GradientClipping.imul r <$> arr)) as Hgrads'.
    { rewrite grads_scaled, Hgrads, <- !list_fmap_compose. done. }
    assert (sqrt (GradientClipping.sum_of_squares (GradientClipping.imul r <$> arr))
            = T) as Hnew.
    { rewrite sum_of_squares_imul, sqrt_mult;
        [|nra|apply sum_of_squares_nonneg].
      rewrite sqrt_square by done. fold N. unfold r. field. lra. }
    exists w'. split; [by apply (Hnorm w l arr)|]. split; [|split].
    + rewrite (GradientClipping_call_eq T w l arr Htarget Hgrads). fold N.
      rewrite true_div_pos by done. simpl.
      destruct (Rlt_dec (T / N) 1) as [|Hn]; [done|].
      exfalso. apply Hn. by apply div_lt_one.
    + rewrite (Hnorm w' _ _ eq_refl Hgrads'), Hnew.
      by rewrite Rmin_right by lra.
    + apply (GradientClipping_noop T w' _ _ eq_refl Hgrads'). rewrite Hnew. lra.
  - exists w. split; [by apply (Hnorm w l arr)|].
    assert (GradientClipping.__call__ T w = Some (w, Ret tt)) as Hnoop.
    { apply (GradientClipping_noop T w l arr Htarget Hgrads). fold N. lra. }
    split; [done|]. split; [|done].
    rewrite (Hnorm w l arr Htarget Hgrads). fold N.
    by rewrite Rmin_left by lra.
Qed.

Lemma Optimizer_clip_grads_bounds_norm_witness :
  exists w',
    OptimizerGrads.clip_grads 1 clipping_world = Some (w', Ret tt) /\
    OptimizerGrads.compute_grads_norm w' =
      Ret (Rmin (sqrt (GradientClipping.sum_of_squares [grad_3_4])) 1).
Proof.
  destruct (Optimizer_clip_grads_bounds_norm 1 clipping_world _ [grad_3_4]
              eq_refl eq_refl) as (w' & _ & Hclip & Hnorm & _); [lra|].
  by exists w'.
Defined.

Section ZeroGradsFacts.
Import Optimizer.
Local Open Scope R_scope.

Lemma zerograds_keeps (s : Link.slot) :
  Link.initialized (Link.set_param (Link.zerograd (Link.param s)) s) =
    Link.initialized s /\
  name (Link.param (Link.set_param (Link.zerograd (Link.param s)) s)) =
    name (Link.param s).
Proof.
  unfold Link.initialized, Link.zerograd.
  destruct s as [[n [d|] [g|]] r]; simpl; done.
Qed.

Lemma zerograd_data (p : Param) : data (Link.zerograd p) = data p.
Proof. unfold Link.zerograd. by destruct p as [n [d|] [g|]]. Qed.

(** After [zerograds] every gradient that the hooks visit is an array of
    zeros. *)
Lemma grads_zerograds (l : Link.link) :
  exists arr,
    GradientClipping.grads (Link.zerograds l) = Some <$> arr /\
    Forall (fun a => Forall (fun e => e = 0) (elems a)) arr.
Proof.
  unfold GradientClipping.grads, Link.zerograds.
  change (map ?f l) with (f <$> l).
  rewrite (params_fmap false _ l zerograds_keeps).
  assert (forall idx : list nat,
            (forall i, i ∈ idx -> i ∈ Link.params false l) ->
            exists arr,
              (fun i => slot ← ((fun s => Link.set_param (Link.zerograd (Link.param s)) s)
                                  <$> l) !! i;
                        grad (Link.param slot)) <$> idx = Some <$> arr /\
              Forall (fun a => Forall (fun e => e = 0) (elems a)) arr) as Hgen.
  { induction idx as [|i idx IH]; intros Hidx.
    - exists []. split; [done|constructor].
    - destruct IH as (arr & Harr & Hzero).
      { intros j Hj. apply Hidx. by apply list_elem_of_further. }
      destruct (proj1 (elem_of_params false l i)) as (slot & Hl & Hinit).
      { apply Hidx. apply list_elem_of_here. }
      simpl in Hinit. unfold Link.initialized in Hinit.
      destruct (data (Link.param slot)) as [d|] eqn:Hd; [|done].
      set (z := match grad (Link.param slot) with
                | Some g => zeros_like g
                | None => zeros_like d
                end).
      exists (z :: arr). split.
      + rewrite !fmap_cons, Harr. f_equal.
        rewrite list_lookup_fmap, Hl. simpl.
        unfold Link.zerograd, z. rewrite Hd.
        by destruct (grad (Link.param slot)).
      + constructor; [|done]. unfold z.
        destruct (grad (Link.param slot)) as [g|].
        * pose proof (zeros_like_spec g). tauto.
        * pose proof (zeros_like_spec d). tauto. }
  apply Hgen. done.
Qed.

End ZeroGradsFacts.

(** X17.  After [zero_grads] the norm that [compute_grads_norm] returns is
    zero, whatever the gradients were before and also where a parameter
    had no gradient yet; the data of the parameters is as before. *)
Theorem Optimizer_zero_grads_norm (w : Optimizer.world) (l : Link.link) :
  Optimizer.target (Optimizer.opt w) = Some l ->
  exists w' l',
    OptimizerGrads.zero_grads w = (w', Ret tt) /\
    Optimizer.target (Optimizer.opt w') = Some l' /\
    (fun s => data (Link.param s)) <$> l' = (fun s => data (Link.param s)) <$> l /\
    OptimizerGrads.compute_grads_norm w' = Ret 0%R.
Proof.
  intros Htarget.
  exists (Optimizer.set_opt (Optimizer.set_target (Link.zerograds l) (Optimizer.opt w)) w),
         (Link.zerograds l).
  split; [|split; [|split]].
  - unfold OptimizerGrads.zero_grads. by rewrite Htarget.
  - done.
  - unfold Link.zerograds. change (map ?f l) with (f <$> l).
    rewrite <- list_fmap_compose. apply Forall_fmap_ext_1, Forall_forall.
    intros s _. simpl. apply zerograd_data.
  - unfold OptimizerGrads.compute_grads_norm. simpl.
    destruct (grads_zerograds l) as (arr & -> & Hzero).
    rewrite mapM_fmap_Some by done. rewrite sum_sqnorm_total.
    apply sum_of_squares_zero in Hzero. rewrite Hzero. by rewrite sqrt_0.
Qed.

Lemma Optimizer_zero_grads_norm_witness :
  exists w',
    OptimizerGrads.zero_grads clipping_world = (w', Ret tt) /\
    OptimizerGrads.compute_grads_norm w' = Ret 0%R.
Proof.
  destruct (Optimizer_zero_grads_norm clipping_world _ eq_refl)
    as (w' & l' & Hzero & _ & _ & Hnorm).
  by exists w'.
Defined.

Section HookFacts.
Import Optimizer.
Local Open Scope R_scope.

(** A loop whose body succeeds at every position it visits rewrites the
    slots at these positions. *)
Lemma for_params_succeeds {A : Type}
    (body : A -> Param -> option (outcome Param)) (f : A -> Param -> Param)
    (items : list (nat * A)) :
  NoDup items.*1 ->
  forall l0 : Link.link,
    (forall i a slot, (i, a) ∈ items -> l0 !! i = Some slot ->
       body a (Link.param slot) = Some (Ret (f a (Link.param slot)))) ->
    HookFunctions.for_params body items l0 =
      Some (foldl (fun l '(i, a) =>
                     match l !! i with
                     | Some slot => <[i := Link.set_param (f a (Link.param slot)) slot]> l
                     | None => l
                     end) l0 items, Ret tt).
Proof.
  induction items as [|[i a] items IH]; intros Hnd l0 Hbody; [done|].
  apply NoDup_cons in Hnd as [Hi Hnd].
  unfold HookFunctions.for_params. simpl.
  destruct (l0 !! i) as [slot|] eqn:Hl.
  - rewrite (Hbody i a slot) by (done || apply list_elem_of_here).
    apply (IH Hnd). intros j b slot' Hin Hj.
    assert (j <> i) as Hne.
    { intros ->. apply Hi. apply list_elem_of_fmap. by exists (i, b). }
    rewrite list_lookup_insert_ne in Hj by done.
    apply (Hbody j b slot'); [by apply list_elem_of_further | done].
  - apply (IH Hnd). intros j b slot' Hin Hj.
    apply (Hbody j b slot'); [by apply list_elem_of_further | done].
Qed.

(** The loop of a hook function over [params(False)], when its body
    succeeds on every parameter that has data. *)
Lemma hook_loop_map (body : unit -> Param -> option (outcome Param))
    (f : Param -> Param) (l : Link.link) :
  (forall slot, slot ∈ l -> Link.initialized slot = true ->
     body tt (Link.param slot) = Some (Ret (f (Link.param slot)))) ->
  HookFunctions.for_params body (HookFunctions.params_items l) l =
    Some ((fun slot => if Link.initialized slot
                       then Link.set_param (f (Link.param slot)) slot
                       else slot) <$> l, Ret tt).
Proof.
  intros Hbody. unfold HookFunctions.params_items.
  rewrite (for_params_succeeds body (fun _ => f)).
  - f_equal. f_equal. rewrite foldl_fmap. apply list_eq. intros j.
    rewrite (foldl_at_positions
               (fun slot => Link.set_param (f (Link.param slot)) slot))
      by apply NoDup_params.
    rewrite list_lookup_fmap.
    destruct (decide (j ∈ Link.params false l)) as [Hj|Hj].
    + apply elem_of_params in Hj as (slot & Hl & Hinit). simpl in Hinit.
      rewrite Hl. simpl. by rewrite Hinit.
    + destruct (l !! j) as [slot|] eqn:Hl; [|done]. simpl.
      destruct (Link.initialized slot) eqn:Hinit; [|done].
      exfalso. apply Hj. apply elem_of_params. eauto.
  - rewrite <- list_fmap_compose. simpl.
    rewrite list_fmap_id. apply NoDup_params.
  - intros i [] slot Hin Hl.
    apply list_elem_of_fmap in Hin as (j & [= <-] & Hj).
    apply elem_of_params in Hj as (slot' & Hl' & Hinit). simpl in Hinit.
    rewrite Hl in Hl'. injection Hl' as <-.
    apply Hbody; [|done]. by eapply list_elem_of_lookup_2.
Qed.

(** The update of the parameter by [g += rate * h p]. *)
Lemma shifted_eq (h : ndarray -> ndarray) (rate : R) (slot : Link.slot) :
  HookFunctions.shifted h rate slot =
    Link.set_param
      (match data (Link.param slot), grad (Link.param slot) with
       | Some p, Some g =>
           set_grad (Some (HookFunctions.plus g (HookFunctions.rmul rate (h p))))
                    (Link.param slot)
       | _, _ => Link.param slot
       end) slot.
Proof.
  unfold HookFunctions.shifted.
  destruct slot as [[n [d|] [g|]] r]; simpl; done.
Qed.

Lemma hook_shift_loop (body : unit -> Param -> option (outcome Param))
    (h : ndarray -> ndarray) (rate : R) (l : Link.link) :
  (forall prm p g, data prm = Some p -> grad prm = Some g ->
     HookFunctions.fits g p ->
     body tt prm =
       Some (Ret (set_grad (Some (HookFunctions.plus g (HookFunctions.rmul rate (h p))))
                           prm))) ->
  HookFunctions.grads_fit l ->
  HookFunctions.for_params body (HookFunctions.params_items l) l =
    Some (HookFunctions.shifted h rate <$> l, Ret tt).
Proof.
  intros Hbody Hfit.
  rewrite (hook_loop_map body
             (fun prm => match data prm, grad prm with
                         | Some p, Some g =>
                             set_grad (Some (HookFunctions.plus g
                                               (HookFunctions.rmul rate (h p)))) prm
                         | _, _ => prm
                         end)).
  - f_equal. f_equal. apply Forall_fmap_ext_1, Forall_forall. intros slot _.
    rewrite shifted_eq. unfold Link.initialized.
    destruct slot as [[n [d|] [g|]] r]; simpl; done.
  - intros slot Hin Hinit.
    unfold HookFunctions.grads_fit in Hfit.
    rewrite Forall_forall in Hfit. specialize (Hfit slot Hin).
    unfold Link.initialized in Hinit.
    destruct (data (Link.param slot)) as [p|] eqn:Hp; [|done].
    destruct (grad (Link.param slot)) as [g|] eqn:Hg; [|done].
    by apply Hbody.
Qed.

Lemma WeightDecay_body_eq (rate : R) (prm : Param) (p g : ndarray) :
  data prm = Some p -> grad prm = Some g -> HookFunctions.fits g p ->
  HookFunctions.WeightDecay_body rate tt prm =
    Some (Ret (set_grad (Some (HookFunctions.plus g (HookFunctions.rmul rate p)))
                        prm)).
Proof.
  intros Hp Hg Hfit.
  unfold HookFunctions.WeightDecay_body, HookFunctions.WeightDecay_kernel,
    HookFunctions.iadd.
  rewrite Hp, Hg.
  rewrite (decide_True (P := HookFunctions.fits g (HookFunctions.rmul rate p))).
  - by destruct (decide _).
  - unfold HookFunctions.fits in *. simpl. by rewrite length_fmap.
Qed.

Lemma Lasso_body_eq (rate : R) (prm : Param) (p g : ndarray) :
  data prm = Some p -> grad prm = Some g -> HookFunctions.fits g p ->
  HookFunctions.Lasso_body rate tt prm =
    Some (Ret (set_grad (Some (HookFunctions.plus g
                                 (HookFunctions.rmul rate (HookFunctions.sign_of p))))
                        prm)).
Proof.
  intros Hp Hg Hfit.
  unfold HookFunctions.Lasso_body, HookFunctions.Lasso_kernel,
    HookFunctions.iadd.
  rewrite Hp, Hg.
  rewrite (decide_True
             (P := HookFunctions.fits g
                     (HookFunctions.rmul rate (HookFunctions.sign_of p)))).
  - by destruct (decide _).
  - unfold HookFunctions.fits in *. simpl. by rewrite !length_fmap.
Qed.

Lemma with_target_eq (f : Link.link -> option (Link.link * outcome unit))
    (w : world) (l l' : Link.link) (r : outcome unit) :
  target (opt w) = Some l -> f l = Some (l', r) ->
  HookFunctions.with_target f w =
    Some (set_opt (set_target l' (opt w)) w, r).
Proof.
  intros Ht Hf. unfold HookFunctions.with_target. by rewrite Ht, Hf.
Qed.

Lemma WeightDecay_eq (rate : R) (w : world) (l : Link.link) :
  target (opt w) = Some l -> HookFunctions.grads_fit l ->
  HookFunctions.WeightDecay rate w =
    Some (set_opt (set_target (HookFunctions.shifted (fun p => p) rate <$> l)
                              (opt w)) w, Ret tt).
Proof.
  intros Ht Hfit. apply (with_target_eq _ w l); [done|].
  apply (hook_shift_loop _ (fun p => p)); [|done].
  intros prm p g. apply WeightDecay_body_eq.
Qed.

Lemma Lasso_eq (rate : R) (w : world) (l : Link.link) :
  target (opt w) = Some l -> HookFunctions.grads_fit l ->
  HookFunctions.Lasso rate w =
    Some (set_opt (set_target (HookFunctions.shifted HookFunctions.sign_of rate <$> l)
                              (opt w)) w, Ret tt).
Proof.
  intros Ht Hfit. apply (with_target_eq _ w l); [done|].
  apply (hook_shift_loop _ HookFunctions.sign_of); [|done].
  intros prm p g. apply Lasso_body_eq.
Qed.

(** The shift keeps the data, and with it the fit of the gradients. *)
Lemma grads_fit_shifted (h : ndarray -> ndarray) (rate : R) (l : Link.link) :
  (forall p, length (elems (h p)) = length (elems p)) ->
  HookFunctions.grads_fit l ->
  HookFunctions.grads_fit (HookFunctions.shifted h rate <$> l).
Proof.
  intros Hh. unfold HookFunctions.grads_fit. rewrite Forall_fmap.
  intros Hfit. eapply Forall_impl; [exact Hfit|].
  intros slot. simpl. unfold HookFunctions.shifted.
  destruct (data (Link.param slot)) as [p|] eqn:Hp; [|by rewrite Hp].
  destruct (grad (Link.param slot)) as [g|] eqn:Hg; [|done].
  cbn [Link.set_param Link.param set_grad data grad]. rewrite Hp.
  unfold HookFunctions.fits. simpl. intros (Hdev & Hshape & Hlen).
  repeat split; [done..|].
  rewrite length_zip_with, length_fmap, Hh. lia.
Qed.

Lemma zip_plus_rates (a b : R) (x : list R) :
  forall g : list R,
    zip_with Rplus (zip_with Rplus g ((fun e => a * e) <$> x))
                   ((fun e => b * e) <$> x) =
    zip_with Rplus g ((fun e => (a + b) * e) <$> x).
Proof.
  induction x as [|e x IH]; intros [|e' g]; try done.
  rewrite !fmap_cons. simpl. f_equal; [lra|]. apply IH.
Qed.

Lemma zip_plus_swap (x y : list R) :
  forall g : list R,
    zip_with Rplus (zip_with Rplus g x) y = zip_with Rplus (zip_with Rplus g y) x.
Proof.
  revert y. induction x as [|e x IH]; intros [|e' y] [|e'' g]; try done.
  simpl. f_equal; [lra|]. apply IH.
Qed.

Lemma set_target_twice (l l' : Link.link) (w : world) :
  set_opt (set_target l' (opt (set_opt (set_target l (opt w)) w)))
          (set_opt (set_target l (opt w)) w) =
  set_opt (set_target l' (opt w)) w.
Proof. done. Qed.

Lemma shifted_rates (h : ndarray -> ndarray) (a b : R) (slot : Link.slot) :
  HookFunctions.shifted h b (HookFunctions.shifted h a slot) =
    HookFunctions.shifted h (a + b) slot.
Proof.
  unfold HookFunctions.shifted.
  destruct slot as [[n [p|] [g|]] r]; simpl; try done.
  unfold Link.set_param, set_grad, HookFunctions.plus. simpl.
  do 4 f_equal. apply zip_plus_rates.
Qed.

Lemma shifted_swap (h h' : ndarray -> ndarray) (a b : R) (slot : Link.slot) :
  HookFunctions.shifted h' b (HookFunctions.shifted h a slot) =
    HookFunctions.shifted h a (HookFunctions.shifted h' b slot).
Proof.
  unfold HookFunctions.shifted.
  destruct slot as [[n [p|] [g|]] r]; simpl; try done.
  unfold Link.set_param, set_grad, HookFunctions.plus. simpl.
  do 4 f_equal. apply zip_plus_swap.
Qed.

(** What the shift does to the parameter of one slot, element by
    element, when [h] works element by element. *)
Lemma shifted_slot_spec (h : ndarray -> ndarray) (hf : R -> R) (rate : R)
    (slot : Link.slot) :
  (forall p, elems (h p) = hf <$> elems p) ->
  match data (Link.param slot) with
  | None => True
  | Some p =>
      match grad (Link.param slot) with
      | Some g => HookFunctions.fits g p
      | None => False
      end
  end ->
  let slot' := HookFunctions.shifted h rate slot in
  Link.update_rule slot' = Link.update_rule slot /\
  name (Link.param slot') = name (Link.param slot) /\
  data (Link.param slot') = data (Link.param slot) /\
  match data (Link.param slot) with
  | None => grad (Link.param slot') = grad (Link.param slot)
  | Some p =>
      exists g g',
        grad (Link.param slot) = Some g /\
        grad (Link.param slot') = Some g' /\
        device g' = device g /\ shape g' = shape g /\ adtype g' = adtype g /\
        length (elems g') = length (elems g) /\
        forall k ge pe,
          elems g !! k = Some ge -> elems p !! k = Some pe ->
          elems g' !! k = Some (ge + rate * hf pe)
  end.
Proof.
  intros Hh Hfit slot'. unfold slot', HookFunctions.shifted.
  destruct (data (Link.param slot)) as [p|] eqn:Hp; [|by rewrite Hp].
  destruct (grad (Link.param slot)) as [g|] eqn:Hg; [|done].
  simpl. rewrite Hp. repeat split.
  exists g, (HookFunctions.plus g (HookFunctions.rmul rate (h p))).
  destruct Hfit as (_ & _ & Hlen).
  repeat split; try done.
  - simpl. rewrite length_zip_with, length_fmap, Hh, length_fmap. lia.
  - intros k ge pe Hge Hpe. simpl.
    rewrite lookup_zip_with, Hge. simpl.
    by rewrite list_lookup_fmap, Hh, list_lookup_fmap, Hpe.
Qed.

End HookFacts.

(** X18.  Array elements are real numbers here.  On a target where every
    parameter with data has a gradient of the same shape on the same
    device, [WeightDecay(a)] returns, and afterwards the target has the
    same parameters with the same names, data and update rules; in the
    gradient of a parameter with data every element [ge] has become
    [ge + a * pe], [pe] being the element of the data at the same place,
    on the host and on a device alike, and a parameter without data is as
    it was.  The deprecated method [weight_decay] does the same: decaying
    with [a] and then with [b] gives what decaying once with [a + b]
    gives. *)
Theorem WeightDecay_rates_add
    (a b : R) (w : Optimizer.world) (l : Link.link) :
  Optimizer.target (Optimizer.opt w) = Some l ->
  HookFunctions.grads_fit l ->
  exists w1 w2 l1,
    HookFunctions.WeightDecay a w = Some (w1, Ret tt) /\
    Optimizer.target (Optimizer.opt w1) = Some l1 /\
    length l1 = length l /\
    (forall i slot, l !! i = Some slot ->
       exists slot',
         l1 !! i = Some slot' /\
         Link.update_rule slot' = Link.update_rule slot /\
         name (Link.param slot') = name (Link.param slot) /\
         data (Link.param slot') = data (Link.param slot) /\
         match data (Link.param slot) with
         | None => grad (Link.param slot') = grad (Link.param slot)
         | Some p =>
             exists g g',
               grad (Link.param slot) = Some g /\
               grad (Link.param slot') = Some g' /\
               device g' = device g /\ shape g' = shape g /\
               adtype g' = adtype g /\
               length (elems g') = length (elems g) /\
               forall k ge pe,
                 elems g !! k = Some ge -> elems p !! k = Some pe ->
                 elems g' !! k = Some (ge + a * pe)%R
         end) /\
    OptimizerGrads.weight_decay b w1 = Some (w2, Ret tt) /\
    HookFunctions.WeightDecay (a + b) w = Some (w2, Ret tt).
Proof.
  intros Htarget Hfit.
  set (l1 := HookFunctions.shifted (fun p => p) a <$> l).
  set (w1 := Optimizer.set_opt (Optimizer.set_target l1 (Optimizer.opt w)) w).
  exists w1,
    (Optimizer.set_opt
       (Optimizer.set_target (HookFunctions.shifted (fun p => p) (a + b) <$> l)
                             (Optimizer.opt w)) w), l1.
  split; [by apply WeightDecay_eq|]. split; [done|].
  split; [unfold l1; by rewrite length_fmap|]. split; [|split].
  - intros i slot Hi. exists (HookFunctions.shifted (fun p => p) a slot).
    split; [unfold l1; by rewrite list_lookup_fmap, Hi|].
    apply (shifted_slot_spec (fun p => p) (fun e => e) a slot).
    + intros p. by rewrite list_fmap_id.
    + unfold HookFunctions.grads_fit in Hfit. rewrite Forall_forall in Hfit.
      apply Hfit. by eapply list_elem_of_lookup_2.
  - unfold OptimizerGrads.weight_decay.
    rewrite (WeightDecay_eq b w1 l1 eq_refl)
      by (by apply grads_fit_shifted).
    unfold w1. rewrite set_target_twice.
    assert (HookFunctions.shifted (fun p => p) b <$> l1 =
            HookFunctions.shifted (fun p => p) (a + b) <$> l) as ->; [|done].
    unfold l1. rewrite <- list_fmap_compose.
    apply Forall_fmap_ext_1, Forall_forall. intros slot _.
    apply shifted_rates.
  - by apply WeightDecay_eq.
Qed.

Lemma WeightDecay_rates_add_witness :
  exists w1 w2 l1 slot' g',
    HookFunctions.WeightDecay 2 clipping_world = Some (w1, Ret tt) /\
    Optimizer.target (Optimizer.opt w1) = Some l1 /\
    l1 !! 0%nat = Some slot' /\
    grad (Link.param slot') = Some g' /\
    elems g' !! 0%nat = Some (3 + 2 * 5)%R /\
    elems g' !! 1%nat = Some (4 + 2 * 7)%R /\
    OptimizerGrads.weight_decay 3 w1 = Some (w2, Ret tt) /\
    HookFunctions.WeightDecay (2 + 3) clipping_world = Some (w2, Ret tt).
Proof.
  destruct (WeightDecay_rates_add 2 3 clipping_world _ eq_refl)
    as (w1 & w2 & l1 & H1 & Hl1 & _ & Hslots & H2 & H3).
  { repeat constructor. }
  destruct (Hslots 0%nat _ eq_refl)
    as (slot' & Hslot' & _ & _ & _ & g & g' & Hg & Hg' & _ & _ & _ & _ & Helems).
  injection Hg as <-.
  exists w1, w2, l1, slot', g'. repeat split; try done.
  - by apply (Helems 0%nat).
  - by apply (Helems 1%nat).
Defined.

(** X19.  Array elements are real numbers here.  On a target where every
    parameter with data has a gradient of the same shape on the same
    device, [Lasso(a)] returns, and afterwards the target has the same
    parameters with the same names, data and update rules; in the
    gradient of a parameter with data every element [ge] has become
    [ge + a] where the element of the data at the same place is positive,
    [ge - a] where it is negative and is [ge] where it is zero.  The hook
    can be swapped with [WeightDecay(b)]: the two give the same result in
    either order; and [Lasso(a)] followed by [Lasso(b)] gives what
    [Lasso(a + b)] gives. *)
Theorem Lasso_commutes_with_WeightDecay
    (a b : R) (w : Optimizer.world) (l : Link.link) :
  Optimizer.target (Optimizer.opt w) = Some l ->
  HookFunctions.grads_fit l ->
  exists w1 w2 w12 w3 l1,
    HookFunctions.Lasso a w = Some (w1, Ret tt) /\
    Optimizer.target (Optimizer.opt w1) = Some l1 /\
    length l1 = length l /\
    (forall i slot, l !! i = Some slot ->
       exists slot',
         l1 !! i = Some slot' /\
         Link.update_rule slot' = Link.update_rule slot /\
         name (Link.param slot') = name (Link.param slot) /\
         data (Link.param slot') = data (Link.param slot) /\
         match data (Link.param slot) with
         | None => grad (Link.param slot') = grad (Link.param slot)
         | Some p =>
             exists g g',
               grad (Link.param slot) = Some g /\
               grad (Link.param slot') = Some g' /\
               device g' = device g /\ shape g' = shape g /\
               adtype g' = adtype g /\
               length (elems g') = length (elems g) /\
               forall k ge pe,
                 elems g !! k = Some ge -> elems p !! k = Some pe ->
                 elems g' !! k =
                   Some (ge + a * (if Rlt_dec 0 pe then 1
                                   else if Rlt_dec pe 0 then -1 else 0))%R
         end) /\
    HookFunctions.WeightDecay b w = Some (w2, Ret tt) /\
    HookFunctions.WeightDecay b w1 = Some (w12, Ret tt) /\
    HookFunctions.Lasso a w2 = Some (w12, Ret tt) /\
    HookFunctions.Lasso b w1 = Some (w3, Ret tt) /\
    HookFunctions.Lasso (a + b) w = Some (w3, Ret tt).
Proof.
  intros Htarget Hfit.
  set (on l' := Optimizer.set_opt (Optimizer.set_target l' (Optimizer.opt w)) w).
  set (l1 := HookFunctions.shifted HookFunctions.sign_of a <$> l).
  set (l2 := HookFunctions.shifted (fun p => p) b <$> l).
  assert (HookFunctions.grads_fit l1) as Hfit1.
  { apply grads_fit_shifted; [|done]. intros p. simpl. by rewrite length_fmap. }
  assert (HookFunctions.grads_fit l2) as Hfit2 by (by apply grads_fit_shifted).
  exists (on l1), (on l2),
    (on (HookFunctions.shifted (fun p => p) b <$> l1)),
    (on (HookFunctions.shifted HookFunctions.sign_of (a + b) <$> l)), l1.
  split; [by apply Lasso_eq|]. split; [done|].
  split; [unfold l1; by rewrite length_fmap|]. split.
  { intros i slot Hi. exists (HookFunctions.shifted HookFunctions.sign_of a slot).
    split; [unfold l1; by rewrite list_lookup_fmap, Hi|].
    apply (shifted_slot_spec HookFunctions.sign_of sign a slot).
    + done.
    + unfold HookFunctions.grads_fit in Hfit. rewrite Forall_forall in Hfit.
      apply Hfit. by eapply list_elem_of_lookup_2. }
  split; [by apply WeightDecay_eq|]. split; [|split; [|split]].
  - rewrite (WeightDecay_eq b (on l1) l1 eq_refl Hfit1).
    unfold on. by rewrite set_target_twice.
  - rewrite (Lasso_eq a (on l2) l2 eq_refl Hfit2).
    unfold on. rewrite set_target_twice.
    assert (HookFunctions.shifted HookFunctions.sign_of a <$> l2 =
            HookFunctions.shifted (fun p => p) b <$> l1) as ->; [|done].
    unfold l1, l2. rewrite <- !list_fmap_compose.
    apply Forall_fmap_ext_1, Forall_forall. intros slot _. simpl.
    symmetry. apply shifted_swap.
  - rewrite (Lasso_eq b (on l1) l1 eq_refl Hfit1).
    unfold on. rewrite set_target_twice.
    assert (HookFunctions.shifted HookFunctions.sign_of b <$> l1 =
            HookFunctions.shifted HookFunctions.sign_of (a + b) <$> l) as ->;
      [|done].
    unfold l1. rewrite <- list_fmap_compose.
    apply Forall_fmap_ext_1, Forall_forall. intros slot _.
    apply shifted_rates.
  - by apply Lasso_eq.
Qed.

Lemma Lasso_commutes_with_WeightDecay_witness :
  exists w1 w2 w12 l1 slot' g',
    HookFunctions.Lasso 2 clipping_world = Some (w1, Ret tt) /\
    Optimizer.target (Optimizer.opt w1) = Some l1 /\
    l1 !! 0%nat = Some slot' /\
    grad (Link.param slot') = Some g' /\
    elems g' !! 0%nat = Some (3 + 2 * 1)%R /\
    HookFunctions.WeightDecay 3 clipping_world = Some (w2, Ret tt) /\
    HookFunctions.WeightDecay 3 w1 = Some (w12, Ret tt) /\
    HookFunctions.Lasso 2 w2 = Some (w12, Ret tt).
Proof.
  destruct (Lasso_commutes_with_WeightDecay 2 3 clipping_world _ eq_refl)
    as (w1 & w2 & w12 & w3 & l1 & H1 & Hl1 & _ & Hslots & H2 & H3 & H4 & _).
  { repeat constructor. }
  destruct (Hslots 0%nat _ eq_refl)
    as (slot' & Hslot' & _ & _ & _ & g & g' & Hg & Hg' & _ & _ & _ & _ & Helems).
  injection Hg as <-.
  exists w1, w2, w12, l1, slot', g'. repeat split; try done.
  rewrite (Helems 0%nat 3%R 5%R eq_refl eq_refl).
  destruct (Rlt_dec 0 5) as [_|Hn]; [done|]. exfalso. apply Hn. lra.
Defined.

Section ClippingFacts.
Import Optimizer.
Local Open Scope R_scope.

Lemma clip_bounds (lower upper e : R) :
  lower <= upper ->
  let e' := Rmin (Rmax e lower) upper in
  lower <= e' <= upper /\
  (lower <= e <= upper -> e' = e) /\
  (e < lower -> e' = lower) /\
  (upper < e -> e' = upper).
Proof.
  intros Hle. unfold Rmin, Rmax.
  destruct (Rle_dec e lower); destruct (Rle_dec _ upper); simpl;
    repeat split; intros; lra.
Qed.

Lemma clip_twice (lower upper : R) (g : ndarray) :
  HookFunctions.clip lower upper (HookFunctions.clip lower upper g) =
    HookFunctions.clip lower upper g.
Proof.
  unfold HookFunctions.clip. simpl. f_equal.
  rewrite <- list_fmap_compose. apply Forall_fmap_ext_1, Forall_forall.
  intros e _. simpl. unfold Rmin, Rmax.
  repeat (destruct (Rle_dec _ _)); lra.
Qed.

Lemma clipped_twice (lower upper : R) (slot : Link.slot) :
  HookFunctions.clipped lower upper (HookFunctions.clipped lower upper slot) =
    HookFunctions.clipped lower upper slot.
Proof.
  unfold HookFunctions.clipped, Link.initialized.
  destruct slot as [[n [d|] [g|]] r]; simpl; try done.
  unfold Link.set_param, set_grad. simpl. by rewrite clip_twice.
Qed.

(** Every parameter with data has a gradient. *)
Lemma clipped_has_grads (lower upper : R) (l : Link.link) :
  Forall (fun slot => is_Some (data (Link.param slot)) ->
                      is_Some (grad (Link.param slot))) l ->
  Forall (fun slot => is_Some (data (Link.param slot)) ->
                      is_Some (grad (Link.param slot)))
         (HookFunctions.clipped lower upper <$> l).
Proof.
  rewrite Forall_fmap. intros Hl. eapply Forall_impl; [exact Hl|].
  intros slot Hslot. simpl. unfold HookFunctions.clipped, Link.initialized.
  destruct (data (Link.param slot)) as [d|] eqn:Hd; [|by rewrite Hd].
  simpl. intros _. destruct Hslot as [g Hg]; [by eexists|].
  rewrite Hg. by eexists.
Qed.

Lemma GradientHardClipping_eq (lower upper : R) (w : world) (l : Link.link) :
  target (opt w) = Some l ->
  Forall (fun slot => is_Some (data (Link.param slot)) ->
                      is_Some (grad (Link.param slot))) l ->
  HookFunctions.GradientHardClipping lower upper w =
    Some (set_opt (set_target (HookFunctions.clipped lower upper <$> l) (opt w)) w,
          Ret tt).
Proof.
  intros Ht Hgrads. apply (with_target_eq _ w l); [done|].
  apply (hook_loop_map _
           (fun prm => set_grad (HookFunctions.clip lower upper <$> grad prm) prm)).
  intros slot Hin Hinit. rewrite Forall_forall in Hgrads.
  destruct (Hgrads slot Hin) as [g Hg].
  { unfold Link.initialized in Hinit.
    destruct (data (Link.param slot)); [by eexists|done]. }
  unfold HookFunctions.GradientHardClipping_body. by rewrite Hg.
Qed.

End ClippingFacts.

(** X20.  Array elements are real numbers here: no NaN, and the bounds are
    not rounded to the type of the array.  On a target where every
    parameter with data has a gradient,
    [GradientHardClipping(lower, upper)] with [lower <= upper] returns,
    and afterwards the target has the same parameters with the same
    names, data and update rules.  In the gradient of a parameter with
    data every element lies between the two bounds: an element that was
    between them is as it was, an element below [lower] has become
    [lower] and an element above [upper] has become [upper].  A parameter
    without data is as it was.  Applied to its own result the hook changes
    nothing. *)
Theorem GradientHardClipping_bounds
    (lower upper : R) (w : Optimizer.world) (l : Link.link) :
  Optimizer.target (Optimizer.opt w) = Some l ->
  Forall (fun slot => is_Some (data (Link.param slot)) ->
                      is_Some (grad (Link.param slot))) l ->
  (lower <= upper)%R ->
  exists w' l',
    HookFunctions.GradientHardClipping lower upper w = Some (w', Ret tt) /\
    Optimizer.target (Optimizer.opt w') = Some l' /\
    length l' = length l /\
    (forall i slot, l !! i = Some slot ->
       exists slot',
         l' !! i = Some slot' /\
         Link.update_rule slot' = Link.update_rule slot /\
         name (Link.param slot') = name (Link.param slot) /\
         data (Link.param slot') = data (Link.param slot) /\
         match data (Link.param slot) with
         | None => grad (Link.param slot') = grad (Link.param slot)
         | Some _ =>
             exists g g',
               grad (Link.param slot) = Some g /\
               grad (Link.param slot') = Some g' /\
               device g' = device g /\ shape g' = shape g /\
               adtype g' = adtype g /\
               length (elems g') = length (elems g) /\
               forall k e, elems g !! k = Some e ->
                 exists e',
                   elems g' !! k = Some e' /\
                   (lower <= e' <= upper)%R /\
                   ((lower <= e <= upper)%R -> e' = e) /\
                   ((e < lower)%R -> e' = lower) /\
                   ((upper < e)%R -> e' = upper)
         end) /\
    HookFunctions.GradientHardClipping lower upper w' = Some (w', Ret tt).
Proof.
  intros Htarget Hgrads Hle.
  set (l' := HookFunctions.clipped lower upper <$> l).
  exists (Optimizer.set_opt (Optimizer.set_target l' (Optimizer.opt w)) w), l'.
  split; [by apply (GradientHardClipping_eq lower upper w l)|].
  split; [done|]. split; [unfold l'; by rewrite length_fmap|]. split.
  - intros i slot Hi. exists (HookFunctions.clipped lower upper slot).
    split; [unfold l'; by rewrite list_lookup_fmap, Hi|].
    rewrite Forall_forall in Hgrads.
    assert (slot ∈ l) as Hin by (by eapply list_elem_of_lookup_2).
    specialize (Hgrads slot Hin).
    unfold HookFunctions.clipped, Link.initialized.
    destruct (data (Link.param slot)) as [d|] eqn:Hd; [|by rewrite Hd].
    destruct Hgrads as [g Hg]; [by eexists|].
    simpl. rewrite Hd, Hg. repeat split.
    exists g, (HookFunctions.clip lower upper g). simpl.
    repeat split; try done; [by rewrite length_fmap|].
    intros k e Hk. exists (Rmin (Rmax e lower) upper).
    split; [by rewrite list_lookup_fmap, Hk|].
    by apply clip_bounds.
  - rewrite (GradientHardClipping_eq lower upper
               (Optimizer.set_opt (Optimizer.set_target l' (Optimizer.opt w)) w)
               l' eq_refl) by (by apply clipped_has_grads).
    rewrite set_target_twice.
    assert (HookFunctions.clipped lower upper <$> l' = l') as ->; [|done].
    unfold l'. rewrite <- list_fmap_compose.
    apply Forall_fmap_ext_1, Forall_forall. intros slot _.
    apply clipped_twice.
Qed.

Lemma GradientHardClipping_bounds_witness :
  exists w' l' slot' g',
    HookFunctions.GradientHardClipping (-1) (7 / 2) clipping_world =
      Some (w', Ret tt) /\
    Optimizer.target (Optimizer.opt w') = Some l' /\
    l' !! 0%nat = Some slot' /\
    grad (Link.param slot') = Some g' /\
    elems g' !! 0%nat = Some 3%R /\
    elems g' !! 1%nat = Some (7 / 2)%R /\
    HookFunctions.GradientHardClipping (-1) (7 / 2) w' = Some (w', Ret tt).
Proof.
  destruct (GradientHardClipping_bounds (-1) (7 / 2) clipping_world _ eq_refl)
    as (w' & l' & H1 & Hl' & _ & Hslots & H2); [|lra|].
  { repeat constructor. by eexists. }
  destruct (Hslots 0%nat _ eq_refl)
    as (slot' & Hslot' & _ & _ & _ & g & g' & Hg & Hg' & _ & _ & _ & _ & Helems).
  injection Hg as <-.
  destruct (Helems 0%nat 3%R eq_refl) as (e0 & He0 & _ & Hin0 & _).
  destruct (Helems 1%nat 4%R eq_refl) as (e1 & He1 & _ & _ & _ & Hup1).
  exists w', l', slot', g'. repeat split; try done.
  - rewrite He0. f_equal. apply Hin0. lra.
  - rewrite He1. f_equal. apply Hup1. lra.
Defined.

Section AccumulateFacts.
Import Optimizer.
Local Open Scope R_scope.

Lemma for_params_stops {A : Type}
    (body : A -> Param -> option (outcome Param)) (items : list (nat * A))
    (acc : option (Link.link * outcome unit)) :
  (acc = None \/ exists l e, acc = Some (l, Raise e)) ->
  foldl (fun acc '(i, a) =>
           match acc with
           | Some (l, Ret _) =>
               match l !! i with
               | Some slot =>
                   match body a (Link.param slot) with
                   | Some (Ret p) => Some (<[i := Link.set_param p slot]> l, Ret tt)
                   | Some (Raise e) => Some (l, Raise e)
                   | None => None
                   end
               | None => acc
               end
           | _ => acc
           end) acc items = acc.
Proof.
  intros Hacc. induction items as [|[i a] items IH]; [done|].
  simpl. destruct Hacc as [->|(l & e & ->)]; exact IH.
Qed.

(** A property of the link that every successful round of the loop keeps
    holds of the link that the loop leaves, however the loop ends. *)
Lemma for_params_inv {A : Type}
    (body : A -> Param -> option (outcome Param)) (P : Link.link -> Prop)
    (items : list (nat * A)) :
  (forall l i a slot p',
     (i, a) ∈ items -> P l -> l !! i = Some slot ->
     body a (Link.param slot) = Some (Ret p') ->
     P (<[i := Link.set_param p' slot]> l)) ->
  forall l0 l' r,
    P l0 -> HookFunctions.for_params body items l0 = Some (l', r) -> P l'.
Proof.
  induction items as [|[i a] items IH]; intros Hstep l0 l' r HP Hrun.
  - injection Hrun as <- _. done.
  - assert (forall l i0 a0 slot p',
              (i0, a0) ∈ items -> P l -> l !! i0 = Some slot ->
              body a0 (Link.param slot) = Some (Ret p') ->
              P (<[i0 := Link.set_param p' slot]> l)) as Hstep'.
    { intros l i0 a0 slot p' Hin. apply Hstep. by apply list_elem_of_further. }
    unfold HookFunctions.for_params in Hrun. simpl in Hrun.
    destruct (l0 !! i) as [slot|] eqn:Hl.
    + destruct (body a (Link.param slot)) as [[p'|e]|] eqn:Hbody.
      * apply (IH Hstep' _ l' r) in Hrun; [done|].
        apply (Hstep l0 i a slot p'); [apply list_elem_of_here|done..].
      * rewrite for_params_stops in Hrun by (right; eauto).
        injection Hrun as <- _. done.
      * rewrite for_params_stops in Hrun by (by left). done.
    + by apply (IH Hstep' l0 l' r).
Qed.

Lemma fst_zip_take {A B : Type} (k : list B) :
  forall l : list A, (zip l k).*1 = take (length k) l.
Proof.
  induction k as [|y k IH]; intros [|x l]; simpl; try done.
  by rewrite IH.
Qed.

(** A round of [accumulate_grads] that succeeds replaces the gradient by
    an array on the same device, of the same shape and type. *)
Lemma accumulate_body_ret (g_src : ndarray) (prm p' : Param) :
  HookFunctions.accumulate_body g_src prm = Some (Ret p') ->
  exists g g',
    grad prm = Some g /\ p' = set_grad (Some g') prm /\
    device g' = device g /\ shape g' = shape g /\ adtype g' = adtype g.
Proof.
  unfold HookFunctions.accumulate_body.
  destruct (grad prm) as [g|]; [|by destruct (decide _)].
  intros Hrun. exists g.
  assert (forall x sum, HookFunctions.iadd g x = sum ->
            match sum with
            | Some g' => Some (Ret (set_grad (Some g') prm))
            | None => None
            end = Some (Ret p') ->
            exists g', Some g = Some g /\ p' = set_grad (Some g') prm /\
                       device g' = device g /\ shape g' = shape g /\
                       adtype g' = adtype g) as Hsum.
  { intros x sum Hx Hp. unfold HookFunctions.iadd in Hx.
    destruct (decide (HookFunctions.fits g x)); subst sum; [|done].
    injection Hp as <-. by exists (HookFunctions.plus g x). }
  destruct (decide (device g = (-1)%Z)); [by eapply Hsum|].
  destruct (decide _); by eapply Hsum.
Qed.

End AccumulateFacts.

(** X21.  However [accumulate_grads] ends, with a result or with an
    exception raised at some parameter, the target has the parameters it
    had: names, data and update rules are untouched, every gradient is
    still on its device with its shape and type, whatever the device of
    the array added to it, and a parameter beyond the number of the given
    arrays is exactly as before. *)
Theorem Optimizer_accumulate_grads_frame
    (grads : list ndarray) (w w' : Optimizer.world) (r : outcome unit)
    (l : Link.link) :
  Optimizer.target (Optimizer.opt w) = Some l ->
  OptimizerGrads.accumulate_grads grads w = Some (w', r) ->
  exists l',
    Optimizer.target (Optimizer.opt w') = Some l' /\
    length l' = length l /\
    forall j slot, l !! j = Some slot ->
      exists slot',
        l' !! j = Some slot' /\
        Link.update_rule slot' = Link.update_rule slot /\
        name (Link.param slot') = name (Link.param slot) /\
        data (Link.param slot') = data (Link.param slot) /\
        (fun g => (device g, shape g, adtype g)) <$> grad (Link.param slot') =
          (fun g => (device g, shape g, adtype g)) <$> grad (Link.param slot) /\
        (j ∉ take (length grads) (Link.params false l) -> slot' = slot).
Proof.
  intros Htarget Hrun.
  unfold OptimizerGrads.accumulate_grads, HookFunctions.with_target in Hrun.
  rewrite Htarget in Hrun.
  destruct (HookFunctions.for_params _ _ l) as [[l' r']|] eqn:Hloop; [|done].
  injection Hrun as <- <-. exists l'. split; [done|].
  set (items := zip (Link.params false l) grads) in *.
  apply (for_params_inv HookFunctions.accumulate_body
           (fun l1 =>
              length l1 = length l /\
              forall j slot, l !! j = Some slot ->
                exists slot',
                  l1 !! j = Some slot' /\
                  Link.update_rule slot' = Link.update_rule slot /\
                  name (Link.param slot') = name (Link.param slot) /\
                  data (Link.param slot') = data (Link.param slot) /\
                  (fun g => (device g, shape g, adtype g)) <$> grad (Link.param slot') =
                    (fun g => (device g, shape g, adtype g)) <$> grad (Link.param slot) /\
                  (j ∉ take (length grads) (Link.params false l) -> slot' = slot))
           items) in Hloop; [done| |].
  - intros l1 i a s1 p' Hin [Hlen Hframe] Hl1 Hbody.
    split; [by rewrite length_insert|].
    intros j slot Hj.
    destruct (Hframe j slot Hj) as (s & Hs & Hrule & Hname & Hdata & Hmeta & Hout).
    destruct (decide (j = i)) as [->|Hne].
    + rewrite Hl1 in Hs. injection Hs as <-.
      apply accumulate_body_ret in Hbody
        as (g & g' & Hg & -> & Hdev & Hshape & Htype).
      exists (Link.set_param (set_grad (Some g') (Link.param s1)) s1).
      split; [apply list_lookup_insert_eq; by eapply lookup_lt_Some|].
      repeat split; try done.
      * rewrite <- Hmeta, Hg. simpl. by rewrite Hdev, Hshape, Htype.
      * intros Hnot. exfalso. apply Hnot.
        rewrite <- (fst_zip_take grads (Link.params false l)).
        apply list_elem_of_fmap. by exists (i, a).
    + exists s. by rewrite list_lookup_insert_ne.
  - split; [done|]. intros j slot Hj. exists slot. done.
Qed.

Lemma Optimizer_accumulate_grads_frame_witness :
  exists w' l',
    OptimizerGrads.accumulate_grads accumulated_sources clipping_world =
      Some (w', Ret tt) /\
    Optimizer.target (Optimizer.opt w') = Some l' /\
    length l' = 1%nat.
Proof.
  set (slot := slot_of {| name := "/W"; data := Some example_data;
                          grad := Some grad_3_4 |}).
  set (sum := HookFunctions.plus grad_3_4 (to_cpu (to_gpu 0 example_grad))).
  set (w' := Optimizer.set_opt
               (Optimizer.set_target
                  [Link.set_param (set_grad (Some sum) (Link.param slot)) slot]
                  (Optimizer.opt clipping_world)) clipping_world).
  destruct (Optimizer_accumulate_grads_frame accumulated_sources clipping_world
              w' (Ret tt) _ eq_refl eq_refl) as (l' & Hl' & Hlen & _).
  by exists w', l'.
Defined.
